(** * AI-Bug-Ticket-Generator: the backend proxies and the ticket parser

    A shallow embedding of
      - the in-memory rate limiters of api/push-to-jira.js,
        netlify/functions/generate-ticket.cjs and server.js
        ([serverlessLimit], [expressLimit], [expressCleanup]);
      - the Jira URL validator ([validateJiraUrl]);
      - src/components/FormattedTicket.jsx: [parseTicketForJira], with the
        regular expressions as ECMAScript matches them (modules [RegExp],
        [FormattedTicket]), and the status messages of [pushToJira];
      - api/push-to-jira.js: the handler, the payload, the lookup of the
        engineering team and the upload loop (module [PushToJira]);
      - netlify/functions/generate-ticket.cjs, its Vercel sibling and the
        start of server.js (modules [GenerateTicket],
        [VercelGenerateTicket], [Server]);
      - api/test-jira.js, the connection test (module [TestJira]); the
        list of allowed origins and the CORS decisions of the backends
        (module [Cors]);
      - the helpers of the application in the same client file:
        [getApiEndpoint], [sanitizeText], [sanitizeFileName], the ticket
        format and [calculateQualityScore] (modules [StringReplace],
        [App]);
    followed by the properties of the specification, claim by claim, and
    by further properties of the code.

    JavaScript strings are sequences of UTF-16 code units and are modelled
    as [list N]; [Date.now()] and the counters are modelled in [Z]; an
    exception is a result of its own ([Completion], and [Uncaught] for a
    handler that throws outside its [try]); what the network
    answers is a parameter of the handlers ([World], [FetchResult]) and
    what they do to the outside is the list of events they return. *)

From Stdlib Require Import ZArith NArith List String Ascii Bool Lia.
From stdpp Require Import base gmap list fin_maps option.

Open Scope Z_scope.

(* ===================================================================== *)
(** ** JavaScript strings *)
(* ===================================================================== *)

Abbreviation jsstring := (list N).

(** A string literal of the source, all of whose characters are ASCII. *)
Definition js (s : string) : jsstring :=
  map N_of_ascii (list_ascii_of_string s).

(** [a || b] on a possibly undefined header or field: [undefined] and the
    empty string are the falsy values a string-or-undefined can take. *)
Definition truthy (o : option jsstring) : bool :=
  match o with
  | Some (_ :: _) => true
  | _ => false
  end.

Definition orElse (o : option jsstring) (d : option jsstring) : option jsstring :=
  if truthy o then o else d.

(* ===================================================================== *)
(** ** The in-memory rate limiters *)
(* ===================================================================== *)

(** The value stored in [rateLimitMap]: [{ count, resetTime }]. *)
Record Entry := { count : Z; resetTime : Z }.

(** What the limiter does with the request: let it through, or answer it
    with a status and a JSON body [{ error }]. *)
Inductive Verdict :=
| Next
| Reject (status : Z) (error : jsstring).

Definition tooManyRequests : Verdict :=
  Reject 429 (js "Too many requests. Please try again in a minute.").

Section Limiters.
(** The limiters are keyed by whatever the handler computes as [ip]. *)
Context {K : Type} `{Countable K}.

(** The block that opens the three serverless handlers
    (api/push-to-jira.js 32-44, api/test-jira.js,
    netlify/functions/generate-ticket.cjs 17-36); they differ in
    [MAX_REQUESTS_PER_WINDOW] only. [limit.count++] mutates the object the
    map holds, which is the insertion of the updated entry. *)
Definition serverlessLimit (RATE_LIMIT_WINDOW MAX_REQUESTS_PER_WINDOW : Z)
    (rateLimitMap : gmap K Entry) (ip : K) (now : Z)
  : gmap K Entry * Verdict :=
  match rateLimitMap !! ip with
  | Some limit =>
      if now <? resetTime limit then
        if MAX_REQUESTS_PER_WINDOW <=? count limit then
          (rateLimitMap, tooManyRequests)
        else
          (<[ip := {| count := count limit + 1;
                      resetTime := resetTime limit |}]> rateLimitMap, Next)
      else
        (<[ip := {| count := 1; resetTime := now + RATE_LIMIT_WINDOW |}]>
           rateLimitMap, Next)
  | None =>
      (<[ip := {| count := 1; resetTime := now + RATE_LIMIT_WINDOW |}]>
         rateLimitMap, Next)
  end.

(** server.js 78-107, the Express middleware [rateLimit]. *)
Definition expressLimit (RATE_LIMIT_WINDOW MAX_REQUESTS_PER_WINDOW : Z)
    (rateLimitMap : gmap K Entry) (ip : K) (now : Z)
  : gmap K Entry * Verdict :=
  match rateLimitMap !! ip with
  | None =>
      (<[ip := {| count := 1; resetTime := now + RATE_LIMIT_WINDOW |}]>
         rateLimitMap, Next)
  | Some limit =>
      if resetTime limit <? now then
        (<[ip := {| count := 1; resetTime := now + RATE_LIMIT_WINDOW |}]>
           rateLimitMap, Next)
      else if MAX_REQUESTS_PER_WINDOW <=? count limit then
        (rateLimitMap, tooManyRequests)
      else
        (<[ip := {| count := count limit + 1;
                    resetTime := resetTime limit |}]> rateLimitMap, Next)
  end.

(** server.js 144-151, the body of the [setInterval] callback. *)
Definition expressCleanup (rateLimitMap : gmap K Entry) (now : Z)
  : gmap K Entry :=
  filter (fun kv => ¬ (resetTime (snd kv) + 60000 < now)) rateLimitMap.
End Limiters.


(* ===================================================================== *)
(** ** The Jira URL validator *)
(* ===================================================================== *)

(** [String.prototype.endsWith(searchString)]: with [start] the length of
    the string minus the length of the searched string, the answer is
    [false] when [start] is negative and otherwise whether the code units
    from [start] on are those of the searched string. *)
Definition endsWith (s searchString : jsstring) : bool :=
  let start := Z.of_nat (length s) - Z.of_nat (length searchString) in
  if start <? 0 then false
  else bool_decide (drop (Z.to_nat start) s = searchString).

(** The two properties of a WHATWG [URL] object the validator reads. *)
Record URL := { protocol : jsstring; hostname : jsstring }.

(** The answer of the validator: [{ valid: true }] or
    [{ valid: false, error }]. *)
Record Validation := { valid : bool; error : option jsstring }.

Section Validator.
(** [new URL(url)] is the platform's parser, not code of this repository:
    it is a parameter. [None] stands for the [TypeError] it throws on a
    string that is not a URL. *)
Variable newURL : jsstring -> option URL.

(** api/push-to-jira.js 12-25, api/test-jira.js 12-25 and
    server.js 32-47: the same text three times. *)
Definition validateJiraUrl (url : jsstring) : Validation :=
  match newURL url with
  | Some parsedUrl =>
      if negb (bool_decide (protocol parsedUrl = js "https:")) then
        {| valid := false; error := Some (js "Jira URL must use HTTPS") |}
      else if negb (endsWith (hostname parsedUrl) (js ".atlassian.net")) then
        {| valid := false;
           error := Some (js "Only Atlassian-hosted Jira instances are allowed") |}
      else {| valid := true; error := None |}
  | None =>
      {| valid := false; error := Some (js "Invalid Jira URL format") |}
  end.
End Validator.

(** What Node's [URL] returns for the URLs used as examples below (WHATWG
    URL Standard: a special scheme, lower-cased host, no port). Every other
    string is left unparsed by this table. *)
Definition sampleURL (url : jsstring) : option URL :=
  if bool_decide (url = js "https://anything.atlassian.net") then
    Some {| protocol := js "https:"; hostname := js "anything.atlassian.net" |}
  else if bool_decide (url = js "https://atlassian.net") then
    Some {| protocol := js "https:"; hostname := js "atlassian.net" |}
  else if bool_decide (url = js "https://evilatlassian.net") then
    Some {| protocol := js "https:"; hostname := js "evilatlassian.net" |}
  else if bool_decide (url = js "http://anything.atlassian.net") then
    Some {| protocol := js "http:"; hostname := js "anything.atlassian.net" |}
  else if bool_decide (url = js "https://evil.com") then
    Some {| protocol := js "https:"; hostname := js "evil.com" |}
  else None.

(* ===================================================================== *)
(** ** JSON values, exceptions and HTTP responses *)
(* ===================================================================== *)

#[local] Set Warnings "-register-all".

(** What [JSON.parse] and [response.json()] produce. A number is kept as
    an integer: the code only asks whether it is zero. An object is the
    list of its properties, one per key. *)
Inductive JSON :=
| JNull
| JBool (b : bool)
| JNumber (z : Z)
| JString (s : jsstring)
| JArray (elements : list JSON)
| JObject (properties : list (jsstring * JSON)).

(** A JavaScript value read out of such data: [None] is [undefined]. *)
Definition truthyValue (v : option JSON) : bool :=
  match v with
  | None | Some JNull => false
  | Some (JBool b) => b
  | Some (JNumber z) => negb (z =? 0)
  | Some (JString s) => match s with [] => false | _ => true end
  | Some (JArray _) | Some (JObject _) => true
  end.

(** The completion of an evaluation: a value, or a thrown exception. *)
Inductive Completion (A : Type) :=
| Normal (a : A)
| Throws.
Arguments Normal {A} a.
Arguments Throws {A}.

#[global] Instance completion_ret : MRet Completion := fun _ a => Normal a.
#[global] Instance completion_fmap : FMap Completion := fun _ _ f c =>
  match c with Normal a => Normal (f a) | Throws => Throws end.
#[global] Instance completion_bind : MBind Completion := fun _ _ f c =>
  match c with Normal a => f a | Throws => Throws end.

Definition lookupProperty (name : jsstring) (properties : list (jsstring * JSON))
  : option JSON :=
  snd <$> List.find (fun kv => bool_decide (fst kv = name)) properties.

(** [v.name], for the names the code reads ([projects], [issuetypes],
    [fields], [customfield_11737], [allowedValues], [value], [name], [id],
    [key], [messages], [error], [message], [displayName], [emailAddress],
    [accountId]): reading a property of [null] or [undefined] throws a
    [TypeError]; an object gives its own property; arrays, strings,
    numbers and booleans have no property of these names. *)
Definition getProp (v : option JSON) (name : jsstring)
  : Completion (option JSON) :=
  match v with
  | None | Some JNull => Throws
  | Some (JObject properties) => Normal (lookupProperty name properties)
  | Some _ => Normal None
  end.

(** [v[0]]: the first element of an array, the property ["0"] of an
    object, the first code unit of a string. *)
Definition getFirst (v : option JSON) : Completion (option JSON) :=
  match v with
  | None | Some JNull => Throws
  | Some (JArray elements) => Normal (head elements)
  | Some (JObject properties) => Normal (lookupProperty (js "0") properties)
  | Some (JString (ch :: _)) => Normal (Some (JString [ch]))
  | Some _ => Normal None
  end.

(** [v === s] for a string [s]. *)
Definition strictEqString (v : option JSON) (s : jsstring) : bool :=
  match v with
  | Some (JString t) => bool_decide (t = s)
  | _ => false
  end.

(** [Array.prototype.find]: the first element the predicate accepts; the
    predicate may throw. *)
Fixpoint findFirst (pred : JSON -> Completion bool) (elements : list JSON)
  : Completion (option JSON) :=
  match elements with
  | [] => Normal None
  | el :: rest =>
      b ← pred el;
      match b with
      | true => Normal (Some el)
      | false => findFirst pred rest
      end
  end.

(** [v.find(pred)]: only an array has a callable [find]. *)
Definition callFind (v : JSON) (pred : JSON -> Completion bool)
  : Completion (option JSON) :=
  match v with
  | JArray elements => findFirst pred elements
  | _ => Throws
  end.

(** What an awaited [fetch] gives: a rejection (network failure), or a
    response with its status and what reading its body gives ([None]:
    [text()], respectively [json()], rejects). *)
Record HttpResponse := {
  httpStatus : Z;
  text : option jsstring;
  json : option JSON
}.

Inductive FetchResult :=
| NetworkError (message : jsstring)
| Responded (response : HttpResponse).

(** [response.ok] *)
Definition ok (r : HttpResponse) : bool :=
  (200 <=? httpStatus r) && (httpStatus r <=? 299).

(** [res.setHeader(name, value)] of Node's [http.ServerResponse], which
    is the response object of the Vercel functions: it throws a
    [TypeError] when the value is [undefined], and when the value holds a
    code unit other than a tab, 0x20-0x7e and 0x80-0xff; otherwise the
    header is set to the value. *)
Definition validHeaderChar (ch : N) : bool :=
  (ch =? 9)%N || ((32 <=? ch)%N && (ch <=? 126)%N)
  || ((128 <=? ch)%N && (ch <=? 255)%N).

Definition setHeader (value : option jsstring) : Completion jsstring :=
  match value with
  | Some s => if forallb validHeaderChar s then Normal s else Throws
  | None => Throws
  end.

(* ===================================================================== *)
(** ** Regular expressions, as ECMAScript matches them *)
(* ===================================================================== *)

(** The patterns of [parseTicketForJira] are run by the backtracking
    matcher of ECMA-262 (22.2.2): a pattern denotes a function from a
    state and a continuation to a result, alternatives are tried left to
    right and quantifiers greedily or lazily. The embedding follows that
    definition for the constructs the file uses. *)

Module RegExp.

(** Sets of code units: what a pattern character, an escape or a class
    denotes. *)
Inductive cset :=
| CChar (c : N)                (* a pattern character, or an escape of one *)
| CRange (lo hi : N)           (* [lo-hi] *)
| CSpace                       (* \s *)
| CNonSpace                    (* \S *)
| CDot                         (* . *)
| CUnion (a b : cset).         (* the members of a class *)

(** WhiteSpace and LineTerminator code points; the set of [\s] and of
    [String.prototype.trim]. *)
Definition isWhiteSpace (c : N) : bool :=
  ((9 <=? c) && (c <=? 13) || (c =? 32) || (c =? 160) || (c =? 5760)
   || (8192 <=? c) && (c <=? 8202) || (c =? 8232) || (c =? 8233)
   || (c =? 8239) || (c =? 8287) || (c =? 12288) || (c =? 65279))%N.

Definition isLineTerminator (c : N) : bool :=
  ((c =? 10) || (c =? 13) || (c =? 8232) || (c =? 8233))%N.

(** The word characters of [\b]: [A-Za-z0-9_]. *)
Definition isWordChar (c : N) : bool :=
  ((97 <=? c) && (c <=? 122) || (65 <=? c) && (c <=? 90)
   || (48 <=? c) && (c <=? 57) || (c =? 95))%N.

Fixpoint member (s : cset) (c : N) : bool :=
  match s with
  | CChar a => (c =? a)%N
  | CRange lo hi => ((lo <=? c) && (c <=? hi))%N
  | CSpace => isWhiteSpace c
  | CNonSpace => negb (isWhiteSpace c)
  | CDot => negb (isLineTerminator c)
  | CUnion a b => member a c || member b c
  end.

Definition upperASCII (c : N) : N :=
  if ((97 <=? c) && (c <=? 122))%N then (c - 32)%N else c.
Definition lowerASCII (c : N) : N :=
  if ((65 <=? c) && (c <=? 90))%N then (c + 32)%N else c.

(** CharacterSetMatcher. Under the [i] flag (and without [u]) a code
    unit matches when some member of the set has the same
    canonicalisation. The sets of this file name ASCII characters and
    [\s]/[\S] only; a code unit outside ASCII never canonicalises to an
    ASCII one, and white space has no case, so the members to compare
    with are the code unit itself and its two ASCII cases. *)
Definition matches (ignoreCase : bool) (s : cset) (c : N) : bool :=
  if ignoreCase
  then member s c || member s (upperASCII c) || member s (lowerASCII c)
  else member s c.

Inductive regex :=
| Empty
| Chars (s : cset)
| Seq (r1 r2 : regex)
| Alt (r1 r2 : regex)                       (* r1|r2 *)
| Repeat (r : regex) (min : nat) (max : option nat) (greedy : bool)
| Group (n : nat) (r : regex)               (* the n-th ( ... ) *)
| AssertStart                               (* ^ *)
| AssertEnd                                 (* $, no m flag *)
| WordBoundary.                             (* \b *)

(** A state of the matcher: the input split at the current index (the
    part before it reversed) and the captures so far. *)
Record State := {
  before : jsstring;
  after : jsstring;
  captures : list (nat * jsstring)
}.

Definition orTry {A} (a : option A) (b : option A) : option A :=
  match a with Some _ => a | None => b end.

Fixpoint groupsOf (r : regex) : list nat :=
  match r with
  | Seq a b | Alt a b => groupsOf a ++ groupsOf b
  | Repeat a _ _ _ => groupsOf a
  | Group n a => n :: groupsOf a
  | _ => []
  end.

Definition clearCaptures (gs : list nat) (x : State) : State :=
  {| before := before x; after := after x;
     captures := filter (fun kv => fst kv ∉ gs) (captures x) |}.

Definition setCapture (n : nat) (x y : State) : State :=
  {| before := before y; after := after y;
     captures :=
       (n, take (length (after x) - length (after y)) (after x))
         :: filter (fun kv => fst kv <> n) (captures y) |}.

Definition predMax (max : option nat) : option nat :=
  match max with Some n => Some (Nat.pred n) | None => None end.

(** RepeatMatcher(m, min, max, greedy, x, c) of ECMA-262, with [m] the
    matcher of the quantified atom and [gs] its capture groups, which
    every round clears. A round that is not required and consumes
    nothing is refused, so each round either lowers [min] or moves
    forward: [min] plus the length of what is left of the input bounds
    the number of rounds, and that is the [fuel] [run] passes. *)
Fixpoint repeatMatcher
    (m : State -> (State -> option State) -> option State)
    (gs : list nat) (greedy : bool) (c : State -> option State)
    (fuel min : nat) (max : option nat) (x : State) {struct fuel}
  : option State :=
  match fuel with
  | O => None
  | S fuel' =>
      match max with
      | Some O => c x
      | _ =>
          let d (y : State) :=
            if (min =? 0)%nat && (length (after y) =? length (after x))%nat
            then None
            else repeatMatcher m gs greedy c fuel' (Nat.pred min)
                   (predMax max) y in
          let xr := clearCaptures gs x in
          if negb (min =? 0)%nat then m xr d
          else if greedy then orTry (m xr d) (c x)
          else orTry (c x) (m xr d)
      end
  end.

(** [run i r x c]: the matcher of [r] under the flag [i], applied to the
    state [x] and the continuation [c]. *)
Fixpoint run (i : bool) (r : regex) (x : State)
    (c : State -> option State) {struct r} : option State :=
  match r with
  | Empty => c x
  | Chars s =>
      match after x with
      | ch :: rest =>
          if matches i s ch
          then c {| before := ch :: before x; after := rest;
                    captures := captures x |}
          else None
      | [] => None
      end
  | Seq r1 r2 => run i r1 x (fun y => run i r2 y c)
  | Alt r1 r2 => orTry (run i r1 x c) (run i r2 x c)
  | Repeat r0 min max greedy =>
      repeatMatcher (run i r0) (groupsOf r0) greedy c
        (S (min + length (after x))) min max x
  | Group n r0 => run i r0 x (fun y => c (setCapture n x y))
  | AssertStart =>
      match before x with [] => c x | _ => None end
  | AssertEnd =>
      match after x with [] => c x | _ => None end
  | WordBoundary =>
      let a := match before x with ch :: _ => isWordChar ch | [] => false end in
      let b := match after x with ch :: _ => isWordChar ch | [] => false end in
      if xorb a b then c x else None
  end.

(** The result of [String.prototype.match] with a pattern without the
    [g] flag ([RegExp.prototype.exec]): the index of the match, the
    matched text and the captures. *)
Record Match := {
  index : nat;
  matched : jsstring;              (* match[0] *)
  groups : list (nat * jsstring)
}.

(** [match[n]]; [None] is [undefined]. *)
Definition group (n : nat) (m : Match) : option jsstring :=
  snd <$> List.find (fun kv => (fst kv =? n)%nat) (groups m).

Definition matchAt (i : bool) (r : regex) (bef aft : jsstring)
  : option Match :=
  match run i r {| before := bef; after := aft; captures := [] |} Some with
  | Some y =>
      Some {| index := length bef;
              matched := take (length aft - length (after y)) aft;
              groups := captures y |}
  | None => None
  end.

(** The loop of RegExpBuiltinExec over [lastIndex], from the left. *)
Fixpoint searchFrom (i : bool) (r : regex) (bef aft : jsstring)
  : option Match :=
  match matchAt i r bef aft with
  | Some m => Some m
  | None =>
      match aft with
      | [] => None
      | ch :: rest => searchFrom i r (ch :: bef) rest
      end
  end.

Definition exec (i : bool) (r : regex) (s : jsstring) : option Match :=
  searchFrom i r [] s.

(** [RegExp.prototype.test]. *)
Definition test (i : bool) (r : regex) (s : jsstring) : bool :=
  match exec i r s with Some _ => true | None => false end.

(** Building blocks of the patterns. *)
Fixpoint lit (s : jsstring) : regex :=
  match s with
  | [] => Empty
  | ch :: rest => Seq (Chars (CChar ch)) (lit rest)
  end.

Definition star (s : cset) : regex := Repeat (Chars s) 0 None true.
Definition plus (s : cset) : regex := Repeat (Chars s) 1 None true.
Definition lazyStar (s : cset) : regex := Repeat (Chars s) 0 None false.
Definition lazyPlus (s : cset) : regex := Repeat (Chars s) 1 None false.
Definition anything : cset := CUnion CSpace CNonSpace.     (* [\s\S] *)

End RegExp.

(** [String.prototype.startsWith], [includes] and [indexOf] (from
    position 0); [None] is the -1 of [indexOf]. *)
Fixpoint startsWith (s searchString : jsstring) {struct searchString}
  : bool :=
  match searchString, s with
  | [], _ => true
  | a :: searchString', ch :: s' => (ch =? a)%N && startsWith s' searchString'
  | _ :: _, [] => false
  end.

Fixpoint indexOf (s searchString : jsstring) : option nat :=
  if startsWith s searchString then Some O
  else match s with
       | [] => None
       | _ :: s' => S <$> indexOf s' searchString
       end.

Definition includes (s searchString : jsstring) : bool :=
  match indexOf s searchString with Some _ => true | None => false end.

(** [String.prototype.trim]. *)
Fixpoint trimStart (s : jsstring) : jsstring :=
  match s with
  | ch :: rest => if RegExp.isWhiteSpace ch then trimStart rest else s
  | [] => []
  end.

Definition trim (s : jsstring) : jsstring :=
  rev (trimStart (rev (trimStart s))).

(** [String.prototype.toUpperCase], on the strings it is applied to here:
    the two ASCII characters a capture of [[Pp][1-4]] holds. *)
Definition toUpperCase (s : jsstring) : jsstring := map RegExp.upperASCII s.

(** *** Derived forms, used to reason about the matcher *)

Module RegExpDerived.
Import RegExp.

(** A quantified character set, by recursion on the input instead of on
    a bound on the number of rounds. *)
Fixpoint repeatChars (i : bool) (s : cset) (greedy : bool)
    (c : State -> option State) (caps : list (nat * jsstring))
    (min : nat) (max : option nat) (bef aft : jsstring) {struct aft}
  : option State :=
  let x := {| before := bef; after := aft; captures := caps |} in
  match max with
  | Some O => c x
  | _ =>
      let step :=
        match aft with
        | ch :: rest =>
            if matches i s ch
            then repeatChars i s greedy c caps (Nat.pred min) (predMax max)
                   (ch :: bef) rest
            else None
        | [] => None
        end in
      if negb (min =? 0)%nat then step
      else if greedy then orTry step (c x)
      else orTry (c x) step
  end.

(** Whether the characters of a literal match at the head of the input. *)
Fixpoint litPrefix (i : bool) (s aft : jsstring) : bool :=
  match s, aft with
  | [], _ => true
  | a :: s', ch :: aft' => matches i (CChar a) ch && litPrefix i s' aft'
  | _ :: _, [] => false
  end.

(** The state [n] code units further on. *)
Definition advance (n : nat) (x : State) : State :=
  {| before := rev (take n (after x)) ++ before x;
     after := drop n (after x);
     captures := captures x |}.

Definition allWhite (s : jsstring) : bool := forallb isWhiteSpace s.

(** The first and the last code unit are not white space (so the string
    is not empty and [trim] leaves it alone). *)
Definition trimmed (s : jsstring) : bool :=
  match s, rev s with
  | a :: _, z :: _ => negb (isWhiteSpace a) && negb (isWhiteSpace z)
  | _, _ => false
  end.


(** Whenever the pattern matches, the first group has taken part in the
    match. *)
Definition definesGroup1 (i : bool) (r : regex) : Prop :=
  forall x y, run i r x Some = Some y ->
    exists s, List.find (fun kv => (fst kv =? 1)%nat) (captures y)
              = Some (1%nat, s).
End RegExpDerived.

(* ===================================================================== *)
(** ** The allowed origins *)
(* ===================================================================== *)

Module Cors.

(** [String.prototype.split(separator)] for a separator of one code
    unit: the pieces between its occurrences, at least one. *)
Fixpoint split (separator : N) (s : jsstring) : list jsstring :=
  match s with
  | [] => [[]]
  | ch :: rest =>
      if (ch =? separator)%N then [] :: split separator rest
      else match split separator rest with
           | piece :: pieces => (ch :: piece) :: pieces
           | [] => [[ch]]
           end
  end.

Definition comma : N := 44.

(** The constant [ALLOWED_ORIGINS] of every backend
    (api/push-to-jira.js 2-4, api/test-jira.js 2-4,
    netlify/functions/generate-ticket.cjs 3-5, server.js 23-29):
    [process.env.ALLOWED_ORIGINS
       ? process.env.ALLOWED_ORIGINS.split(',').map(origin => origin.trim())
       : defaults]. *)
Definition allowedOrigins (env_ALLOWED_ORIGINS : option jsstring)
    (defaults : list jsstring) : list jsstring :=
  if truthy env_ALLOWED_ORIGINS then
    match env_ALLOWED_ORIGINS with
    | Some s => map trim (split comma s)
    | None => defaults
    end
  else defaults.

Definition vercelDefaults : list jsstring := [js "*"].
Definition netlifyDefaults : list jsstring :=
  [js "https://ai-bug-ticket-generator.netlify.app"].
Definition serverDefaults : list jsstring :=
  [js "http://localhost:3000"; js "http://localhost:5173";
   js "https://ai-bug-ticket-generator.netlify.app"].

(** [ALLOWED_ORIGINS.includes(origin)] and
    [ALLOWED_ORIGINS.indexOf(origin) !== -1] on a list of strings:
    [undefined] is not in it. *)
Definition listed (ALLOWED_ORIGINS : list jsstring)
    (origin : option jsstring) : bool :=
  match origin with
  | Some o => bool_decide (o ∈ ALLOWED_ORIGINS)
  | None => false
  end.

(** api/push-to-jira.js 46-52 and api/test-jira.js 46-52: the value
    given to the header [Access-Control-Allow-Origin]; [None] is
    [undefined]. *)
Definition vercelAllowOrigin (ALLOWED_ORIGINS : list jsstring)
    (headers_origin headers_referer : option jsstring) : option jsstring :=
  let origin := orElse headers_origin headers_referer in
  let isAllowedOrigin :=
    listed ALLOWED_ORIGINS (Some (js "*")) || listed ALLOWED_ORIGINS origin in
  if isAllowedOrigin then origin
  else orElse (head ALLOWED_ORIGINS) (Some (js "*")).

(** netlify/functions/generate-ticket.cjs 38-43 (and 191-196). *)
Definition netlifyAllowOrigin (ALLOWED_ORIGINS : list jsstring)
    (headers_origin headers_Origin : option jsstring) : option jsstring :=
  let origin := orElse headers_origin headers_Origin in
  let isAllowedOrigin := listed ALLOWED_ORIGINS origin in
  if isAllowedOrigin then origin else head ALLOWED_ORIGINS.

(** server.js 11: [process.env.NODE_ENV || 'development']. *)
Definition nodeEnv (env_NODE_ENV : option jsstring) : jsstring :=
  match orElse env_NODE_ENV (Some (js "development")) with
  | Some e => e
  | None => js "development"
  end.

(** What [corsOptions.origin] passes to its callback:
    [callback(null, true)] or [callback(new Error(message))]. *)
Inductive Decision :=
| Allowed
| Refused (message : jsstring).

(** server.js 49-68, [corsOptions.origin]. *)
Definition corsOrigin (NODE_ENV : jsstring)
    (ALLOWED_ORIGINS : list jsstring) (origin : option jsstring)
  : Decision :=
  if negb (truthy origin) && bool_decide (NODE_ENV = js "development") then
    Allowed
  else if negb (truthy origin) && bool_decide (NODE_ENV = js "production")
  then Refused (js "Origin header required")
  else if listed ALLOWED_ORIGINS origin then Allowed
  else Refused (js "Not allowed by CORS").

(** The text that lists the pieces, separated by commas. *)
Fixpoint joinComma (pieces : list jsstring) : jsstring :=
  match pieces with
  | [] => []
  | [piece] => piece
  | piece :: rest => piece ++ comma :: joinComma rest
  end.
End Cors.

(* ===================================================================== *)
(** ** src/components/FormattedTicket.jsx: the ticket field parser *)
(* ===================================================================== *)

Module FormattedTicket.
Import RegExp.

(** The object [parseTicketForJira] returns. *)
Record Fields := {
  title : jsstring;
  description : jsstring;
  steps : jsstring;
  expected : jsstring;
  actual : jsstring;
  impact : jsstring;
  priorityId : jsstring;
  priorityName : jsstring;
  environment : jsstring
}.

Definition newline : N := 10.
(** U+2501, the box character the separator lines are made of. *)
Definition heavyLine : N := 9473.

(** [/\*\*Title:\*\*\s*(.+?)(?:\n|$)/] *)
Definition titlePattern : regex :=
  Seq (lit (js "**Title:**"))
    (Seq (star CSpace)
       (Seq (Group 1 (lazyPlus CDot))
          (Alt (Chars (CChar newline)) AssertEnd))).

(** [/\*\*LABEL:\*\*\s*\n([\s\S]*?)(?:\n━|$)/], the pattern of the
    sections Description, Steps to Reproduce, Expected Behaviour, Actual
    Behaviour, Impact and Environment. *)
Definition sectionPattern (label : string) : regex :=
  Seq (lit (js "**" ++ js label ++ js ":**"))
    (Seq (star CSpace)
       (Seq (Chars (CChar newline))
          (Seq (Group 1 (lazyStar anything))
             (Alt (Seq (Chars (CChar newline)) (Chars (CChar heavyLine)))
                AssertEnd)))).

(** [([Pp][1-4])\b] *)
Definition codePattern : regex :=
  Seq (Group 1 (Seq (Chars (CUnion (CChar 80) (CChar 112)))
                  (Chars (CRange 49 52))))
    WordBoundary.

(** [/\*\*Priority:\*\*\s*([Pp][1-4])\b/] *)
Definition priorityPattern1 : regex :=
  Seq (lit (js "**Priority:**")) (Seq (star CSpace) codePattern).
(** [/Priority:\s*([Pp][1-4])\b/i] *)
Definition priorityPattern2 : regex :=
  Seq (lit (js "Priority:")) (Seq (star CSpace) codePattern).
(** [/Priority\s+([Pp][1-4])\b/i] *)
Definition priorityPattern3 : regex :=
  Seq (lit (js "Priority")) (Seq (plus CSpace) codePattern).
(** [/Priority[:\s\*]*\s*([Pp][1-4])\b/i] *)
Definition priorityPattern4 : regex :=
  Seq (lit (js "Priority"))
    (Seq (star (CUnion (CChar 58) (CUnion CSpace (CChar 42))))
       (Seq (star CSpace) codePattern)).
(** [/\*\*Priority:\*\*[\s\S]{0,30}/i] *)
Definition prioritySectionPattern : regex :=
  Seq (lit (js "**Priority:**")) (Repeat (Chars anything) 0 (Some 30%nat) true).
(** [/^P[1-4]$/] *)
Definition validCodePattern : regex :=
  Seq AssertStart
    (Seq (Chars (CChar 80)) (Seq (Chars (CRange 49 52)) AssertEnd)).

(** [m ? m[1].trim() : dflt]; were [m[1]] undefined, [.trim()] would
    throw a [TypeError]. *)
Definition trimmedGroup (m : option Match) (dflt : jsstring)
  : Completion jsstring :=
  match m with
  | Some m =>
      match group 1 m with
      | Some s => Normal (trim s)
      | None => Throws
      end
  | None => Normal dflt
  end.

(** [m && m[1]] followed by [m[1].trim().toUpperCase()]. *)
Definition codeOf (m : option Match) : option jsstring :=
  match m with
  | Some m =>
      match group 1 m with
      | Some (ch :: s) => Some (toUpperCase (trim (ch :: s)))
      | _ => None
      end
  | None => None
  end.

(** The cascade of the five priority patterns (lines 1238-1276);
    [None] is the JavaScript [null] the variable starts with. *)
Definition extractPriorityText (ticketContent : jsstring)
  : option jsstring :=
  match codeOf (exec false priorityPattern1 ticketContent) with
  | Some p => Some p
  | None =>
  match codeOf (exec true priorityPattern2 ticketContent) with
  | Some p => Some p
  | None =>
  match codeOf (exec true priorityPattern3 ticketContent) with
  | Some p => Some p
  | None =>
  match codeOf (exec true priorityPattern4 ticketContent) with
  | Some p => Some p
  | None =>
  match exec true prioritySectionPattern ticketContent with
  | Some prioritySection =>
      codeOf (exec false codePattern (matched prioritySection))
  | None => None
  end end end end end.

(** The own properties of the object literal [priorityIdMap]; [None] is
    [undefined]. It is indexed with a valid code only (see
    [resolvePriorityText]), so inherited properties are never reached. *)
Definition priorityIdMap (code : jsstring) : option jsstring :=
  if bool_decide (code = js "P1") then Some (js "1")
  else if bool_decide (code = js "P2") then Some (js "2")
  else if bool_decide (code = js "P3") then Some (js "3")
  else if bool_decide (code = js "P4") then Some (js "4")
  else None.

(** Lines 1278-1283: the default when nothing valid was extracted. *)
Definition resolvePriorityText (priorityText : option jsstring) : jsstring :=
  match priorityText with
  | Some (ch :: s) =>
      if test false validCodePattern (ch :: s) then ch :: s else js "P3"
  | _ => js "P3"
  end.

(** Lines 1285-1301: the identifier and the name of the priority. *)
Definition priorityOf (priorityText : jsstring) : jsstring * jsstring :=
  let mappedId :=
    match orElse (priorityIdMap priorityText) (Some (js "3")) with
    | Some id => id
    | None => js "3"
    end in
  (* [!fields.priorityId || typeof fields.priorityId !== 'string'] *)
  if negb (truthy (Some mappedId)) then (js "3", js "P3")
  else (mappedId, priorityText).

(** Lines 1208-1316, in the order of the source. The logging and the
    unused [lines] are left out. *)
Definition parseTicketForJira (ticketContent : jsstring)
  : Completion Fields :=
  let section label :=
    trimmedGroup (exec false (sectionPattern label) ticketContent) [] in
  title ← trimmedGroup (exec false titlePattern ticketContent)
            (js "Bug Report");
  description ← section "Description"%string;
  steps ← section "Steps to Reproduce"%string;
  expected ← section "Expected Behaviour"%string;
  actual ← section "Actual Behaviour"%string;
  impact ← section "Impact"%string;
  let priority :=
    priorityOf (resolvePriorityText (extractPriorityText ticketContent)) in
  environment ← section "Environment"%string;
  Normal {| title := title;
            description := description;
            steps := steps;
            expected := expected;
            actual := actual;
            impact := impact;
            priorityId := fst priority;
            priorityName := snd priority;
            environment := environment |}.




(** A ticket in the format the generation prompt asks for (lines
    1906-1965): each section followed by a blank line and a separator of
    box characters. *)
Definition separator : jsstring := repeat heavyLine 52.
Definition blankLine : jsstring := [newline; newline].

Definition sampleTicket : jsstring :=
  js "**Title:** Login button broken on mobile" ++ blankLine
    ++ separator ++ blankLine
  ++ js "**Description:** " ++ [newline]
    ++ js "The login button does not respond on mobile." ++ blankLine
    ++ separator ++ blankLine
  ++ js "**Steps to Reproduce:**" ++ [newline]
    ++ js "1. Open the app" ++ [newline] ++ js "2. Tap Login" ++ blankLine
    ++ separator ++ blankLine
  ++ js "**Expected Behaviour:** " ++ [newline]
    ++ js "The form is submitted." ++ blankLine
    ++ separator ++ blankLine
  ++ js "**Actual Behaviour:** " ++ [newline]
    ++ js "Nothing happens." ++ blankLine
    ++ separator ++ blankLine
  ++ js "**Impact:** " ++ [newline]
    ++ js "High - users cannot log in." ++ blankLine
    ++ separator ++ blankLine
  ++ js "**Priority:** P2" ++ blankLine
    ++ separator ++ blankLine
  ++ js "**Environment:**" ++ [newline]
    ++ js "Instance: staging" ++ [newline] ++ js "Branch: main" ++ [newline]
    ++ [newline] ++ separator ++ blankLine
  ++ js "**Attachment:** No attachments provided" ++ blankLine.

(** What the parser makes of it. *)
Definition sampleFields : Fields :=
  {| title := js "Login button broken on mobile";
     description := js "The login button does not respond on mobile.";
     steps := js "1. Open the app" ++ [newline] ++ js "2. Tap Login";
     expected := js "The form is submitted.";
     actual := js "Nothing happens.";
     impact := js "High - users cannot log in.";
     priorityId := js "2";
     priorityName := js "P2";
     environment :=
       js "Instance: staging" ++ [newline] ++ js "Branch: main" |}.

End FormattedTicket.

(** *** The shape of a well-formed ticket *)

Module TicketFormat.
Import RegExp RegExpDerived FormattedTicket.

(** The six sections whose body follows the label on the next lines. *)
Inductive BlockSection :=
| Description | StepsToReproduce | ExpectedBehaviour | ActualBehaviour
| Impact | Environment.


Definition sectionField (sec : BlockSection) (f : Fields) : jsstring :=
  match sec with
  | Description => description f
  | StepsToReproduce => steps f
  | ExpectedBehaviour => expected f
  | ActualBehaviour => actual f
  | Impact => impact f
  | Environment => environment f
  end.






Definition priorityCodes : list jsstring :=
  [js "P1"; js "P2"; js "P3"; js "P4"].
End TicketFormat.

(* ===================================================================== *)
(** ** api/push-to-jira.js *)
(* ===================================================================== *)

Module PushToJira.

Definition RATE_LIMIT_WINDOW : Z := 60000.
Definition MAX_REQUESTS_PER_WINDOW : Z := 10.

(** Lines 32-44. *)
Definition limit {K} `{Countable K} :=
  serverlessLimit (K:=K) RATE_LIMIT_WINDOW MAX_REQUESTS_PER_WINDOW.

(** The request body, as the client builds it
    (FormattedTicket.jsx 1353-1366, 1426-1430): every leaf is a string,
    or absent; an element of the list of attachments is an object or
    [null]. *)
Record TicketFields := {
  f_title : option jsstring;
  f_description : option jsstring;
  f_steps : option jsstring;
  f_expected : option jsstring;
  f_actual : option jsstring;
  f_impact : option jsstring;
  f_environment : option jsstring;
  f_priorityId : option jsstring;
  f_priorityName : option jsstring
}.

Record CustomFields := {
  instance : option jsstring;
  productLine : option jsstring;
  component : option jsstring;
  foundVersion : option jsstring;
  engineeringTeam : option jsstring
}.

Record Attachment := {
  filename : option jsstring;
  contentType : option jsstring;
  data : option jsstring
}.

Record Body := {
  jiraUrl : option jsstring;
  email : option jsstring;
  apiToken : option jsstring;
  projectKey : option jsstring;
  fields : option TicketFields;
  customFields : option CustomFields;
  attachments : option (list (option Attachment))
}.

(** The request: the headers the handler reads, the method and the
    body. *)
Record Request := {
  x_forwarded_for : option jsstring;
  x_real_ip : option jsstring;
  origin : option jsstring;
  referer : option jsstring;
  method : jsstring;
  body : option Body
}.

(** The issue-creation payload, [jiraPayload.fields]. *)
Record Priority := { id : jsstring; name : jsstring }.

Record EngineeringTeam := { team_id : option JSON; team_value : jsstring }.

Record JiraPayload := {
  project_key : jsstring;
  summary : option jsstring;
  description : jsstring;
  issuetype_name : jsstring;
  priority : Priority;
  customfield_11888 : option jsstring;       (* { value } *)
  customfield_11924 : option jsstring;       (* { value } *)
  components : option (list jsstring);       (* [{ name }] *)
  customfield_11744 : option jsstring;       (* { name } *)
  customfield_11737 : option EngineeringTeam (* { id, value } or { value } *)
}.

(** The lines written to the console that the properties speak of. *)
Inductive LogLine :=
| MetadataWarning           (* 'Warning: Could not fetch Engineering Team field metadata:' *)
| TeamIdAndValue            (* '✓ Setting Engineering Team (id + value format):' *)
| TeamValueOnly             (* '⚠ Setting Engineering Team (value only, ID not found):' *)
| TeamEmptyAfterTrim        (* '✗ ERROR: Engineering Team is empty string after trim!' *)
| TeamMissing               (* '✗ ERROR: Engineering Team is missing from customFields!' *)
| AttachmentUploaded (i : nat)      (* '✅ Attachment i/n uploaded' *)
| AttachmentFailed (i : nat)        (* '⚠️ Failed to upload attachment i:' *)
| AttachmentError (i : nat)         (* '⚠️ Error uploading file i' *)
| AllAttachmentsProcessed           (* '✅ All attachments processed' *)
| AttachmentsError.                 (* '⚠️ Error processing attachments:' *)

(** What the handler does to the outside, in order. *)
Inductive Event :=
| FetchMetadata (url : jsstring)
| CreateIssue (url : jsstring) (payload : JiraPayload)
| UploadAttachment (issueKey : option JSON) (i : nat)
    (attachment : Attachment)
| Log (line : LogLine).

(** What the outside is and answers: the environment variable read when
    the module is loaded, the platform's URL parser, the answers to the
    three kinds of upstream calls, each to what is sent (the address of
    the metadata; the address and the payload of the issue; the key of
    the issue, the index and the attachment of an upload), and whether
    the dynamic import of [form-data] succeeds. *)
Record World := {
  env_ALLOWED_ORIGINS : option jsstring;
  newURL : jsstring -> option URL;
  metadataFetch : jsstring -> FetchResult;
  createFetch : jsstring -> JiraPayload -> FetchResult;
  importFormData : bool;
  uploadFetch : option JSON -> nat -> Attachment -> FetchResult
}.

(** Lines 2-4. *)
Definition ALLOWED_ORIGINS (w : World) : list jsstring :=
  Cors.allowedOrigins (env_ALLOWED_ORIGINS w) Cors.vercelDefaults.

(** The answer to the caller. *)
Inductive ResBody :=
| NoBody
| ErrorBody (error : jsstring)                  (* { error } *)
| ThrownBody (message : option jsstring)        (* { error: error.message || 'Internal server error' } *)
| CreatedBody (issue : JSON) (browseBase : jsstring). (* { key, id, self, url } *)

Inductive Answer :=
| Respond (status : Z) (body : ResBody)
(** Lines 234-265: Jira refused the issue and the body of its answer
    was read; the handler answers with an error made from that answer,
    under its status or, when the extraction of the message throws, 500
    from the [catch]. Not modelled further. *)
| RespondJiraError (upstream : HttpResponse)
(** The handler throws outside its [try]: the promise it returns is
    rejected and the handler has answered nothing. *)
| Uncaught.

(** [jiraUrl.replace(/\/$/, '')] *)
Definition removeTrailingSlash (s : jsstring) : jsstring :=
  match rev s with
  | 47%N :: r => rev r
  | _ => s
  end.

(** [`${v}`] *)
Definition interpolate (v : option jsstring) : jsstring :=
  match v with Some s => s | None => js "undefined" end.

Definition createmetaUrl (cleanJiraUrl projectKey : jsstring) : jsstring :=
  cleanJiraUrl ++ js "/rest/api/2/issue/createmeta?projectKeys=" ++ projectKey
    ++ js "&issuetypeNames=Bug&expand=projects.issuetypes.fields".

(** Lines 107-112: the value of [field.allowedValues] when every link of
    the [&&] chain is truthy, [None] otherwise. *)
Definition allowedValuesOf (metadata : JSON) : Completion (option JSON) :=
  projects ← getProp (Some metadata) (js "projects");
  if negb (truthyValue projects) then Normal None else
  project ← getFirst projects;
  if negb (truthyValue project) then Normal None else
  issuetypes ← getProp project (js "issuetypes");
  if negb (truthyValue issuetypes) then Normal None else
  issuetype ← getFirst issuetypes;
  if negb (truthyValue issuetype) then Normal None else
  fields ← getProp issuetype (js "fields");
  if negb (truthyValue fields) then Normal None else
  field ← getProp fields (js "customfield_11737");
  if negb (truthyValue field) then Normal None else
  allowedValues ← getProp field (js "allowedValues");
  if truthyValue allowedValues then Normal allowedValues else Normal None.

(** [opt => opt.value === teamValue || opt.name === teamValue] *)
Definition optionMatches (teamValue : jsstring) (opt : JSON)
  : Completion bool :=
  value ← getProp (Some opt) (js "value");
  if strictEqString value teamValue then Normal true
  else (name ← getProp (Some opt) (js "name");
        Normal (strictEqString name teamValue)).

(** The body of the [try] of [getEngineeringTeamId], after the fetch. *)
Definition lookupTeamId (teamValue : jsstring) (fetched : FetchResult)
  : Completion (option JSON) :=
  match fetched with
  | NetworkError _ => Throws
  | Responded metadataResponse =>
      if ok metadataResponse then
        match json metadataResponse with
        | None => Throws
        | Some metadata =>
            allowed ← allowedValuesOf metadata;
            match allowed with
            | None => Normal None
            | Some allowedValues =>
                matchingOption ←
                  callFind allowedValues (optionMatches teamValue);
                if truthyValue matchingOption then
                  optionId ← getProp matchingOption (js "id");
                  if truthyValue optionId then Normal optionId
                  else Normal None
                else Normal None
            end
        end
      else Normal None
  end.

(** Lines 93-126, a closure over [cleanJiraUrl] and [projectKey]. The
    [catch] logs a warning and falls through to [return null]: the
    result is the identifier or [None] for [null], with what was done. *)
Definition getEngineeringTeamId (w : World)
    (cleanJiraUrl projectKey teamValue : jsstring)
  : option JSON * list Event :=
  let url := createmetaUrl cleanJiraUrl projectKey in
  match lookupTeamId teamValue (metadataFetch w url) with
  | Normal found => (found, [FetchMetadata url])
  | Throws => (None, [FetchMetadata url; Log MetadataWarning])
  end.

(** Lines 129-134. *)
Definition jiraDescription (f : TicketFields) : jsstring :=
  js "*Description:*" ++ [10%N] ++ interpolate (f_description f) ++ [10%N; 10%N]
  ++ js "*Steps to Reproduce:*" ++ [10%N] ++ interpolate (f_steps f) ++ [10%N; 10%N]
  ++ js "*Expected Behaviour:*" ++ [10%N] ++ interpolate (f_expected f) ++ [10%N; 10%N]
  ++ js "*Actual Behaviour:*" ++ [10%N] ++ interpolate (f_actual f) ++ [10%N; 10%N]
  ++ js "*Impact:*" ++ [10%N] ++ interpolate (f_impact f) ++ [10%N; 10%N]
  ++ js "*Environment:*" ++ [10%N] ++ interpolate (f_environment f).

(** [x || dflt] for a string field and a non-empty default. *)
Definition orDefault (x : option jsstring) (dflt : jsstring) : jsstring :=
  match orElse x (Some dflt) with Some s => s | None => dflt end.

(** [c ? x : undefined], for a custom field set only when truthy. *)
Definition whenTruthy (x : option jsstring) : option jsstring :=
  if truthy x then x else None.

(** Lines 195-218: the engineering team, with the lookup. *)
Definition engineeringTeamField (w : World) (cleanJiraUrl projectKey : jsstring)
    (c : CustomFields) : option EngineeringTeam * list Event :=
  if truthy (engineeringTeam c) then
    let engTeamValue := trim (interpolate (engineeringTeam c)) in
    match engTeamValue with
    | _ :: _ =>
        let '(engTeamId, looked) :=
          getEngineeringTeamId w cleanJiraUrl projectKey engTeamValue in
        if truthyValue engTeamId then
          (Some {| team_id := engTeamId; team_value := engTeamValue |},
           looked ++ [Log TeamIdAndValue])
        else
          (Some {| team_id := None; team_value := engTeamValue |},
           looked ++ [Log TeamValueOnly])
    | [] => (None, [Log TeamEmptyAfterTrim])
    end
  else (None, [Log TeamMissing]).

(** Lines 136-219: the payload, and the lookup it needs. *)
Definition buildPayload (w : World) (cleanJiraUrl projectKey : jsstring)
    (f : TicketFields) (custom : option CustomFields)
  : JiraPayload * list Event :=
  let '(team, events) :=
    match custom with
    | Some c => engineeringTeamField w cleanJiraUrl projectKey c
    | None => (None, [])
    end in
  ({| project_key := projectKey;
      summary := f_title f;
      description := jiraDescription f;
      issuetype_name := js "Bug";
      priority := {| id := orDefault (f_priorityId f) (js "3");
                     name := orDefault (f_priorityName f) (js "P3") |};
      customfield_11888 := c ← custom; whenTruthy (instance c);
      customfield_11924 := c ← custom; whenTruthy (productLine c);
      components :=
        c ← custom; ((fun n => [n]) <$> whenTruthy (component c));
      customfield_11744 := c ← custom; whenTruthy (foundVersion c);
      customfield_11737 := team |},
   events).

Definition tooLarge : Answer :=
  Respond 413 (ErrorBody (js
    "One or more files are too large for Jira. Please remove large files and try again.")).

(** Lines 278-321, from index [i] on: the uploads one after the other,
    each a POST to [/rest/api/2/issue/${data.key}/attachments].
    The result is what was done and how the loop ended: it came to its
    end ([Normal None]), an upload was answered 413 and the handler
    returns the answer at once ([Normal (Some answer)]), or an exception
    left the loop ([Throws]). *)
Fixpoint uploadFrom (w : World) (issueKey : option JSON) (i : nat)
    (attachments : list (option Attachment))
  : list Event * Completion (option Answer) :=
  match attachments with
  | [] => ([], Normal None)
  | None :: _ =>
      (* [attachments[i]] is [null]: [attachment.data] throws, and in the
         inner [catch] so does [attachment.filename], before anything is
         logged *)
      ([], Throws)
  | Some attachment :: rest =>
      let continue (done : list Event) :=
        let '(events, outcome) := uploadFrom w issueKey (S i) rest in
        (done ++ events, outcome) in
      match data attachment with
      | None =>
          (* [attachment.data.split] throws; caught by the inner [catch] *)
          continue [Log (AttachmentError (S i))]
      | Some _ =>
          let uploading := UploadAttachment issueKey i attachment in
          match uploadFetch w issueKey i attachment with
          | NetworkError _ => continue [uploading; Log (AttachmentError (S i))]
          | Responded attachmentResponse =>
              if ok attachmentResponse then
                continue [uploading; Log (AttachmentUploaded (S i))]
              else
                match text attachmentResponse with
                | None =>
                    (* [attachmentResponse.text()] rejects; inner [catch] *)
                    continue [uploading; Log (AttachmentError (S i))]
                | Some _ =>
                    if httpStatus attachmentResponse =? 413 then
                      ([uploading; Log (AttachmentFailed (S i))],
                       Normal (Some tooLarge))
                    else
                      continue [uploading; Log (AttachmentFailed (S i))]
                end
          end
      end
  end.

(** Lines 270-328. *)
Definition uploadAttachments (w : World) (issueKey : option JSON)
    (attachments : option (list (option Attachment)))
  : list Event * option Answer :=
  match attachments with
  | Some (a :: rest) =>
      if importFormData w then
        let '(events, outcome) := uploadFrom w issueKey 0 (a :: rest) in
        match outcome with
        | Normal (Some early) => (events, Some early)
        | Normal None => (events ++ [Log AllAttachmentsProcessed], None)
        | Throws =>
            (* caught by the outer [catch] *)
            (events ++ [Log AttachmentsError], None)
        end
      else
        (* the import rejects; caught by the outer [catch] *)
        ([Log AttachmentsError], None)
  | _ => ([], None)
  end.

(** Lines 224-335: the submission, once the payload is built. *)
Definition submit (w : World) (cleanJiraUrl : jsstring)
    (payload : JiraPayload) (attachments : option (list (option Attachment)))
  : Answer * list Event :=
  let url := cleanJiraUrl ++ js "/rest/api/2/issue" in
  let creating := CreateIssue url payload in
  match createFetch w url payload with
  | NetworkError message => (Respond 500 (ThrownBody (Some message)), [creating])
  | Responded response =>
      if negb (ok response) then
        match text response with
        | None => (Respond 500 (ThrownBody None), [creating])
        | Some _ => (RespondJiraError response, [creating])
        end
      else
        match json response with
        | None => (Respond 500 (ThrownBody None), [creating])
        | Some issue =>
            match getProp (Some issue) (js "key") with
            | Throws => (Respond 500 (ThrownBody None), [creating])
            | Normal issueKey =>
                let '(events, early) :=
                  uploadAttachments w issueKey attachments in
                match early with
                | Some answer => (answer, creating :: events)
                | None =>
                    (Respond 200
                       (CreatedBody issue (cleanJiraUrl ++ js "/browse/")),
                     creating :: events)
                end
            end
        end
  end.

(** Lines 67-341, the [try] of the handler. *)
Definition process (w : World) (body : option Body) : Answer * list Event :=
  match body with
  | None => (Respond 500 (ThrownBody None), [])   (* destructuring [undefined] *)
  | Some b =>
      match fields b with
      | Some f =>
          if truthy (jiraUrl b) && truthy (email b) && truthy (apiToken b)
             && truthy (projectKey b)
          then
            let url := interpolate (jiraUrl b) in
            let urlValidation := validateJiraUrl (newURL w) url in
            if negb (valid urlValidation) then
              (Respond 400 (ErrorBody (interpolate (error urlValidation))), [])
            else
              let cleanJiraUrl := removeTrailingSlash url in
              let '(payload, looked) :=
                buildPayload w cleanJiraUrl (interpolate (projectKey b)) f
                  (customFields b) in
              let '(answer, events) :=
                submit w cleanJiraUrl payload (attachments b) in
              (answer, looked ++ events)
          else
            (Respond 400 (ErrorBody (js
               "Missing required fields: jiraUrl, email, apiToken, projectKey, fields")),
             [])
      | None =>
          (Respond 400 (ErrorBody (js
             "Missing required fields: jiraUrl, email, apiToken, projectKey, fields")),
           [])
      end
  end.

(** [req.headers['x-forwarded-for'] || req.headers['x-real-ip'] || 'unknown'] *)
Definition callerKey (req : Request) : jsstring :=
  interpolate
    (orElse (x_forwarded_for req) (orElse (x_real_ip req) (Some (js "unknown")))).

(** Lines 46-52: the value given to [Access-Control-Allow-Origin]. *)
Definition allowOrigin (w : World) (req : Request) : option jsstring :=
  Cors.vercelAllowOrigin (ALLOWED_ORIGINS w) (origin req) (referer req).

(** Lines 27-342. The limiter comes first; then the five headers of
    lines 51-55 are set, outside the [try]: four of them to constants
    that [setHeader] accepts, [Access-Control-Allow-Origin] to a value
    that depends on the request and may be refused, in which case the
    handler throws. The headers of an answer are not part of
    [Answer]. *)
Definition handler (w : World) (rateLimitMap : gmap jsstring Entry)
    (now : Z) (req : Request)
  : gmap jsstring Entry * Answer * list Event :=
  match limit rateLimitMap (callerKey req) now with
  | (rateLimitMap', Reject status error) =>
      (rateLimitMap', Respond status (ErrorBody error), [])
  | (rateLimitMap', Next) =>
      match setHeader (allowOrigin w req) with
      | Throws => (rateLimitMap', Uncaught, [])
      | Normal _ =>
          if bool_decide (method req = js "OPTIONS") then
            (rateLimitMap', Respond 200 NoBody, [])
          else if negb (bool_decide (method req = js "POST")) then
            (rateLimitMap',
             Respond 405 (ErrorBody (js "Method not allowed")), [])
          else
            let '(answer, events) := process w (body req) in
            (rateLimitMap', answer, events)
      end
  end.

(** The fields of the client parser, as they arrive in the request
    body. *)
Definition ofParsed (p : FormattedTicket.Fields) : TicketFields :=
  {| f_title := Some (FormattedTicket.title p);
     f_description := Some (FormattedTicket.description p);
     f_steps := Some (FormattedTicket.steps p);
     f_expected := Some (FormattedTicket.expected p);
     f_actual := Some (FormattedTicket.actual p);
     f_impact := Some (FormattedTicket.impact p);
     f_environment := Some (FormattedTicket.environment p);
     f_priorityId := Some (FormattedTicket.priorityId p);
     f_priorityName := Some (FormattedTicket.priorityName p) |}.

End PushToJira.

(** *** Vocabulary for the properties of the push proxy *)

Module PushSpec.
Import PushToJira.

(** The header [Access-Control-Allow-Origin] can be set (line 52). *)
Definition setsAllowOrigin (w : World) (req : Request) : Prop :=
  setHeader (allowOrigin w req) <> Throws.

(** The request gets past the rate limiter, the headers of lines 46-55,
    the method check and the validation of lines 70-81, with body [b]
    and ticket fields [f]. *)
Definition accepts (w : World) (rateLimitMap : gmap jsstring Entry)
    (now : Z) (req : Request) (b : Body) (f : TicketFields) : Prop :=
  snd (limit rateLimitMap (callerKey req) now) = Next
  /\ setsAllowOrigin w req
  /\ method req = js "POST"
  /\ body req = Some b /\ fields b = Some f
  /\ truthy (jiraUrl b) = true /\ truthy (email b) = true
  /\ truthy (apiToken b) = true /\ truthy (projectKey b) = true
  /\ valid (validateJiraUrl (newURL w) (interpolate (jiraUrl b))) = true.

(** The metadata lookup at [url] fails: the call is rejected, answered
    with a status outside 2xx, or its body is not JSON. *)
Definition lookupFails (w : World) (url : jsstring) : Prop :=
  match metadataFetch w url with
  | NetworkError _ => True
  | Responded r => ok r = false \/ json r = None
  end.

(** The metadata at [url] lists no option whose value or name is the
    team. *)
Definition noMatchingOption (w : World) (url team : jsstring) : Prop :=
  forall r metadata options,
    metadataFetch w url = Responded r -> json r = Some metadata ->
    allowedValuesOf metadata = Normal (Some (JArray options)) ->
    forall opt, opt ∈ options -> optionMatches team opt <> Normal true.

(** The same world with another answer to the metadata call. *)
Definition withMetadata (fetched : FetchResult) (w : World) : World :=
  {| env_ALLOWED_ORIGINS := env_ALLOWED_ORIGINS w;
     newURL := newURL w; metadataFetch := fun _ => fetched;
     createFetch := createFetch w; importFormData := importFormData w;
     uploadFetch := uploadFetch w |}.






Definition isCreate (e : Event) : bool :=
  match e with CreateIssue _ _ => true | _ => false end.

(** No issue is created among these events. *)
Definition noCreate (events : list Event) : Prop :=
  Forall (fun e => isCreate e = false) events.
End PushSpec.

(** *** A sample submission *)

Module PushSample.
Import PushToJira.

Definition created : HttpResponse :=
  {| httpStatus := 201; text := None;
     json := Some (JObject [(js "key", JString (js "BUG-1"));
                            (js "id", JString (js "10001"))]) |}.

Definition tooLargeResponse : HttpResponse :=
  {| httpStatus := 413; text := Some (js "Request Entity Too Large");
     json := None |}.

Definition accepted : HttpResponse :=
  {| httpStatus := 200; text := Some (js "[]"); json := Some (JArray []) |}.

(** The metadata call is refused by the network, the issue is created,
    the first upload fails on the network, the second succeeds, the
    third is too large. *)
Definition world : World :=
  {| env_ALLOWED_ORIGINS := None;
     newURL := sampleURL;
     metadataFetch := fun _ => NetworkError (js "fetch failed");
     createFetch := fun _ _ => Responded created;
     importFormData := true;
     uploadFetch := fun _ i _ =>
       match i with
       | O => NetworkError (js "socket hang up")
       | S O => Responded accepted
       | _ => Responded tooLargeResponse
       end |}.


Definition file (fileName : string) : Attachment :=
  {| filename := Some (js fileName);
     contentType := Some (js "image/png");
     data := Some (js "data:image/png;base64,AAAA") |}.

Definition requestBody : Body :=
  {| jiraUrl := Some (js "https://anything.atlassian.net");
     email := Some (js "qa@example.com");
     apiToken := Some (js "token");
     projectKey := Some (js "BUG");
     fields := Some (ofParsed FormattedTicket.sampleFields);
     customFields := Some
       {| instance := Some (js "Staging");
          productLine := Some (js "Core");
          component := Some (js "Login");
          foundVersion := Some (js "1.2.3");
          engineeringTeam := Some (js " Platform ") |};
     attachments := Some [Some (file "a.png"); Some (file "b.png");
                          Some (file "c.png"); Some (file "d.png")] |}.

Definition request : Request :=
  {| x_forwarded_for := Some (js "203.0.113.7");
     x_real_ip := None;
     origin := Some (js "https://tickets.example.com");
     referer := Some (js "https://tickets.example.com/");
     method := js "POST";
     body := Some requestBody |}.

Definition cleanUrl : jsstring := js "https://anything.atlassian.net".
End PushSample.

(** *** The events of a submission, and a sample with team metadata *)

Module PushEvents.
Import PushToJira.

(** The event is a log line. *)
Definition isLog (e : Event) : Prop :=
  match e with
  | Log _ => True
  | _ => False
  end.

(** Log lines only, or the metadata request to [url] followed by log
    lines only. *)
Definition lookupFirst (url : jsstring) (events : list Event) : Prop :=
  Forall isLog events \/
  exists logged, events = FetchMetadata url :: logged /\ Forall isLog logged.

(** The event is the upload of an attachment, or a log line. *)
Definition uploadOrLog (e : Event) : Prop :=
  match e with
  | UploadAttachment _ _ _ | Log _ => True
  | _ => False
  end.

(** The answer of lines 32-44 to a caller over its limit. *)
Definition tooManyAnswer : Answer :=
  Respond 429 (ErrorBody (js "Too many requests. Please try again in a minute.")).
End PushEvents.

Module PushSampleTeams.
Import PushToJira.

Definition teamOption (idv value : string) : JSON :=
  JObject [(js "self", JString (js "https://anything.atlassian.net/rest/api/2/customFieldOption/1"));
           (js "value", JString (js value));
           (js "id", JString (js idv))].

(** An answer of [createmeta] of the shape lines 107-112 walk through,
    with three teams; the second and the third have the same value. *)
Definition metadata : JSON :=
  JObject [(js "expand", JString (js "projects"));
           (js "projects", JArray [JObject
             [(js "key", JString (js "BUG"));
              (js "issuetypes", JArray [JObject
                [(js "name", JString (js "Bug"));
                 (js "fields", JObject
                   [(js "summary", JObject [(js "required", JBool true)]);
                    (js "customfield_11737", JObject
                      [(js "name", JString (js "Engineering Team"));
                       (js "allowedValues", JArray
                         [teamOption "20001" "Billing";
                          teamOption "20002" "Platform";
                          teamOption "20003" "Platform"])])])]])]])].

Definition world : World :=
  PushSpec.withMetadata
    (Responded {| httpStatus := 200; text := None; json := Some metadata |})
    PushSample.world.

(** A request that names neither its origin nor a referrer. *)
Definition anonymousRequest : Request :=
  {| x_forwarded_for := Some (js "203.0.113.7");
     x_real_ip := None;
     origin := None;
     referer := None;
     method := js "POST";
     body := Some PushSample.requestBody |}.

(** The sample submission without attachments. *)
Definition plainRequest : Request :=
  {| x_forwarded_for := Some (js "203.0.113.7");
     x_real_ip := None;
     origin := Some (js "https://tickets.example.com");
     referer := None;
     method := js "POST";
     body := Some
       {| jiraUrl := jiraUrl PushSample.requestBody;
          email := email PushSample.requestBody;
          apiToken := apiToken PushSample.requestBody;
          projectKey := projectKey PushSample.requestBody;
          fields := fields PushSample.requestBody;
          customFields := customFields PushSample.requestBody;
          attachments := None |} |}.
End PushSampleTeams.

(* ===================================================================== *)
(** ** netlify/functions/generate-ticket.cjs and server.js *)
(* ===================================================================== *)

(** What becomes of a backend when it is started: the process exits, or an
    instance is there to handle requests. *)
Inductive Boot (Instance : Type) :=
| Exited (code : Z)
| Running (instance : Instance).
Arguments Exited {Instance} code.
Arguments Running {Instance} instance.

Module GenerateTicket.

Definition RATE_LIMIT_WINDOW : Z := 60000.
Definition MAX_REQUESTS_PER_WINDOW : Z := 15.

(** Lines 17-36. *)
Definition limit {K} `{Countable K} :=
  serverlessLimit (K:=K) RATE_LIMIT_WINDOW MAX_REQUESTS_PER_WINDOW.

(** The module-level constants read from the environment (lines 2-5). *)
Record Instance := { ANTHROPIC_API_KEY : option jsstring }.

(** Loading the module: it reads the environment and defines the handler;
    nothing in it ends the process. *)
Definition load (env_ANTHROPIC_API_KEY : option jsstring) : Boot Instance :=
  Running {| ANTHROPIC_API_KEY := env_ANTHROPIC_API_KEY |}.

Record Request := {
  client_ip : option jsstring;
  x_forwarded_for : option jsstring;
  httpMethod : jsstring;
  (** [JSON.parse(event.body)]; [None]: it throws. *)
  parsedBody : option JSON
}.

Inductive Event :=
| CallAnthropic (apiKey : jsstring) (messages : JSON).

Inductive ResBody :=
| EmptyBody
| ErrorBody (error : jsstring)
| ThrownBody (message : option jsstring)
| UpstreamError (error : JSON)               (* { error }, lines 107-117 *)
| Generated (data : JSON).

Record Answer := { statusCode : Z; body : ResBody }.

Definition callerKey (event : Request) : jsstring :=
  match orElse (client_ip event)
          (orElse (x_forwarded_for event) (Some (js "unknown"))) with
  | Some ip => ip
  | None => js "unknown"
  end.

Definition isArray (v : option JSON) : bool :=
  match v with Some (JArray _) => true | _ => false end.

(** Line 114: [errorData.error?.message || 'Failed to generate ticket'].
    Reading [error] of [null] throws; [?.] answers [undefined] for an
    [error] that is [null] or [undefined]. *)
Definition upstreamMessage (errorData : JSON) : Completion JSON :=
  error ← getProp (Some errorData) (js "error");
  message ← match error with
            | None | Some JNull => Normal None
            | Some _ => getProp error (js "message")
            end;
  Normal (match message with
          | Some m =>
              if truthyValue message then m
              else JString (js "Failed to generate ticket")
          | None => JString (js "Failed to generate ticket")
          end).

(** Lines 78-136, the [try]. *)
Definition generate (apiKey : jsstring) (anthropicFetch : FetchResult)
    (event : Request) : Answer * list Event :=
  match parsedBody event with
  | None => ({| statusCode := 500; body := ThrownBody None |}, [])
  | Some parsed =>
      match getProp (Some parsed) (js "messages") with
      | Throws => ({| statusCode := 500; body := ThrownBody None |}, [])
      | Normal messages =>
          match messages with
          | Some (JArray elements) =>
              let calling := CallAnthropic apiKey (JArray elements) in
              match anthropicFetch with
              | NetworkError message =>
                  ({| statusCode := 500; body := ThrownBody (Some message) |},
                   [calling])
              | Responded response =>
                  match json response with
                  | None =>
                      ({| statusCode := 500; body := ThrownBody None |},
                       [calling])
                  | Some data =>
                      if ok response then
                        ({| statusCode := 200; body := Generated data |},
                         [calling])
                      else
                        match upstreamMessage data with
                        | Throws =>
                            ({| statusCode := 500; body := ThrownBody None |},
                             [calling])
                        | Normal error =>
                            ({| statusCode := httpStatus response;
                                body := UpstreamError error |}, [calling])
                        end
                  end
              end
          | _ =>
              ({| statusCode := 400;
                  body := ErrorBody
                    (js "Invalid request: messages array is required") |},
               [])
          end
      end
  end.

(** Lines 12-139. The response headers are not part of the model. *)
Definition handler (inst : Instance) (anthropicFetch : FetchResult)
    (rateLimitMap : gmap jsstring Entry) (now : Z) (event : Request)
  : gmap jsstring Entry * Answer * list Event :=
  match limit rateLimitMap (callerKey event) now with
  | (rateLimitMap', Reject status error) =>
      (rateLimitMap', {| statusCode := status; body := ErrorBody error |}, [])
  | (rateLimitMap', Next) =>
      match ANTHROPIC_API_KEY inst with
      | Some (ch :: key) =>
          if bool_decide (httpMethod event = js "OPTIONS") then
            (rateLimitMap', {| statusCode := 200; body := EmptyBody |}, [])
          else if negb (bool_decide (httpMethod event = js "POST")) then
            (rateLimitMap',
             {| statusCode := 405; body := ErrorBody (js "Method not allowed") |},
             [])
          else
            let '(answer, events) := generate (ch :: key) anthropicFetch event in
            (rateLimitMap', answer, events)
      | _ =>
          (rateLimitMap',
           {| statusCode := 500;
              body := ErrorBody
                (js "Server configuration error: API key not set") |},
           [])
      end
  end.

End GenerateTicket.

(** The Vercel function for the same proxy (the file starting "Vercel
    Serverless Function for API proxy", src/unnamed/part_002). It has no
    rate limiter. *)
Module VercelGenerateTicket.

(** Line 3: [process.env.ANTHROPIC_API_KEY
    ? process.env.ANTHROPIC_API_KEY.trim().replace(/\s+/g, '') : null] *)
Definition cleanKey (env_ANTHROPIC_API_KEY : option jsstring)
  : option jsstring :=
  if truthy env_ANTHROPIC_API_KEY then
    (fun key => filter (fun ch => RegExp.isWhiteSpace ch = false) (trim key))
      <$> env_ANTHROPIC_API_KEY
  else None.

Record Instance := { ANTHROPIC_API_KEY : option jsstring }.

Definition load (env_ANTHROPIC_API_KEY : option jsstring) : Boot Instance :=
  Running {| ANTHROPIC_API_KEY := cleanKey env_ANTHROPIC_API_KEY |}.

(** Lines 10-15. *)
Definition keyNotSet : GenerateTicket.Answer :=
  {| GenerateTicket.statusCode := 500;
     GenerateTicket.body := GenerateTicket.ErrorBody (js
       "Server configuration error: API key not set. Please configure ANTHROPIC_API_KEY in Vercel environment variables.") |}.

(** The handler: the guard on the key comes first; the [try] that
    follows the method checks is that of the Netlify function, on a body
    the platform has parsed already. *)
Definition handler (inst : Instance) (anthropicFetch : FetchResult)
    (event : GenerateTicket.Request)
  : GenerateTicket.Answer * list GenerateTicket.Event :=
  match ANTHROPIC_API_KEY inst with
  | Some (ch :: key) =>
      if bool_decide (GenerateTicket.httpMethod event = js "OPTIONS") then
        ({| GenerateTicket.statusCode := 200;
            GenerateTicket.body := GenerateTicket.EmptyBody |}, [])
      else if negb (bool_decide (GenerateTicket.httpMethod event = js "POST"))
      then
        ({| GenerateTicket.statusCode := 405;
            GenerateTicket.body :=
              GenerateTicket.ErrorBody (js "Method not allowed") |}, [])
      else GenerateTicket.generate (ch :: key) anthropicFetch event
  | _ => (keyNotSet, [])
  end.

End VercelGenerateTicket.

Module Server.

Definition RATE_LIMIT_WINDOW : Z := 60000.
Definition MAX_REQUESTS_PER_WINDOW : Z := 20.

(** Lines 78-107. *)
Definition rateLimit {K} `{Countable K} :=
  expressLimit (K:=K) RATE_LIMIT_WINDOW MAX_REQUESTS_PER_WINDOW.

(** Lines 144-151. *)
Definition cleanup {K} `{Countable K} := expressCleanup (K:=K).

(** What the routes close over. *)
Record Instance := { ANTHROPIC_API_KEY : jsstring }.

(** Lines 14-20 and 581: the script reads the key and, when it is not
    set (or empty), logs a fatal error and calls [process.exit(1)]; only
    otherwise does it reach [app.listen]. *)
Definition start (env_ANTHROPIC_API_KEY : option jsstring) : Boot Instance :=
  match env_ANTHROPIC_API_KEY with
  | Some (ch :: key) => Running {| ANTHROPIC_API_KEY := ch :: key |}
  | _ => Exited 1
  end.

End Server.

(** The backends that hold the LLM API key. *)
Inductive Backend :=
| LocalServerBackend | GenerationFunction | VercelGenerationFunction.

(** Whether starting the backend in an environment with this key leaves
    an instance that handles requests. *)
Definition servesRequests (backend : Backend)
    (env_ANTHROPIC_API_KEY : option jsstring) : bool :=
  match backend with
  | LocalServerBackend =>
      match Server.start env_ANTHROPIC_API_KEY with
      | Running _ => true
      | Exited _ => false
      end
  | GenerationFunction =>
      match GenerateTicket.load env_ANTHROPIC_API_KEY with
      | Running _ => true
      | Exited _ => false
      end
  | VercelGenerationFunction =>
      match VercelGenerateTicket.load env_ANTHROPIC_API_KEY with
      | Running _ => true
      | Exited _ => false
      end
  end.

(** *** Vocabulary for the generation proxies *)

Module GenerateSpec.
Import GenerateTicket.

(** The request is a POST whose parsed body is an object (or any value
    other than [null]) with an array under [messages]. *)
Definition postsMessages (event : Request) (messages : list JSON) : Prop :=
  httpMethod event = js "POST" /\
  exists parsed,
    parsedBody event = Some parsed /\
    getProp (Some parsed) (js "messages") = Normal (Some (JArray messages)).

(** A sample request, and an answer of the upstream API. *)
Definition sampleEvent : Request :=
  {| client_ip := Some (js "203.0.113.7");
     x_forwarded_for := None;
     httpMethod := js "POST";
     parsedBody := Some (JObject
       [(js "messages", JArray
           [JObject [(js "role", JString (js "user"));
                     (js "content", JString (js "The login button is broken"))]])]) |}.

Definition sampleFetch : FetchResult :=
  Responded {| httpStatus := 200; text := None;
               json := Some (JObject [(js "id", JString (js "msg_1"))]) |}.

(** A refusal of the upstream API whose body is the JSON [null]. *)
Definition overloaded : FetchResult :=
  Responded {| httpStatus := 503; text := Some (js "null");
               json := Some JNull |}.
End GenerateSpec.

(* ===================================================================== *)
(** ** api/test-jira.js *)
(* ===================================================================== *)

Module TestJira.

Definition RATE_LIMIT_WINDOW : Z := 60000.
Definition MAX_REQUESTS_PER_WINDOW : Z := 10.

(** Lines 32-44. *)
Definition limit {K} `{Countable K} :=
  serverlessLimit (K:=K) RATE_LIMIT_WINDOW MAX_REQUESTS_PER_WINDOW.

(** The request body, as the client builds it
    (FormattedTicket.jsx 1018-1028): three strings, or absent. *)
Record Body := {
  jiraUrl : option jsstring;
  email : option jsstring;
  apiToken : option jsstring
}.

Record Request := {
  x_forwarded_for : option jsstring;
  x_real_ip : option jsstring;
  origin : option jsstring;
  referer : option jsstring;
  method : jsstring;
  body : option Body
}.

(** The one call the handler makes: a GET of [url] with the Basic
    authorisation made of [`${email}:${apiToken}`]. *)
Inductive Event :=
| FetchMyself (url : jsstring) (email apiToken : jsstring).

(** The environment variable read when the module is loaded, the
    platform's URL parser, and the answer of Jira to the call. *)
Record World := {
  env_ALLOWED_ORIGINS : option jsstring;
  newURL : jsstring -> option URL;
  myselfFetch : jsstring -> jsstring -> jsstring -> FetchResult
}.

(** Lines 2-4. *)
Definition ALLOWED_ORIGINS (w : World) : list jsstring :=
  Cors.allowedOrigins (env_ALLOWED_ORIGINS w) Cors.vercelDefaults.

Inductive ResBody :=
| NoBody
| ErrorBody (error : jsstring)                  (* { error } *)
| ThrownBody (message : option jsstring)        (* { error: error.message || 'Internal server error' } *)
| Connected (displayName emailAddress accountId : option JSON).
                                                (* { success: true, ... } *)

Inductive Answer :=
| Respond (status : Z) (resBody : ResBody)
(** The handler throws outside its [try]: the promise it returns is
    rejected and the handler has answered nothing. *)
| Uncaught.

(** Lines 103-109, the message for a status Jira refused with. *)
Definition connectionError (upstreamStatus : Z) : jsstring :=
  if upstreamStatus =? 401 then
    js "Authentication failed. Please check your email and API token."
  else if upstreamStatus =? 403 then
    js "Access denied. Your account may not have permission."
  else if upstreamStatus =? 404 then
    js "Jira instance not found. Please check your URL."
  else js "Connection test failed".

(** Lines 113-121: what is read from the parsed answer of Jira. *)
Definition connectedBody (data : JSON) : Completion ResBody :=
  displayName ← getProp (Some data) (js "displayName");
  emailAddress ← getProp (Some data) (js "emailAddress");
  accountId ← getProp (Some data) (js "accountId");
  Normal (Connected displayName emailAddress accountId).

(** Lines 67-127, the [try] of the handler; the same text is the route
    [/api/test-jira] of server.js (218-283) and the [try] of the Netlify
    function (netlify/functions/generate-ticket.cjs 220-300). *)
Definition testConnection (w : World) (body : option Body)
  : Answer * list Event :=
  match body with
  | None => (Respond 500 (ThrownBody None), [])
  | Some b =>
      if negb (truthy (jiraUrl b)) || negb (truthy (email b))
         || negb (truthy (apiToken b))
      then
        (Respond 400
           (ErrorBody (js "Missing required fields: jiraUrl, email, apiToken")),
         [])
      else
        let url := PushToJira.interpolate (jiraUrl b) in
        let urlValidation := validateJiraUrl (newURL w) url in
        if negb (valid urlValidation) then
          (Respond 400
             (ErrorBody (PushToJira.interpolate (error urlValidation))),
           [])
        else
          let cleanJiraUrl := PushToJira.removeTrailingSlash url in
          let myself := cleanJiraUrl ++ js "/rest/api/3/myself" in
          let user := PushToJira.interpolate (email b) in
          let token := PushToJira.interpolate (apiToken b) in
          let calling := FetchMyself myself user token in
          match myselfFetch w myself user token with
          | NetworkError message =>
              (Respond 500 (ThrownBody (Some message)), [calling])
          | Responded response =>
              if negb (ok response) then
                match text response with
                | None => (Respond 500 (ThrownBody None), [calling])
                | Some _ =>
                    (Respond (httpStatus response)
                       (ErrorBody (connectionError (httpStatus response))),
                     [calling])
                end
              else
                match json response with
                | None => (Respond 500 (ThrownBody None), [calling])
                | Some data =>
                    match connectedBody data with
                    | Throws => (Respond 500 (ThrownBody None), [calling])
                    | Normal connected => (Respond 200 connected, [calling])
                    end
                end
          end
  end.

(** Line 29. *)
Definition callerKey (req : Request) : jsstring :=
  PushToJira.interpolate
    (orElse (x_forwarded_for req)
       (orElse (x_real_ip req) (Some (js "unknown")))).

(** Lines 46-52: the value given to [Access-Control-Allow-Origin]. *)
Definition allowOrigin (w : World) (req : Request) : option jsstring :=
  Cors.vercelAllowOrigin (ALLOWED_ORIGINS w) (origin req) (referer req).

(** Lines 27-128. As in api/push-to-jira.js, the headers of lines 51-55
    are set after the limiter and outside the [try]; the handler throws
    when [setHeader] refuses the value of
    [Access-Control-Allow-Origin]. *)
Definition handler (w : World) (rateLimitMap : gmap jsstring Entry)
    (now : Z) (req : Request)
  : gmap jsstring Entry * Answer * list Event :=
  match limit rateLimitMap (callerKey req) now with
  | (rateLimitMap', Reject code error) =>
      (rateLimitMap', Respond code (ErrorBody error), [])
  | (rateLimitMap', Next) =>
      match setHeader (allowOrigin w req) with
      | Throws => (rateLimitMap', Uncaught, [])
      | Normal _ =>
          if bool_decide (method req = js "OPTIONS") then
            (rateLimitMap', Respond 200 NoBody, [])
          else if negb (bool_decide (method req = js "POST")) then
            (rateLimitMap',
             Respond 405 (ErrorBody (js "Method not allowed")), [])
          else
            let '(answer, events) := testConnection w (body req) in
            (rateLimitMap', answer, events)
      end
  end.

(** The request gets past the limiter, the headers of lines 46-55, the
    method check and the validation of lines 70-81, with body [b]. *)
Definition accepts (w : World) (rateLimitMap : gmap jsstring Entry)
    (now : Z) (req : Request) (b : Body) : Prop :=
  snd (limit rateLimitMap (callerKey req) now) = Next
  /\ setHeader (allowOrigin w req) <> Throws
  /\ method req = js "POST"
  /\ body req = Some b
  /\ truthy (jiraUrl b) = true /\ truthy (email b) = true
  /\ truthy (apiToken b) = true
  /\ valid (validateJiraUrl (newURL w) (PushToJira.interpolate (jiraUrl b)))
     = true.

(** A sample: the credentials are refused by Jira. *)
Definition sampleWorld : World :=
  {| env_ALLOWED_ORIGINS := None;
     newURL := sampleURL;
     myselfFetch := fun _ _ _ => Responded
       {| httpStatus := 401;
          text := Some (js "Client must be authenticated to access this resource.");
          json := None |} |}.

Definition sampleRequest : Request :=
  {| x_forwarded_for := Some (js "203.0.113.7");
     x_real_ip := None;
     origin := Some (js "https://tickets.example.com");
     referer := None;
     method := js "POST";
     body := Some {| jiraUrl := Some (js "https://anything.atlassian.net");
                     email := Some (js "qa@example.com");
                     apiToken := Some (js "wrong") |} |}.
End TestJira.

(* ===================================================================== *)
(** ** More of [String.prototype]: [toLowerCase], [replace], [match] *)
(* ===================================================================== *)

(** [String.prototype.toLowerCase], on the ASCII range. It is applied to
    the host name and the address of [window.location], which the URL
    Standard serialises in ASCII. *)
Definition toLowerCase (s : jsstring) : jsstring := map RegExp.lowerASCII s.

Module StringReplace.
Import RegExp.

Definition dollar : N := 36.

(** GetSubstitution (ECMA-262 22.1.3.19.1) for a search value that is a
    string: there are no captures, so of the [$] forms only [$$], [$&],
    [$`] and [$'] stand for something; every other code unit of the
    template is copied. *)
Fixpoint getSubstitution (matched before after template : jsstring)
  : jsstring :=
  match template with
  | [] => []
  | ch :: rest =>
      if (ch =? dollar)%N then
        match rest with
        | ch' :: rest' =>
            if (ch' =? dollar)%N then
              dollar :: getSubstitution matched before after rest'
            else if (ch' =? 38)%N then        (* $& *)
              matched ++ getSubstitution matched before after rest'
            else if (ch' =? 96)%N then        (* $` *)
              before ++ getSubstitution matched before after rest'
            else if (ch' =? 39)%N then        (* $' *)
              after ++ getSubstitution matched before after rest'
            else ch :: getSubstitution matched before after rest
        | [] => [ch]
        end
      else ch :: getSubstitution matched before after rest
  end.

(** [s.replace(searchValue, replaceValue)] for two strings: the first
    occurrence of the search value, if any, is replaced. *)
Definition replace (s searchValue replaceValue : jsstring) : jsstring :=
  match indexOf s searchValue with
  | Some position =>
      let preceding := take position s in
      let following := drop (position + length searchValue) s in
      preceding
        ++ getSubstitution searchValue preceding following replaceValue
        ++ following
  | None => s
  end.

(** What a pattern with the [g] flag makes of a string
    (RegExp.prototype[Symbol.replace] and [Symbol.match], 22.2.6.11 and
    22.2.6.8): the matches, found from the left, each search starting
    where the last match ended (one code unit further on after an empty
    match), and the code units between them. *)
Inductive Piece :=
| Kept (ch : N)
| Matched (m : Match).

Fixpoint pieces (fuel : nat) (i : bool) (r : regex) (bef aft : jsstring)
  : list Piece :=
  match fuel with
  | O => []
  | S fuel' =>
      let moveOn :=
        match aft with
        | ch :: rest => Kept ch :: pieces fuel' i r (ch :: bef) rest
        | [] => []
        end in
      match matchAt i r bef aft with
      | Some m =>
          let n := length (matched m) in
          if (n =? 0)%nat then Matched m :: moveOn
          else Matched m
                 :: pieces fuel' i r (rev (take n aft) ++ bef) (drop n aft)
      | None => moveOn
      end
  end.

(** Every round but the last moves forward in the string: its length
    bounds their number. *)
Definition allPieces (i : bool) (r : regex) (s : jsstring) : list Piece :=
  pieces (S (length s)) i r [] s.

(** [s.replace(/r/g, replacement)] for a replacement text without [$]
    (those of the code are ["&lt;"], ["&gt;"], ["&quot;"], ["&#x27;"],
    ["&#x2F;"], ["_"] and ["."]). *)
Definition replaceAll (i : bool) (r : regex) (replacement s : jsstring)
  : jsstring :=
  flat_map (fun p => match p with
                     | Kept ch => [ch]
                     | Matched _ => replacement
                     end) (allPieces i r s).

(** [s.match(/r/g)]: the matched texts; the empty list is the [null] of
    a pattern that matches nowhere. *)
Definition matchAll (i : bool) (r : regex) (s : jsstring)
  : list jsstring :=
  omap (fun p => match p with
                 | Kept _ => None
                 | Matched m => Some (matched m)
                 end) (allPieces i r s).

(** [s.replace(/[^...]/g, replacement)] for a negated class: a match is
    one code unit outside the class, so every such code unit is
    replaced. *)
Definition replaceOutside (class : cset) (replacement s : jsstring)
  : jsstring :=
  flat_map (fun ch => if member class ch then [ch] else replacement) s.

(** *** Derived forms *)

(** The number of dots the string starts with. *)
Fixpoint leadingDots (s : jsstring) : nat :=
  match s with
  | ch :: rest => if (ch =? 46)%N then S (leadingDots rest) else O
  | [] => O
  end.

(** Every run of dots made one dot; [afterDot]: the code unit before
    was a dot that has been kept. *)
Fixpoint squeezeDots (afterDot : bool) (s : jsstring) : jsstring :=
  match s with
  | [] => []
  | ch :: rest =>
      if (ch =? 46)%N then
        if afterDot then squeezeDots true rest
        else ch :: squeezeDots true rest
      else ch :: squeezeDots false rest
  end.
End StringReplace.

(* ===================================================================== *)
(** ** src/components/FormattedTicket.jsx: the helpers of the application *)
(* ===================================================================== *)

Module App.
Import RegExp StringReplace.

(** *** [getApiEndpoint] (lines 123-194) *)

(** [import.meta.env], as far as the function reads it. *)
Record Env := {
  VITE_API_URL : option jsstring;
  VITE_PLATFORM : option jsstring;
  PROD : bool
}.

(** [window.location]. *)
Record Location := { location_hostname : jsstring; location_href : jsstring }.

Definition vercelEndpoint (functionName : jsstring) : jsstring :=
  js "/api/" ++ functionName.
Definition netlifyEndpoint (functionName : jsstring) : jsstring :=
  js "/.netlify/functions/" ++ functionName.
Definition localEndpoint (functionName : jsstring) : jsstring :=
  js "http://localhost:3001/api/" ++ functionName.

(** Lines 149-154 and 162-167. *)
Definition isVercel (hostname href : jsstring) : bool :=
  includes hostname (js "vercel.app") || includes hostname (js "vercel.com")
  || includes href (js "vercel.app") || includes href (js "vercel.com")
  || endsWith hostname (js ".vercel.app")
  || endsWith hostname (js ".vercel.com").

Definition isNetlify (hostname href : jsstring) : bool :=
  includes hostname (js "netlify.app") || includes hostname (js "netlify.com")
  || includes href (js "netlify.app") || includes href (js "netlify.com")
  || endsWith hostname (js ".netlify.app")
  || endsWith hostname (js ".netlify.com").

(** [window_location] is [None] when there is no [window], or no
    [location], or reading them throws: the three ways lead to the same
    [return]. *)
Definition getApiEndpoint (env : Env) (window_location : option Location)
    (functionName : jsstring) : jsstring :=
  if truthy (VITE_API_URL env) then
    let baseUrl := PushToJira.interpolate (VITE_API_URL env) in
    if includes baseUrl (js "generate-ticket")
    then replace baseUrl (js "generate-ticket") functionName
    else baseUrl ++ js "/" ++ functionName
  else if bool_decide (VITE_PLATFORM env = Some (js "vercel")) then
    vercelEndpoint functionName
  else if bool_decide (VITE_PLATFORM env = Some (js "netlify")) then
    netlifyEndpoint functionName
  else if negb (PROD env) then localEndpoint functionName
  else
    match window_location with
    | Some location =>
        let hostname := toLowerCase (location_hostname location) in
        let href := toLowerCase (location_href location) in
        if isVercel hostname href then vercelEndpoint functionName
        else if isNetlify hostname href then netlifyEndpoint functionName
        else vercelEndpoint functionName
    | None => vercelEndpoint functionName
    end.

(** *** [sanitizeText] (lines 330-338) *)
Definition sanitizeText (text : option jsstring) : jsstring :=
  if negb (truthy text) then []
  else
    let t0 := PushToJira.interpolate text in
    let t1 := replaceAll false (Chars (CChar 60)) (js "&lt;") t0 in
    let t2 := replaceAll false (Chars (CChar 62)) (js "&gt;") t1 in
    let t3 := replaceAll false (Chars (CChar 34)) (js "&quot;") t2 in
    let t4 := replaceAll false (Chars (CChar 39)) (js "&#x27;") t3 in
    replaceAll false (Chars (CChar 47)) (js "&#x2F;") t4.

(** The code units [sanitizeText] replaces: the two angle brackets, the
    double and the single quote, and the slash. *)
Definition markupChars : list N := [60; 62; 34; 39; 47]%N.

(** What becomes of one code unit. *)
Definition escapeChar (ch : N) : jsstring :=
  if (ch =? 60)%N then js "&lt;"
  else if (ch =? 62)%N then js "&gt;"
  else if (ch =? 34)%N then js "&quot;"
  else if (ch =? 39)%N then js "&#x27;"
  else if (ch =? 47)%N then js "&#x2F;"
  else [ch].

(** *** [sanitizeFileName] (lines 341-347) *)

(** The class [[a-zA-Z0-9._-]]. *)
Definition fileNameChars : cset :=
  CUnion (CRange 97 122)
    (CUnion (CRange 65 90)
       (CUnion (CRange 48 57)
          (CUnion (CChar 46) (CUnion (CChar 95) (CChar 45))))).

(** [/\.{2,}/] *)
Definition dotsPattern : regex := Repeat (Chars (CChar 46)) 2 None true.

Definition sanitizeFileName (filename : option jsstring) : jsstring :=
  if negb (truthy filename) then js "file"
  else
    take 255
      (replaceAll false dotsPattern (js ".")
         (replaceOutside fileNameChars (js "_")
            (PushToJira.interpolate filename))).

(** *** The ticket format (lines 481-492, 1143-1205) *)

Record TicketField := {
  field_id : jsstring;
  field_name : jsstring;
  enabled : bool;
  isDefault : bool
}.

Definition defaultField (fieldId fieldName : string) : TicketField :=
  {| field_id := js fieldId; field_name := js fieldName;
     enabled := true; isDefault := true |}.

Definition DEFAULT_TICKET_FIELDS : list TicketField :=
  [defaultField "title" "Title";
   defaultField "description" "Description";
   defaultField "steps" "Steps to Reproduce";
   defaultField "expected" "Expected Behaviour";
   defaultField "actual" "Actual Behaviour";
   defaultField "impact" "Impact";
   defaultField "priority" "Priority";
   defaultField "environment" "Environment";
   defaultField "attachment" "Attachment"].

(** [ticketFormat.findIndex(f => f.id === fieldId)]; [None] is -1. *)
Fixpoint findIndex (fieldId : jsstring) (ticketFormat : list TicketField)
  : option nat :=
  match ticketFormat with
  | [] => None
  | f :: rest =>
      if bool_decide (field_id f = fieldId) then Some O
      else S <$> findIndex fieldId rest
  end.

(** [toggleFieldEnabled] and [deleteField]: the next state of
    [ticketFormat]. *)
Definition toggleFieldEnabled (ticketFormat : list TicketField)
    (fieldId : jsstring) : list TicketField :=
  map (fun field =>
         if bool_decide (field_id field = fieldId)
         then {| field_id := field_id field; field_name := field_name field;
                 enabled := negb (enabled field);
                 isDefault := isDefault field |}
         else field) ticketFormat.

Definition deleteField (ticketFormat : list TicketField)
    (fieldId : jsstring) : list TicketField :=
  filter (fun field => field_id field <> fieldId) ticketFormat.

(** [moveField] (lines 1195-1205): the next state of [ticketFormat];
    where the function returns early the state stays as it is. The two
    indices of the swap are within the array. *)
Definition moveField (ticketFormat : list TicketField)
    (fieldId direction : jsstring) : list TicketField :=
  match findIndex fieldId ticketFormat with
  | None => ticketFormat
  | Some currentIndex =>
      let newIndex : Z :=
        if bool_decide (direction = js "up")
        then Z.of_nat currentIndex - 1 else Z.of_nat currentIndex + 1 in
      if (newIndex <? 0) || (Z.of_nat (length ticketFormat) <=? newIndex)
      then ticketFormat
      else
        match ticketFormat !! currentIndex,
              ticketFormat !! Z.to_nat newIndex with
        | Some current, Some other =>
            <[Z.to_nat newIndex := current]>
              (<[currentIndex := other]> ticketFormat)
        | _, _ => ticketFormat
        end
  end.

(** [handleFormatDrop] (lines 1178-1193): the next state of
    [ticketFormat]. [splice(draggedIndex, 1)] takes the dragged field
    out, [splice(targetIndex, 0, removed)] puts it in at the index the
    target had. *)
Definition handleFormatDrop (ticketFormat : list TicketField)
    (draggedField : option jsstring) (targetFieldId : jsstring)
  : list TicketField :=
  if negb (truthy draggedField)
     || bool_decide (draggedField = Some targetFieldId)
  then ticketFormat
  else
    match findIndex (PushToJira.interpolate draggedField) ticketFormat,
          findIndex targetFieldId ticketFormat with
    | Some draggedIndex, Some targetIndex =>
        match ticketFormat !! draggedIndex with
        | Some removed =>
            let newFormat := delete draggedIndex ticketFormat in
            take targetIndex newFormat ++ removed :: drop targetIndex newFormat
        | None => ticketFormat
        end
    | _, _ => ticketFormat
    end.

(** *** [calculateQualityScore] (lines 2176-2240) *)

(** [/\d+\./g] *)
Definition stepPattern : regex :=
  Seq (plus (CRange 48 57)) (Chars (CChar 46)).

(** [/\*\*Description:\*\*([\s\S]*?)\*\*/] *)
Definition descriptionPattern : regex :=
  Seq (lit (js "**Description:**"))
    (Seq (Group 1 (lazyStar anything)) (lit (js "**"))).

Inductive Feedback :=
| AddMoreDetailedSteps            (* 'Add more detailed steps' *)
| MissingReproductionSteps        (* 'Missing reproduction steps' *)
| DescriptionCouldBeMoreDetailed  (* 'Description could be more detailed' *)
| DescriptionIsTooBrief.          (* 'Description is too brief' *)

Inductive Rating :=
| Excellent | VeryGood | Good | Fair | NeedsImprovement.

Record Quality := {
  score : Z;
  rating : Rating;
  feedback : list Feedback
}.

(** [descMatch[1].length], were there a match; reading [length] of an
    [undefined] group would throw. *)
Definition descriptionLength (descMatch : option Match)
  : Completion (option nat) :=
  match descMatch with
  | Some m =>
      match group 1 m with
      | Some s => Normal (Some (length s))
      | None => Throws
      end
  | None => Normal None
  end.

Definition ratingOf (score : Z) : Rating :=
  if 90 <=? score then Excellent
  else if 75 <=? score then VeryGood
  else if 60 <=? score then Good
  else if 40 <=? score then Fair
  else NeedsImprovement.

Definition points (present : bool) (n : Z) : Z := if present then n else 0.

Definition calculateQualityScore (ticketText : jsstring)
  : Completion Quality :=
  let sections :=
    points (includes ticketText (js "**Title:**")) 8
    + points (includes ticketText (js "**Description:**")) 8
    + points (includes ticketText (js "**Steps to Reproduce:**")) 8
    + points (includes ticketText (js "**Expected Behaviour:**")) 8
    + points (includes ticketText (js "**Actual Behaviour:**")) 8 in
  let stepsMatch := matchAll false stepPattern ticketText in
  let '(stepPoints, stepFeedback) :=
    match stepsMatch with
    | [] => (0, [MissingReproductionSteps])
    | _ =>
        if (3 <=? length stepsMatch)%nat then (20, [])
        else (Z.of_nat (length stepsMatch) * 5, [AddMoreDetailedSteps])
    end in
  let priority := points (includes ticketText (js "**Priority:**")) 10 in
  let environment := points (includes ticketText (js "**Environment:**")) 10 in
  described ← descriptionLength (exec false descriptionPattern ticketText);
  let '(descriptionPoints, descriptionFeedback) :=
    match described with
    | Some n =>
        if (100 <? n)%nat then (20, [])
        else if (50 <? n)%nat then (10, [DescriptionCouldBeMoreDetailed])
        else (0, [DescriptionIsTooBrief])
    | None => (0, [DescriptionIsTooBrief])
    end in
  let score :=
    sections + stepPoints + priority + environment + descriptionPoints in
  Normal {| score := score;
            rating := ratingOf score;
            feedback := stepFeedback ++ descriptionFeedback |}.
End App.

(** *** Samples for the helpers *)

Module AppSample.
Import App.

(** A production build without overrides, served from a Netlify
    address. *)
Definition productionEnv : Env :=
  {| VITE_API_URL := None; VITE_PLATFORM := None; PROD := true |}.

Definition netlifySite : Location :=
  {| location_hostname := js "ai-bug-ticket-generator.netlify.app";
     location_href := js "https://ai-bug-ticket-generator.netlify.app/" |}.

(** The same build served from a Vercel address. *)
Definition vercelSite : Location :=
  {| location_hostname := js "tickets.vercel.app";
     location_href := js "https://tickets.vercel.app/" |}.

(** A build with an explicit address of the generation function. *)
Definition overrideEnv : Env :=
  {| VITE_API_URL := Some (js "https://api.example.com/fn/generate-ticket");
     VITE_PLATFORM := Some (js "netlify"); PROD := true |}.
End AppSample.

(* ===================================================================== *)
(** ** src/components/FormattedTicket.jsx: [pushToJira], up to the call *)
(* ===================================================================== *)

Module ClientPush.

(** The state [jiraConfig] (lines 388-454): nine strings. *)
Record JiraConfig := {
  url : jsstring;
  email : jsstring;
  apiToken : jsstring;
  projectKey : jsstring;
  instance : jsstring;
  productLine : jsstring;
  component : jsstring;
  foundVersion : jsstring;
  engineeringTeam : jsstring
}.

(** An entry of the state [files] (lines 536-543), as far as the
    request reads it. *)
Record FileItem := {
  preview : jsstring;      (* the data URL of the file *)
  file_name : jsstring;
  file_type : jsstring
}.

(** Lines 1326-1327: every setting is there. *)
Definition configured (jiraConfig : JiraConfig) : bool :=
  truthy (Some (url jiraConfig)) && truthy (Some (email jiraConfig))
  && truthy (Some (apiToken jiraConfig))
  && truthy (Some (projectKey jiraConfig))
  && truthy (Some (instance jiraConfig))
  && truthy (Some (productLine jiraConfig))
  && truthy (Some (component jiraConfig))
  && truthy (Some (foundVersion jiraConfig))
  && truthy (Some (engineeringTeam jiraConfig)).

(** Lines 1353-1366 and 1426-1434: the body of the request.
    [shouldSkipAttachments] (lines 1368-1392) compares an estimate made
    in floating point arithmetic with a limit; it is a parameter. *)
Definition requestPayload (jiraConfig : JiraConfig)
    (fields : FormattedTicket.Fields) (files : list FileItem)
    (shouldSkipAttachments : bool) : PushToJira.Body :=
  {| PushToJira.jiraUrl := Some (url jiraConfig);
     PushToJira.email := Some (email jiraConfig);
     PushToJira.apiToken := Some (apiToken jiraConfig);
     PushToJira.projectKey := Some (projectKey jiraConfig);
     PushToJira.fields := Some (PushToJira.ofParsed fields);
     PushToJira.customFields := Some
       {| PushToJira.instance := Some (instance jiraConfig);
          PushToJira.productLine := Some (productLine jiraConfig);
          PushToJira.component := Some (component jiraConfig);
          PushToJira.foundVersion := Some (foundVersion jiraConfig);
          PushToJira.engineeringTeam := Some (engineeringTeam jiraConfig) |};
     PushToJira.attachments :=
       if (0 <? length files)%nat && negb shouldSkipAttachments then
         Some (map (fun fileItem =>
                      Some
                        {| PushToJira.filename := Some (file_name fileItem);
                           PushToJira.contentType := Some (file_type fileItem);
                           PushToJira.data := Some (preview fileItem) |})
                 files)
       else None |}.

(** What the function does first. *)
Inductive Step :=
| NoTicketToast            (* 'No ticket to push' *)
| IncompleteSettingsToast  (* 'Please complete all Jira settings (all fields required)' *)
| Post (endpoint : jsstring) (body : PushToJira.Body).

(** Lines 1319-1443; an exception of the parser would be caught by the
    [catch] of line 1503. *)
Definition pushToJira (env : App.Env) (window_location : option App.Location)
    (ticket : option jsstring) (jiraConfig : JiraConfig)
    (files : list FileItem) (shouldSkipAttachments : bool)
  : Completion Step :=
  if negb (truthy ticket) then Normal NoTicketToast
  else if negb (configured jiraConfig) then Normal IncompleteSettingsToast
  else
    fields ← FormattedTicket.parseTicketForJira (PushToJira.interpolate ticket);
    Normal (Post (App.getApiEndpoint env window_location (js "push-to-jira"))
              (requestPayload jiraConfig fields files shouldSkipAttachments)).

(** The request as the proxy receives it: the browser and the platform
    add the headers. *)
Definition received (x_forwarded_for x_real_ip origin referer : option jsstring)
    (body : PushToJira.Body) : PushToJira.Request :=
  {| PushToJira.x_forwarded_for := x_forwarded_for;
     PushToJira.x_real_ip := x_real_ip;
     PushToJira.origin := origin;
     PushToJira.referer := referer;
     PushToJira.method := js "POST";
     PushToJira.body := Some body |}.

Definition sampleConfig : JiraConfig :=
  {| url := js "https://anything.atlassian.net";
     email := js "qa@example.com";
     apiToken := js "token";
     projectKey := js "BUG";
     instance := js "QA";
     productLine := js "Marketplace";
     component := js "Login";
     foundVersion := js "1.2.3";
     engineeringTeam := js "Polaris" |}.
End ClientPush.

(* ===================================================================== *)
(** ** The endpoints and their limiters *)
(* ===================================================================== *)

(** The three rate-limited endpoints the specification names. *)
Inductive Endpoint := JiraPushProxy | TicketGenerationProxy | LocalServer.

Definition threshold (ep : Endpoint) : Z :=
  match ep with
  | JiraPushProxy => PushToJira.MAX_REQUESTS_PER_WINDOW
  | TicketGenerationProxy => GenerateTicket.MAX_REQUESTS_PER_WINDOW
  | LocalServer => Server.MAX_REQUESTS_PER_WINDOW
  end.

Definition window (ep : Endpoint) : Z :=
  match ep with
  | JiraPushProxy => PushToJira.RATE_LIMIT_WINDOW
  | TicketGenerationProxy => GenerateTicket.RATE_LIMIT_WINDOW
  | LocalServer => Server.RATE_LIMIT_WINDOW
  end.
Section Traces.
Context {K : Type} `{Countable K}.

Definition limiter (ep : Endpoint)
  : gmap K Entry -> K -> Z -> gmap K Entry * Verdict :=
  match ep with
  | JiraPushProxy => PushToJira.limit
  | TicketGenerationProxy => GenerateTicket.limit
  | LocalServer => Server.rateLimit
  end.

(** Requests arrive one at a time (the runtime handles one request at a
    time per instance): the map is threaded through them in order. *)
Fixpoint serve (ep : Endpoint) (m : gmap K Entry) (reqs : list (K * Z))
  : gmap K Entry * list (K * Verdict) :=
  match reqs with
  | [] => (m, [])
  | (ip, now) :: rest =>
      let '(m1, v) := limiter ep m ip now in
      let '(m2, vs) := serve ep m1 rest in
      (m2, (ip, v) :: vs)
  end.

(** The verdicts a given caller received, in order. *)
Definition verdictsFor (ip : K) (vs : list (K * Verdict)) : list Verdict :=
  map snd (filter (fun kv => fst kv = ip) vs).

Definition requestsOf (ip : K) (reqs : list (K * Z)) : list Z :=
  map snd (filter (fun kv => fst kv = ip) reqs).

(** Events that change the map of an instance: a request, or (local
    server only) a tick of the cleanup timer. *)
Inductive reachable (ep : Endpoint) : gmap K Entry -> Prop :=
| reach_start : reachable ep ∅
| reach_request m ip now :
    reachable ep m -> reachable ep (fst (limiter ep m ip now))
| reach_cleanup m now :
    ep = LocalServer -> reachable ep m ->
    reachable ep (Server.cleanup m now).

(** The invariant of the map: every count lies between 1 and the
    endpoint's maximum. *)
Definition bounded (ep : Endpoint) (m : gmap K Entry) : Prop :=
  forall ip e, m !! ip = Some e -> 1 <= count e <= threshold ep.
End Traces.

(** The verdict expected of the [n]-th request of a window. *)
Definition expected (ep : Endpoint) (n : nat) : Verdict :=
  if Z.of_nat n <=? threshold ep then Next else tooManyRequests.

(* ===================================================================== *)
(** * Properties *)
(* ===================================================================== *)

(** ** Rate limiters *)

Section LimiterFacts.
Context {K : Type} `{Countable K}.
Implicit Types (m : gmap K Entry) (ip : K) (ep : Endpoint).

Lemma threshold_pos ep : 1 <= threshold ep.
Proof. destruct ep; cbv; discriminate. Qed.

(** A request that opens a window: no entry, or an entry whose window
    ended strictly before [now]. *)
Lemma limiter_opens ep m ip now :
  match m !! ip with None => True | Some e => resetTime e < now end ->
  limiter ep m ip now =
    (<[ip := {| count := 1; resetTime := now + window ep |}]> m, Next).
Proof.
  intros Hopen.
  destruct ep; cbn [limiter window];
    unfold PushToJira.limit, GenerateTicket.limit,
      Server.rateLimit, serverlessLimit, expressLimit;
    destruct (m !! ip) as [e|]; try reflexivity.
  - destruct (Z.ltb_spec now (resetTime e)); [lia | reflexivity].
  - destruct (Z.ltb_spec now (resetTime e)); [lia | reflexivity].
  - destruct (Z.ltb_spec (resetTime e) now); [reflexivity | lia].
Qed.

(** A request strictly inside the window of the stored entry. *)
Lemma limiter_inside ep m ip now e :
  m !! ip = Some e -> now < resetTime e ->
  limiter ep m ip now =
    if threshold ep <=? count e then (m, tooManyRequests)
    else (<[ip := {| count := count e + 1; resetTime := resetTime e |}]> m,
          Next).
Proof.
  intros Hm Hin.
  destruct ep; cbn [limiter threshold];
    unfold PushToJira.limit, GenerateTicket.limit,
      Server.rateLimit, serverlessLimit, expressLimit; rewrite Hm.
  - destruct (Z.ltb_spec now (resetTime e)); [reflexivity | lia].
  - destruct (Z.ltb_spec now (resetTime e)); [reflexivity | lia].
  - destruct (Z.ltb_spec (resetTime e) now); [lia | reflexivity].
Qed.

(** The limiter touches the entry of the caller only. *)
Lemma limiter_frame ep m ip now ip' :
  ip <> ip' -> fst (limiter ep m ip now) !! ip' = m !! ip'.
Proof.
  intros Hne.
  destruct ep; cbn [limiter];
    unfold PushToJira.limit, GenerateTicket.limit,
      Server.rateLimit, serverlessLimit, expressLimit;
    destruct (m !! ip) as [e|];
    repeat match goal with
           | |- context [if ?b then _ else _] => destruct b
           end; cbn [fst]; by rewrite ?lookup_insert_ne.
Qed.

(** A denied request leaves the whole map as it was. *)
Lemma limiter_denied ep m ip now :
  snd (limiter ep m ip now) <> Next -> fst (limiter ep m ip now) = m.
Proof.
  destruct ep; cbn [limiter];
    unfold PushToJira.limit, GenerateTicket.limit,
      Server.rateLimit, serverlessLimit, expressLimit;
    destruct (m !! ip) as [e|];
    repeat match goal with
           | |- context [if ?b then _ else _] => destruct b
           end; cbn [fst snd]; congruence.
Qed.

Lemma verdictsFor_cons_eq ip v (vs : list (K * Verdict)) :
  verdictsFor ip ((ip, v) :: vs) = v :: verdictsFor ip vs.
Proof.
  unfold verdictsFor. rewrite filter_cons_True by reflexivity. reflexivity.
Qed.

Lemma verdictsFor_cons_ne ip ip' v (vs : list (K * Verdict)) :
  ip' <> ip -> verdictsFor ip ((ip', v) :: vs) = verdictsFor ip vs.
Proof.
  intros Hne. unfold verdictsFor. by rewrite filter_cons_False.
Qed.

Lemma requestsOf_cons_eq ip t (reqs : list (K * Z)) :
  requestsOf ip ((ip, t) :: reqs) = t :: requestsOf ip reqs.
Proof.
  unfold requestsOf. rewrite filter_cons_True by reflexivity. reflexivity.
Qed.

Lemma requestsOf_cons_ne ip ip' t (reqs : list (K * Z)) :
  ip' <> ip -> requestsOf ip ((ip', t) :: reqs) = requestsOf ip reqs.
Proof.
  intros Hne. unfold requestsOf. by rewrite filter_cons_False.
Qed.

(** Inside a window that has seen [k] requests of [ip] so far, the
    following requests of [ip] are numbered [k+1], [k+2], ... and each gets
    the verdict of its number; the stored count saturates at the
    threshold. *)
Lemma serve_inside ep ip T reqs : forall m (k : nat),
  (1 <= k)%nat ->
  m !! ip = Some {| count := Z.min (Z.of_nat k) (threshold ep);
                    resetTime := T |} ->
  Forall (fun t => t < T) (requestsOf ip reqs) ->
  verdictsFor ip (snd (serve ep m reqs)) =
    map (expected ep) (seq (S k) (length (requestsOf ip reqs))) /\
  fst (serve ep m reqs) !! ip =
    Some {| count := Z.min (Z.of_nat (k + length (requestsOf ip reqs)))
                           (threshold ep);
            resetTime := T |}.
Proof.
  induction reqs as [|[ip' now] rest IH]; intros m k Hk Hm Hall.
  - cbn. rewrite Nat.add_0_r. auto.
  - cbn [serve].
    destruct (limiter ep m ip' now) as [m1 v] eqn:Hstep.
    destruct (serve ep m1 rest) as [m2 vs] eqn:Hrest.
    cbn [fst snd].
    destruct (decide (ip' = ip)) as [->|Hne].
    + rewrite requestsOf_cons_eq in Hall |- *.
      inversion Hall as [|? ? Hnow Hall']; subst. clear Hall.
      rename Hall' into Hall.
      rewrite (limiter_inside ep m ip now _ Hm Hnow) in Hstep.
      cbn [count resetTime] in Hstep.
      rewrite verdictsFor_cons_eq. cbn [length seq map].
      pose proof (threshold_pos ep) as Hpos.
      assert (Hm1 : m1 !! ip =
                Some {| count := Z.min (Z.of_nat (S k)) (threshold ep);
                        resetTime := T |} /\ v = expected ep (S k)).
      { unfold expected.
        destruct (Z.leb_spec (threshold ep)
                    (Z.min (Z.of_nat k) (threshold ep)));
          destruct (Z.leb_spec (Z.of_nat (S k)) (threshold ep));
          try lia; inversion Hstep; subst; split; try reflexivity.
        - rewrite Hm. do 2 f_equal. lia.
        - rewrite lookup_insert_eq. do 2 f_equal. lia. }
      destruct Hm1 as [Hm1 ->].
      destruct (IH m1 (S k) ltac:(lia) Hm1 Hall) as [IHv IHm].
      rewrite Hrest in IHv, IHm. cbn [fst snd] in IHv, IHm.
      split; [by rewrite IHv |].
      rewrite IHm. do 3 f_equal. lia.
    + rewrite requestsOf_cons_ne in Hall |- * by done.
      rewrite verdictsFor_cons_ne by done.
      assert (Hm1 : m1 !! ip = m !! ip).
      { change m1 with (fst (m1, v)). rewrite <- Hstep.
        by apply limiter_frame. }
      rewrite Hm in Hm1.
      destruct (IH m1 k Hk Hm1 Hall) as [IHv IHm].
      rewrite Hrest in IHv, IHm. auto.
Qed.

Lemma limiter_bounded ep m ip now :
  bounded ep m -> bounded ep (fst (limiter ep m ip now)).
Proof.
  intros Hb ip' e'.
  pose proof (threshold_pos ep) as Hpos.
  destruct (decide (ip = ip')) as [<-|Hne];
    [| rewrite limiter_frame by done; apply Hb].
  destruct ep; cbn [limiter threshold] in *;
    unfold PushToJira.limit, GenerateTicket.limit,
      Server.rateLimit, serverlessLimit, expressLimit;
    destruct (m !! ip) as [e|] eqn:Hm;
    repeat match goal with
           | |- context [if ?a <=? ?b then _ else _] =>
               destruct (Z.leb_spec a b)
           | |- context [if ?b then _ else _] => destruct b
           end; cbn [fst];
    rewrite ?lookup_insert_eq; intros He';
    try (inversion He'; subst; cbn [count]; lia);
    try (rewrite Hm in He'; inversion He'; subst; by apply (Hb ip));
    try (inversion He'; subst; cbn [count];
         specialize (Hb ip e Hm); lia).
Qed.

Lemma cleanup_bounded ep m now :
  bounded ep m -> bounded ep (Server.cleanup m now).
Proof.
  intros Hb ip e He.
  unfold Server.cleanup, expressCleanup in He.
  apply map_lookup_filter_Some in He as [He _]. by apply (Hb ip).
Qed.

Lemma reachable_bounded ep m : reachable ep m -> bounded ep m.
Proof.
  induction 1 as [| m ip now _ IH | m now _ _ IH].
  - intros ip e He. by rewrite lookup_empty in He.
  - by apply limiter_bounded.
  - by apply cleanup_bounded.
Qed.
End LimiterFacts.

(** C1. Within one rate window the N-th request of a caller is answered
    with the 429 "too many requests" verdict if and only if N exceeds the
    threshold of the endpoint (10 for the Jira push proxy, 15 for the
    ticket-generation proxy, 20 for the local server, per window of one
    minute); the requests up to the threshold pass and each adds one to the
    stored count. The window is opened by a request of [ip] at [t0] (no
    entry yet, or an expired one); requests of other callers may be
    interleaved freely. *)
Theorem rate_limit_nth_request
    {K : Type} `{Countable K} (ep : Endpoint) (m : gmap K Entry) (ip : K)
    (t0 : Z) (rest : list (K * Z)) :
  match m !! ip with None => True | Some e => resetTime e < t0 end ->
  Forall (fun t => t < t0 + window ep) (requestsOf ip rest) ->
  let out := serve ep m ((ip, t0) :: rest) in
  let n := length (requestsOf ip ((ip, t0) :: rest)) in
  (threshold JiraPushProxy = 10 /\ threshold TicketGenerationProxy = 15 /\
   threshold LocalServer = 20 /\ window ep = 60000) /\
  length (verdictsFor ip (snd out)) = n /\
  (forall (N : nat) v, (1 <= N)%nat ->
     verdictsFor ip (snd out) !! (N - 1)%nat = Some v ->
     (v = tooManyRequests <-> threshold ep < Z.of_nat N) /\
     (v = Next <-> Z.of_nat N <= threshold ep)) /\
  fst out !! ip =
    Some {| count := Z.min (Z.of_nat n) (threshold ep);
            resetTime := t0 + window ep |}.
Proof.
  intros Hopen Hall out n.
  split; [by destruct ep |].
  subst out n. cbn [serve].
  rewrite (limiter_opens ep m ip t0 Hopen).
  destruct (serve ep _ rest) as [m2 vs] eqn:Hrest. cbn [fst snd].
  rewrite verdictsFor_cons_eq, requestsOf_cons_eq.
  pose proof (threshold_pos ep) as Hpos.
  destruct (serve_inside ep ip (t0 + window ep) rest
              (<[ip := {| count := 1; resetTime := t0 + window ep |}]> m) 1)
    as [Hv Hm]; [lia | | done |].
  { rewrite lookup_insert_eq. do 2 f_equal. lia. }
  rewrite Hrest in Hv, Hm. cbn [fst snd] in Hv, Hm.
  assert (Hall' : Next :: verdictsFor ip vs =
            map (expected ep) (seq 1 (S (length (requestsOf ip rest))))).
  { cbn [seq map]. rewrite Hv. f_equal. unfold expected.
    destruct (Z.leb_spec (Z.of_nat 1) (threshold ep)); [done | lia]. }
  rewrite Hall'. split; [by rewrite length_map, length_seq |].
  split; [| rewrite Hm; cbn [length]; do 3 f_equal; lia].
  intros N v HN Hlook.
  rewrite list_lookup_fmap in Hlook.
  destruct (seq 1 (S (length (requestsOf ip rest))) !! (N - 1)%nat)
    as [j|] eqn:Hj; [| discriminate].
  apply lookup_seq in Hj as [-> _].
  assert (Hv' : v = expected ep N).
  { cbn in Hlook. injection Hlook as <-. f_equal. lia. }
  subst v. unfold expected, tooManyRequests.
  destruct (Z.leb_spec (Z.of_nat N) (threshold ep)); split; split;
    intros; try lia; try discriminate; reflexivity.
Qed.

Lemma rate_limit_nth_request_witness :
  let m : gmap nat Entry := ∅ in
  let rest := [(7%nat, 10); (8%nat, 11); (7%nat, 59999)] in
  fst (serve JiraPushProxy m ((7%nat, 0) :: rest)) !! 7%nat =
    Some {| count := 3; resetTime := 60000 |}.
Proof.
  intros m rest.
  pose proof (rate_limit_nth_request JiraPushProxy m 7%nat 0 rest) as Hthm.
  destruct Hthm as (_ & _ & _ & Hcount).
  - reflexivity.
  - repeat constructor.
  - exact Hcount.
Defined.

(** C7 (behaviour at the boundary). A request that arrives exactly at the
    stored window end [resetTime] opens a fresh window with count 1 in the
    serverless handlers ([now < limit.resetTime] fails), whereas the local
    server's [rateLimit] ([now > limit.resetTime] fails as well) still
    counts it against the old window, and denies it when the old window is
    full. *)
Theorem window_boundary
    {K : Type} `{Countable K} (ep : Endpoint) (m : gmap K Entry) (ip : K)
    (e : Entry) :
  m !! ip = Some e ->
  limiter ep m ip (resetTime e) =
    match ep with
    | LocalServer =>
        if threshold ep <=? count e then (m, tooManyRequests)
        else (<[ip := {| count := count e + 1; resetTime := resetTime e |}]> m,
              Next)
    | _ =>
        (<[ip := {| count := 1; resetTime := resetTime e + window ep |}]> m,
         Next)
    end.
Proof.
  intros Hm.
  destruct ep; cbn [limiter threshold window];
    unfold PushToJira.limit, GenerateTicket.limit,
      Server.rateLimit, serverlessLimit, expressLimit; rewrite Hm;
    rewrite Z.ltb_irrefl; reflexivity.
Qed.

Lemma window_boundary_witness :
  let full := {| count := 20; resetTime := 60000 |} in
  limiter LocalServer ({[ 7%nat := full ]} : gmap nat Entry) 7%nat 60000 =
    ({[ 7%nat := full ]}, tooManyRequests).
Proof.
  intros full.
  exact (window_boundary LocalServer {[ 7%nat := full ]} 7%nat full
           (lookup_singleton_eq 7%nat full)).
Defined.

(** C8. In every state the map of an endpoint can reach (from the empty map,
    by requests and, on the local server, cleanup ticks) every entry's count
    lies between 1 and the endpoint's maximum, and a denied request changes
    nothing in the map; in particular it does not increment the count. *)
Theorem count_never_exceeds_threshold
    {K : Type} `{Countable K} (ep : Endpoint) (m : gmap K Entry) :
  reachable ep m ->
  (forall ip e, m !! ip = Some e -> 1 <= count e <= threshold ep) /\
  (forall ip now,
     snd (limiter ep m ip now) = tooManyRequests ->
     fst (limiter ep m ip now) = m).
Proof.
  intros Hreach. split.
  - by apply reachable_bounded.
  - intros ip now Hden. apply limiter_denied. rewrite Hden. discriminate.
Qed.

Lemma count_never_exceeds_threshold_witness :
  let m : gmap nat Entry := fst (limiter TicketGenerationProxy ∅ 3%nat 5) in
  let e := {| count := 1; resetTime := 60005 |} in
  m !! 3%nat = Some e /\ 1 <= count e <= threshold TicketGenerationProxy.
Proof.
  intros m e.
  assert (He : m !! 3%nat = Some e) by (vm_compute; reflexivity).
  split; [exact He |].
  exact (proj1 (count_never_exceeds_threshold TicketGenerationProxy m
                  (reach_request _ ∅ 3%nat 5 (reach_start _))) 3%nat e He).
Defined.

(** ** URL validator *)

Lemma endsWith_true (s suffix : jsstring) :
  endsWith s suffix = true <-> exists pre, s = pre ++ suffix.
Proof.
  unfold endsWith. split.
  - destruct (Z.ltb_spec (Z.of_nat (length s) - Z.of_nat (length suffix)) 0);
      [discriminate |].
    intros Hd. apply bool_decide_eq_true in Hd.
    remember (Z.to_nat (Z.of_nat (length s) - Z.of_nat (length suffix))) as n.
    exists (take n s). rewrite <- (take_drop n s) at 1. by rewrite Hd.
  - intros [pre ->]. rewrite length_app.
    destruct (Z.ltb_spec (Z.of_nat (length pre + length suffix)
                          - Z.of_nat (length suffix)) 0); [lia |].
    apply bool_decide_eq_true.
    replace (Z.to_nat _) with (length pre) by lia.
    by rewrite drop_app_length.
Qed.

Lemma endsWith_false (s suffix : jsstring) :
  endsWith s suffix = false <-> ~ exists pre, s = pre ++ suffix.
Proof.
  rewrite <- endsWith_true. destruct (endsWith s suffix); split;
    congruence.
Qed.

(** C2. The validator accepts a string if and only if the platform parses
    it as a URL whose protocol is exactly "https:" and whose hostname ends
    with ".atlassian.net"; otherwise it rejects, with one reason for an
    unparseable string, another for a wrong scheme and a third for a wrong
    host. *)
Theorem validateJiraUrl_accepts_iff
    (newURL : jsstring -> option URL) (url : jsstring) :
  let r := validateJiraUrl newURL url in
  let unparseable := js "Invalid Jira URL format" in
  let wrongScheme := js "Jira URL must use HTTPS" in
  let wrongHost := js "Only Atlassian-hosted Jira instances are allowed" in
  (valid r = true <->
     exists u, newURL url = Some u /\ protocol u = js "https:" /\
               exists sub, hostname u = sub ++ js ".atlassian.net") /\
  (valid r = true -> error r = None) /\
  (newURL url = None ->
     r = {| valid := false; error := Some unparseable |}) /\
  (forall u, newURL url = Some u -> protocol u <> js "https:" ->
     r = {| valid := false; error := Some wrongScheme |}) /\
  (forall u, newURL url = Some u -> protocol u = js "https:" ->
     (~ exists sub, hostname u = sub ++ js ".atlassian.net") ->
     r = {| valid := false; error := Some wrongHost |}) /\
  unparseable <> wrongScheme /\ unparseable <> wrongHost /\
  wrongScheme <> wrongHost.
Proof.
  cbv zeta. unfold validateJiraUrl.
  destruct (newURL url) as [u|] eqn:Hparse;
    [destruct (decide (protocol u = js "https:")) as [Hp|Hp];
     [rewrite (bool_decide_eq_true_2 _ Hp); cbn [negb];
      destruct (endsWith (hostname u) (js ".atlassian.net")) eqn:Hh;
      [apply endsWith_true in Hh | apply endsWith_false in Hh]
     | rewrite (bool_decide_eq_false_2 _ Hp)] |];
    cbn [negb valid error]; repeat split;
    try discriminate; try done.
  all: try (intros _; by eauto).
  all: try (intros u' [= <-]; intros; exfalso; by eauto).
  all: try (intros (u' & [= <-] & Hp' & Hs); exfalso; by eauto).
Qed.

(** C10. The suffix the hostname is checked against begins with a dot. With
    the protocol "https:", every hostname of the form sub.atlassian.net is
    accepted, while the apex "atlassian.net" and the look-alike
    "evilatlassian.net" are rejected as foreign hosts, their hostnames not
    ending with ".atlassian.net". *)
Theorem validateJiraUrl_leading_dot
    (newURL : jsstring -> option URL) (url : jsstring) (u : URL) :
  newURL url = Some u ->
  protocol u = js "https:" ->
  let r := validateJiraUrl newURL url in
  let wrongHost :=
    {| valid := false;
       error := Some (js "Only Atlassian-hosted Jira instances are allowed") |} in
  (forall sub, hostname u = sub ++ js ".atlassian.net" ->
     r = {| valid := true; error := None |}) /\
  (hostname u = js "atlassian.net" -> r = wrongHost) /\
  (hostname u = js "evilatlassian.net" -> r = wrongHost) /\
  endsWith (js "atlassian.net") (js ".atlassian.net") = false /\
  endsWith (js "evilatlassian.net") (js ".atlassian.net") = false.
Proof.
  intros Hparse Hp. cbv zeta. unfold validateJiraUrl.
  rewrite Hparse, (bool_decide_eq_true_2 _ Hp). cbn [negb].
  repeat split.
  - intros sub Hsub.
    assert (Hends : endsWith (hostname u) (js ".atlassian.net") = true)
      by (apply endsWith_true; eauto).
    by rewrite Hends.
  - intros ->. reflexivity.
  - intros ->. reflexivity.
Qed.

Lemma validateJiraUrl_leading_dot_witness :
  validateJiraUrl sampleURL (js "https://anything.atlassian.net")
    = {| valid := true; error := None |} /\
  valid (validateJiraUrl sampleURL (js "https://atlassian.net")) = false /\
  valid (validateJiraUrl sampleURL (js "https://evilatlassian.net")) = false.
Proof.
  pose proof (validateJiraUrl_leading_dot sampleURL
                (js "https://anything.atlassian.net")
                {| protocol := js "https:";
                   hostname := js "anything.atlassian.net" |}
                eq_refl eq_refl) as Hsub.
  pose proof (validateJiraUrl_leading_dot sampleURL
                (js "https://atlassian.net")
                {| protocol := js "https:"; hostname := js "atlassian.net" |}
                eq_refl eq_refl) as Hapex.
  pose proof (validateJiraUrl_leading_dot sampleURL
                (js "https://evilatlassian.net")
                {| protocol := js "https:";
                   hostname := js "evilatlassian.net" |}
                eq_refl eq_refl) as Hevil.
  cbv zeta in Hsub, Hapex, Hevil.
  destruct Hsub as (Hsub & _), Hapex as (_ & Hapex & _),
    Hevil as (_ & _ & Hevil & _).
  split; [| split].
  - exact (Hsub (js "anything") eq_refl).
  - rewrite (Hapex eq_refl). reflexivity.
  - rewrite (Hevil eq_refl). reflexivity.
Defined.

(** ** The matcher *)

Section MatcherFacts.
Import RegExp RegExpDerived.

Lemma filter_notin_nil (caps : list (nat * jsstring)) :
  filter (fun kv => fst kv ∉ ([] : list nat)) caps = caps.
Proof.
  induction caps as [|kv caps IH]; [reflexivity |].
  rewrite filter_cons_True by apply not_elem_of_nil. by rewrite IH.
Qed.

(** The bound on the rounds is never the reason a quantified character
    set fails. *)
Lemma repeatMatcher_chars i s greedy c caps :
  forall aft fuel min max bef,
    (length aft < fuel)%nat ->
    repeatMatcher (run i (Chars s)) [] greedy c fuel min max
      {| before := bef; after := aft; captures := caps |}
    = repeatChars i s greedy c caps min max bef aft.
Proof.
  induction aft as [|ch rest IH]; intros fuel min max bef Hfuel;
    (destruct fuel as [|fuel]; [cbn in Hfuel; lia |]).
  - destruct max as [[|n]|]; cbn; try reflexivity;
      destruct (min =? 0)%nat; reflexivity.
  - cbn [repeatMatcher repeatChars].
    destruct max as [[|n]|]; [reflexivity | |];
      unfold clearCaptures; cbn [before after captures run];
      rewrite filter_notin_nil;
      destruct (matches i s ch) eqn:Hm;
      cbn [length] in *;
      replace ((length rest =? S (length rest))%nat) with false
        by (symmetry; apply Nat.eqb_neq; lia);
      rewrite ?andb_false_r;
      rewrite ?IH by lia; reflexivity.
Qed.

Lemma run_repeat_chars i s min max greedy x c :
  run i (Repeat (Chars s) min max greedy) x c
  = repeatChars i s greedy c (captures x) min max (before x) (after x).
Proof.
  destruct x as [bef aft caps]. cbn [run groupsOf before after captures].
  apply repeatMatcher_chars. lia.
Qed.

Lemma run_Seq i r1 r2 x c :
  run i (Seq r1 r2) x c = run i r1 x (fun y => run i r2 y c).
Proof. reflexivity. Qed.

Lemma run_Group i n r x c :
  run i (Group n r) x c = run i r x (fun y => c (setCapture n x y)).
Proof. reflexivity. Qed.

Lemma run_lit i s : forall x c,
  run i (lit s) x c
  = if litPrefix i s (after x) then c (advance (length s) x) else None.
Proof.
  induction s as [|a s IH]; intros [bef aft caps] c.
  - cbn. unfold advance. cbn. by rewrite drop_0.
  - cbn [lit run litPrefix after before captures].
    destruct aft as [|ch aft]; [reflexivity |].
    destruct (matches i (CChar a) ch); [| reflexivity].
    rewrite IH. cbn [after andb].
    destruct (litPrefix i s aft); [| reflexivity].
    unfold advance. cbn [before after captures length take drop rev].
    by rewrite <- app_assoc.
Qed.

Lemma litPrefix_false_startsWith s aft :
  litPrefix false s aft = startsWith aft s.
Proof.
  revert aft. induction s as [|a s IH]; intros [|ch aft]; try reflexivity.
  cbn. by rewrite IH.
Qed.






Lemma indexOf_None_drop s pat :
  indexOf s pat = None -> forall j, startsWith (drop j s) pat = false.
Proof.
  induction s as [|ch s IH]; intros Hnone j; cbn [indexOf] in Hnone;
    destruct (startsWith _ pat) eqn:Hs; try discriminate.
  - by rewrite drop_nil.
  - destruct j as [|j]; [exact Hs |]. cbn [drop]. apply IH.
    destruct (indexOf s pat); [discriminate | reflexivity].
Qed.

Lemma includes_false_drop s pat :
  includes s pat = false -> forall j, startsWith (drop j s) pat = false.
Proof.
  unfold includes. intros Hinc. apply indexOf_None_drop.
  destruct (indexOf s pat); [discriminate | reflexivity].
Qed.


(** A pattern that begins with a literal finds nothing where the literal
    does not occur. *)
Lemma searchFrom_lit_none i s r : forall aft bef,
  (forall j, litPrefix i s (drop j aft) = false) ->
  searchFrom i (Seq (lit s) r) bef aft = None.
Proof.
  induction aft as [|ch aft IH]; intros bef Hno;
    cbn [searchFrom]; unfold matchAt; cbn [run];
    rewrite run_lit; cbn [after];
    pose proof (Hno 0%nat) as H0; rewrite drop_0 in H0; rewrite H0;
    [reflexivity |].
  apply IH. intros j. exact (Hno (S j)).
Qed.

Lemma exec_lit_none s r content :
  includes content s = false -> exec false (Seq (lit s) r) content = None.
Proof.
  intros Hinc. apply searchFrom_lit_none. intros j.
  rewrite litPrefix_false_startsWith. by apply includes_false_drop.
Qed.

End MatcherFacts.

Section ScanFacts.
Import RegExp RegExpDerived.

Lemma litPrefix_self s rest : litPrefix false s (s ++ rest) = true.
Proof.
  induction s as [|a s IH]; [reflexivity |].
  cbn. by rewrite N.eqb_refl, IH.
Qed.

Lemma indexOf_Some_before s pat : forall n,
  indexOf s pat = Some n ->
  forall j, (j < n)%nat -> startsWith (drop j s) pat = false.
Proof.
  induction s as [|ch s IH]; intros n Hn j Hj; cbn [indexOf] in Hn;
    destruct (startsWith _ pat) eqn:Hs;
    try (injection Hn as <-; lia); try discriminate.
  destruct (indexOf s pat) as [n'|] eqn:Hi; [| discriminate].
  injection Hn as <-.
  destruct j as [|j]; [exact Hs |]. cbn [drop]. apply (IH n'); [done | lia].
Qed.

(** The search passes over the positions where the leading literal does
    not match. *)
Lemma searchFrom_lit_skip i s r : forall pre bef rest,
  (forall j, (j < length pre)%nat ->
             litPrefix i s (drop j (pre ++ rest)) = false) ->
  searchFrom i (Seq (lit s) r) bef (pre ++ rest)
  = searchFrom i (Seq (lit s) r) (rev pre ++ bef) rest.
Proof.
  induction pre as [|ch pre IH]; intros bef rest Hno; [reflexivity |].
  cbn [app searchFrom]. unfold matchAt at 1. cbn [run].
  rewrite run_lit. cbn [after].
  pose proof (Hno 0%nat ltac:(cbn; lia)) as H0. rewrite drop_0 in H0.
  cbn [app] in H0. rewrite H0.
  rewrite IH.
  - cbn [rev]. by rewrite <- app_assoc.
  - intros j Hj. apply (Hno (S j)). cbn. lia.
Qed.

Lemma searchFrom_found i r bef aft m :
  matchAt i r bef aft = Some m -> searchFrom i r bef aft = Some m.
Proof. intros Hm. destruct aft; cbn [searchFrom]; by rewrite Hm. Qed.

(** The greedy [\s*]: if the rest of the pattern succeeds after a run of
    white space, that is the answer, whatever shorter runs would give. *)
Lemma greedy_white_prefix k caps : forall ws bef rest v,
  allWhite ws = true ->
  repeatChars false CSpace true k caps 0 None (rev ws ++ bef) rest = Some v ->
  repeatChars false CSpace true k caps 0 None bef (ws ++ rest) = Some v.
Proof.
  induction ws as [|w ws IH]; intros bef rest v Hws Hin; [exact Hin |].
  cbn in Hws. apply andb_true_iff in Hws as [Hw Hws].
  cbn [app repeatChars predMax Nat.pred Nat.eqb negb].
  unfold matches. cbn [member]. rewrite Hw.
  rewrite (IH (w :: bef) rest v Hws); [reflexivity |].
  cbn [rev] in Hin. by rewrite <- app_assoc in Hin.
Qed.

(** It stops where the white space ends. *)
Lemma greedy_white_stop k caps bef aft :
  match aft with ch :: _ => isWhiteSpace ch = false | [] => True end ->
  repeatChars false CSpace true k caps 0 None bef aft
  = k {| before := bef; after := aft; captures := caps |}.
Proof.
  destruct aft as [|ch aft]; intros Hch; cbn; [reflexivity |].
  unfold matches. cbn [member]. by rewrite Hch.
Qed.





(** [trim] *)
Lemma trimStart_white ws s :
  allWhite ws = true -> trimStart (ws ++ s) = trimStart s.
Proof.
  induction ws as [|w ws IH]; [reflexivity |]. cbn.
  intros [-> Hws]%andb_true_iff. by apply IH.
Qed.

Lemma allWhite_rev ws : allWhite (rev ws) = allWhite ws.
Proof.
  unfold allWhite. induction ws as [|w ws IH]; [reflexivity |].
  cbn [rev]. rewrite forallb_app, IH. cbn. rewrite andb_true_r.
  apply andb_comm.
Qed.

Lemma trim_trimmed body ws :
  trimmed body = true -> allWhite ws = true -> trim (body ++ ws) = body.
Proof.
  unfold trimmed, trim. intros Hb Hws.
  destruct body as [|a body]; [discriminate |].
  destruct (rev (a :: body)) as [|z rbody] eqn:Hrev; [discriminate |].
  apply andb_true_iff in Hb as [Ha Hz].
  apply negb_true_iff in Ha, Hz.
  cbn [app trimStart]. rewrite Ha.
  change (a :: body ++ ws) with ((a :: body) ++ ws).
  rewrite rev_app_distr, trimStart_white by by rewrite allWhite_rev.
  rewrite Hrev. cbn [trimStart]. rewrite Hz.
  by rewrite <- Hrev, rev_involutive.
Qed.

End ScanFacts.

Section ThroughFacts.
Import RegExp RegExpDerived.

(** A matcher succeeds only through its continuation; a pattern without
    groups hands it the captures it was given. *)
Lemma repeatMatcher_through m greedy c :
  (forall x d y, m x d = Some y ->
                 exists z, d z = Some y /\ captures z = captures x) ->
  forall fuel min max x y,
    repeatMatcher m [] greedy c fuel min max x = Some y ->
    exists z, c z = Some y /\ captures z = captures x.
Proof.
  intros Hm. induction fuel as [|fuel IH]; intros min max x y; [done |].
  cbn [repeatMatcher].
  assert (Hround :
    m (clearCaptures [] x)
      (fun y0 =>
         if (min =? 0)%nat && (length (after y0) =? length (after x))%nat
         then None
         else repeatMatcher m [] greedy c fuel (Nat.pred min) (predMax max) y0)
    = Some y ->
    exists z, c z = Some y /\ captures z = captures x).
  { intros Hr. apply Hm in Hr as (z1 & Hd & Hcap).
    destruct ((min =? 0)%nat && (length (after z1) =? length (after x))%nat);
      [discriminate |].
    apply IH in Hd as (z & Hc & Hcap'). exists z. split; [done |].
    rewrite Hcap', Hcap. unfold clearCaptures. cbn [captures].
    apply filter_notin_nil. }
  assert (Hhere : c x = Some y ->
                  exists z, c z = Some y /\ captures z = captures x)
    by (intros Hc; by exists x).
  destruct max as [[|n]|]; [exact Hhere | |];
    (destruct (negb (min =? 0)%nat); [exact Hround |]);
    destruct greedy; unfold orTry;
    match goal with
    | |- context [match ?a with Some _ => _ | None => _ end] =>
        destruct a eqn:Ha
    end; intros Heq;
    try (rewrite <- Heq in *; clear Heq);
    auto.
Qed.

Lemma run_groupfree i r : forall x c y,
  groupsOf r = [] ->
  run i r x c = Some y ->
  exists z, c z = Some y /\ captures z = captures x.
Proof.
  induction r as [|s|r1 IH1 r2 IH2|r1 IH1 r2 IH2|r0 IH min max greedy
                 |n r0 IH| | |]; intros x c y Hg; cbn [run].
  - intros Hc. by exists x.
  - destruct (after x) as [|ch rest]; [done |].
    destruct (matches i s ch); [| done]. intros Hc. eexists. by split.
  - cbn [groupsOf] in Hg. apply app_eq_nil in Hg as [Hg1 Hg2].
    intros Hr. apply IH1 in Hr as (z1 & Hr & Hcap1); [| done].
    apply IH2 in Hr as (z & Hc & Hcap2); [| done].
    exists z. split; [done | congruence].
  - cbn [groupsOf] in Hg. apply app_eq_nil in Hg as [Hg1 Hg2].
    unfold orTry. destruct (run i r1 x c) eqn:H1.
    + intros [= <-]. by apply IH1 in H1.
    + intros H2. by apply IH2 in H2.
  - cbn [groupsOf] in Hg. rewrite Hg.
    apply repeatMatcher_through. intros x0 d y0. by apply IH.
  - discriminate Hg.
  - destruct (before x); [| done]. intros Hc. by exists x.
  - destruct (after x); [| done]. intros Hc. by exists x.
  - destruct (xorb _ _); [| done]. intros Hc. by exists x.
Qed.

Lemma searchFrom_inv i r : forall aft bef m,
  searchFrom i r bef aft = Some m ->
  exists bef' aft', matchAt i r bef' aft' = Some m.
Proof.
  induction aft as [|ch aft IH]; intros bef m; cbn [searchFrom];
    destruct (matchAt i r bef _) eqn:Hm; try done.
  - intros [= <-]. eauto.
  - intros [= <-]. eauto.
  - apply IH.
Qed.

(** Any matcher succeeds only through its continuation. *)
Lemma run_through i r : forall x c y,
  run i r x c = Some y -> exists z, c z = Some y.
Proof.
  induction r as [|s|r1 IH1 r2 IH2|r1 IH1 r2 IH2|r0 IH min max greedy
                 |n r0 IH| | |]; intros x c y; cbn [run].
  - eauto.
  - destruct (after x); [done |]. destruct (matches _ _ _); [eauto | done].
  - intros Hr. apply IH1 in Hr as (z1 & Hr). by apply IH2 in Hr.
  - unfold orTry. destruct (run i r1 x c) eqn:H1.
    + intros [= <-]. by apply IH1 in H1.
    + apply IH2.
  - generalize (S (min + length (after x))). intros fuel. revert min max x.
    induction fuel as [|fuel IHf]; intros min max x; [done |].
    cbn [repeatMatcher].
    assert (Hround : forall xr,
      run i r0 xr
        (fun y1 =>
           if (min =? 0)%nat && (length (after y1) =? length (after x))%nat
           then None
           else repeatMatcher (run i r0) (groupsOf r0) greedy c fuel
                  (Nat.pred min) (predMax max) y1) = Some y ->
      exists z, c z = Some y).
    { intros xr Hr. apply IH in Hr as (z1 & Hd).
      destruct (_ && _); [done |]. by apply IHf in Hd. }
    destruct max as [[|k]|]; [eauto | |];
      (destruct (negb (min =? 0)%nat); [apply Hround |]);
      destruct greedy; unfold orTry;
      match goal with
      | |- context [match ?a with Some _ => _ | None => _ end] =>
          destruct a eqn:Ha
      end; intros Heq; try (rewrite <- Heq in *; clear Heq); eauto.
  - intros Hr. apply IH in Hr as (z & Hr). eauto.
  - destruct (before x); [eauto | done].
  - destruct (after x); [eauto | done].
  - destruct (xorb _ _); [eauto | done].
Qed.

(** [(group 1) suffix], the suffix without groups: when it matches,
    [match[1]] is defined. *)
Lemma definesGroup1_group i inner post :
  groupsOf post = [] -> definesGroup1 i (Seq (Group 1 inner) post).
Proof.
  intros Hpost x y Hrun. rewrite run_Seq, run_Group in Hrun.
  apply run_through in Hrun as (z & Hrun).
  apply run_groupfree in Hrun as (z' & [= <-] & Hcap); [| done].
  rewrite Hcap. unfold setCapture. cbn [captures find fst Nat.eqb]. eauto.
Qed.

(** A prefix in front of such a pattern does not change that. *)
Lemma definesGroup1_prefix i pre r :
  definesGroup1 i r -> definesGroup1 i (Seq pre r).
Proof.
  intros Hr x y Hrun. rewrite run_Seq in Hrun.
  apply run_through in Hrun as (z & Hrun). by apply (Hr z).
Qed.

Lemma exec_group1 i r content m :
  definesGroup1 i r -> exec i r content = Some m ->
  exists s, group 1 m = Some s.
Proof.
  intros Hr Hexec. apply searchFrom_inv in Hexec as (bef & aft & Hm).
  unfold matchAt in Hm.
  destruct (run _ _ _ _) as [y|] eqn:Hrun; [| done]. injection Hm as <-.
  apply Hr in Hrun as (s & Hs). exists s. unfold group. cbn [groups].
  by rewrite Hs.
Qed.
End ThroughFacts.

(** ** The ticket field parser *)

Section ParserFacts.
Import RegExp RegExpDerived FormattedTicket TicketFormat.



(** [(?:\n━|$)] fails inside a text that has no line break followed by
    a box character. *)







(** The title *)



Lemma nonwhite_not_terminator ch :
  isWhiteSpace ch = false -> isLineTerminator ch = false.
Proof.
  unfold isWhiteSpace, isLineTerminator.
  repeat match goal with
         | |- context [(?x <=? ?y)%N] => destruct (N.leb_spec x y)
         | |- context [(?x =? ?y)%N] => destruct (N.eqb_spec x y)
         end; cbn; intros; try discriminate; try reflexivity; lia.
Qed.




(** The priority *)
Lemma searchFrom_anchored i r : forall aft bef,
  bef <> [] -> searchFrom i (Seq AssertStart r) bef aft = None.
Proof.
  induction aft as [|ch aft IH]; intros [|b bef] Hne; try done;
    cbn [searchFrom]; unfold matchAt; cbn [run before]; try reflexivity.
  by apply IH.
Qed.

Lemma validCode_sound s :
  test false validCodePattern s = true -> s ∈ priorityCodes.
Proof.
  unfold test, exec, validCodePattern.
  destruct s as [|c1 s]; [discriminate |].
  cbn [searchFrom]. rewrite searchFrom_anchored by discriminate.
  unfold matchAt. cbn [run before after captures].
  unfold matches. cbn [member].
  destruct (N.eqb_spec c1 80) as [->|]; [| discriminate].
  destruct s as [|c2 s]; [discriminate |]. cbn [after].
  destruct (N.leb_spec 49 c2); [| discriminate].
  destruct (N.leb_spec c2 52); [| discriminate].
  cbn [andb after]. destruct s as [|c3 s]; [| discriminate].
  intros _.
  assert (Hc : (c2 = 49 \/ c2 = 50 \/ c2 = 51 \/ c2 = 52)%N) by lia.
  unfold priorityCodes.
  destruct Hc as [-> | [-> | [-> | ->]]]; set_solver.
Qed.

Lemma resolvePriorityText_valid o : resolvePriorityText o ∈ priorityCodes.
Proof.
  unfold resolvePriorityText.
  destruct o as [[|ch s]|]; try (unfold priorityCodes; set_solver).
  destruct (test false validCodePattern (ch :: s)) eqn:Ht.
  - by apply validCode_sound.
  - unfold priorityCodes; set_solver.
Qed.

Lemma priorityOf_valid code :
  code ∈ priorityCodes ->
  snd (priorityOf code) = code /\
  priorityIdMap code = Some (fst (priorityOf code)).
Proof.
  unfold priorityCodes. intros Hp.
  repeat (apply elem_of_cons in Hp as [-> | Hp];
          [split; reflexivity |]).
  by apply elem_of_nil in Hp.
Qed.

(** The parser never throws: each of its patterns defines the group it
    reads. *)
Lemma titlePattern_group : definesGroup1 false titlePattern.
Proof.
  unfold titlePattern.
  do 2 apply definesGroup1_prefix. by apply definesGroup1_group.
Qed.

Lemma sectionPattern_group label : definesGroup1 false (sectionPattern label).
Proof.
  unfold sectionPattern.
  do 3 apply definesGroup1_prefix. by apply definesGroup1_group.
Qed.

Lemma trimmedGroup_total r content dflt :
  definesGroup1 false r ->
  exists s, trimmedGroup (exec false r content) dflt = Normal s.
Proof.
  intros Hr. unfold trimmedGroup.
  destruct (exec false r content) as [m|] eqn:Hexec; [| eauto].
  destruct (exec_group1 _ _ _ _ Hr Hexec) as (s & ->). eauto.
Qed.

(** What a result of the parser is made of. *)
Lemma parse_inversion content fields :
  parseTicketForJira content = Normal fields ->
  let section label :=
    trimmedGroup (exec false (sectionPattern label) content) [] in
  let priority :=
    priorityOf (resolvePriorityText (extractPriorityText content)) in
  trimmedGroup (exec false titlePattern content) (js "Bug Report")
    = Normal (title fields)
  /\ section "Description"%string = Normal (description fields)
  /\ section "Steps to Reproduce"%string = Normal (steps fields)
  /\ section "Expected Behaviour"%string = Normal (expected fields)
  /\ section "Actual Behaviour"%string = Normal (actual fields)
  /\ section "Impact"%string = Normal (impact fields)
  /\ section "Environment"%string = Normal (environment fields)
  /\ priorityId fields = fst priority
  /\ priorityName fields = snd priority.
Proof.
  unfold parseTicketForJira. cbv zeta.
  repeat match goal with
         | |- context [trimmedGroup ?m ?d] =>
             destruct (trimmedGroup m d); cbn; [| discriminate]
         end.
  intros [= <-]. cbn. repeat split.
Qed.

Lemma parse_total content :
  exists fields, parseTicketForJira content = Normal fields.
Proof.
  unfold parseTicketForJira.
  destruct (trimmedGroup_total titlePattern content (js "Bug Report")
              titlePattern_group) as (t & ->).
  destruct (trimmedGroup_total _ content []
              (sectionPattern_group "Description")) as (d & ->).
  destruct (trimmedGroup_total _ content []
              (sectionPattern_group "Steps to Reproduce")) as (s & ->).
  destruct (trimmedGroup_total _ content []
              (sectionPattern_group "Expected Behaviour")) as (e & ->).
  destruct (trimmedGroup_total _ content []
              (sectionPattern_group "Actual Behaviour")) as (a & ->).
  destruct (trimmedGroup_total _ content []
              (sectionPattern_group "Impact")) as (i & ->).
  destruct (trimmedGroup_total _ content []
              (sectionPattern_group "Environment")) as (v & ->).
  cbn. eauto.
Qed.

Lemma parse_priority content fields :
  parseTicketForJira content = Normal fields ->
  priorityName fields ∈ priorityCodes /\
  priorityIdMap (priorityName fields) = Some (priorityId fields).
Proof.
  intros Hparse. apply parse_inversion in Hparse. cbv zeta in Hparse.
  destruct Hparse as (_ & _ & _ & _ & _ & _ & _ & -> & ->).
  pose proof (resolvePriorityText_valid (extractPriorityText content)) as Hp.
  destruct (priorityOf_valid _ Hp) as [-> Hmap]. done.
Qed.


End ParserFacts.

Section ParserClaims.
Import RegExp RegExpDerived FormattedTicket TicketFormat.




(** The sample ticket, run through the parser. *)
Example parse_sampleTicket :
parseTicketForJira sampleTicket = Normal sampleFields.
Proof. vm_compute. reflexivity. Qed.

(** The title ends at a line feed: blanks before it are dropped, a
  carriage return before it leaves the pattern without a match, and the
  title is the placeholder. *)
Example parse_title_line_ends :
(title <$> parseTicketForJira (js "**Title:** Login fails  " ++ [newline]))
= Normal (js "Login fails")
/\ (title <$> parseTicketForJira
               (js "**Title:** Login fails" ++ [13%N; newline]))
   = Normal (js "Bug Report").
Proof. split; vm_compute; reflexivity. Qed.

(** A priority without bold markup is found by the fallback patterns. *)
Example parse_unbolded_priority :
(priorityName <$> parseTicketForJira (js "Priority: p1")) = Normal (js "P1")
/\ (priorityName <$> parseTicketForJira (js "priority P4")) = Normal (js "P4")
/\ (priorityName <$> parseTicketForJira (js "PRIORITY:**  p2."))
   = Normal (js "P2")
/\ (priorityName <$> parseTicketForJira (js "**priority:** is surely P1!"))
   = Normal (js "P1")
/\ (priorityName <$> parseTicketForJira (js "**Priority:** P22"))
   = Normal (js "P3").
Proof. repeat split; vm_compute; reflexivity. Qed.
End ParserClaims.

(** ** The push proxy *)

Section PushFacts.
Import PushToJira PushSpec PushEvents.

Lemma noCreate_app l1 l2 : noCreate l1 -> noCreate l2 -> noCreate (l1 ++ l2).
Proof. apply Forall_app_2. Qed.

Lemma noCreate_not_in l url payload :
  noCreate l -> CreateIssue url payload ∉ l.
Proof.
  intros Hl Hin. unfold noCreate in Hl. rewrite Forall_forall in Hl.
  apply list_elem_of_In in Hin. specialize (Hl _ Hin). discriminate.
Qed.

Lemma getEngineeringTeamId_noCreate w clean pk team :
  noCreate (snd (getEngineeringTeamId w clean pk team)).
Proof.
  unfold getEngineeringTeamId.
  destruct (lookupTeamId team _); repeat constructor.
Qed.

Lemma engineeringTeamField_noCreate w clean pk c :
  noCreate (snd (engineeringTeamField w clean pk c)).
Proof.
  unfold engineeringTeamField.
  destruct (truthy (engineeringTeam c)); [| repeat constructor].
  destruct (trim _); [repeat constructor |].
  pose proof (getEngineeringTeamId_noCreate w clean pk (n :: l)) as Hg.
  destruct (getEngineeringTeamId w clean pk (n :: l)) as [tid logged].
  cbn [snd] in Hg.
  destruct (truthyValue tid); cbn [snd];
    apply noCreate_app; try done; repeat constructor.
Qed.

Lemma buildPayload_noCreate w clean pk f custom :
  noCreate (snd (buildPayload w clean pk f custom)).
Proof.
  unfold buildPayload. destruct custom as [c|]; [| repeat constructor].
  pose proof (engineeringTeamField_noCreate w clean pk c) as Hc.
  destruct (engineeringTeamField w clean pk c) as [team events].
  exact Hc.
Qed.

Lemma uploadFrom_noCreate w key : forall atts i,
  noCreate (fst (uploadFrom w key i atts)).
Proof.
  induction atts as [|[a|] rest IH]; intros i; [constructor | | constructor].
  cbn [uploadFrom]. specialize (IH (S i)).
  destruct (uploadFrom w key (S i) rest) as [events answer].
  cbn [fst] in IH.
  destruct (data a); [| by apply noCreate_app; [repeat constructor |]].
  destruct (uploadFetch w key i a) as [msg|r];
    [by apply noCreate_app; [repeat constructor |] |].
  destruct (ok r); [by apply noCreate_app; [repeat constructor |] |].
  destruct (text r); [| by apply noCreate_app; [repeat constructor |]].
  destruct (httpStatus r =? 413); cbn [fst];
    [repeat constructor | by apply noCreate_app; [repeat constructor |]].
Qed.

Lemma uploadAttachments_noCreate w key atts :
  noCreate (fst (uploadAttachments w key atts)).
Proof.
  unfold uploadAttachments. destruct atts as [[|a rest]|]; try constructor.
  destruct (importFormData w); [| repeat constructor].
  pose proof (uploadFrom_noCreate w key (a :: rest) 0) as Hu.
  destruct (uploadFrom w key 0 (a :: rest)) as [events [[early|]|]];
    cbn [fst] in *; [done | |];
    (apply noCreate_app; [done | repeat constructor]).
Qed.

(** The submission performs exactly one issue creation, first, with the
    payload it was given; what follows are uploads and log lines. *)
Lemma submit_events w clean payload atts :
  exists rest,
    snd (submit w clean payload atts)
    = CreateIssue (clean ++ js "/rest/api/2/issue") payload :: rest
    /\ noCreate rest.
Proof.
  unfold submit.
  destruct (createFetch w _ payload) as [msg|r];
    [eexists; split; [done | constructor] |].
  destruct (ok r); cbn [negb].
  - destruct (json r) as [issue|]; [| eexists; split; [done | constructor]].
    destruct (getProp (Some issue) (js "key")) as [k|];
      [| eexists; split; [done | constructor]].
    pose proof (uploadAttachments_noCreate w k atts) as Hu.
    destruct (uploadAttachments w k atts) as [events [early|]];
      cbn [fst] in Hu; eexists; (split; [reflexivity | exact Hu]).
  - destruct (text r); eexists; (split; [reflexivity | constructor]).
Qed.

(** An accepted request is processed up to the submission. *)
Lemma handler_accepted w m now req b f :
  accepts w m now req b f ->
  let clean := removeTrailingSlash (interpolate (jiraUrl b)) in
  let built := buildPayload w clean (interpolate (projectKey b)) f
                 (customFields b) in
  let sent := submit w clean (fst built) (attachments b) in
  handler w m now req
  = (fst (limit m (callerKey req) now), fst sent, snd built ++ snd sent).
Proof.
  intros (Hlim & Hcors & Hmeth & Hbody & Hfields & Hu & He & Ha & Hp
          & Hvalid).
  cbv zeta. unfold handler.
  destruct (limit m (callerKey req) now) as [m' v]. cbn [snd fst] in *.
  subst v. unfold setsAllowOrigin in Hcors.
  destruct (setHeader (allowOrigin w req)) as [value|]; [| done].
  rewrite Hmeth.
  rewrite bool_decide_eq_false_2 by discriminate.
  rewrite bool_decide_eq_true_2 by reflexivity. cbn [negb].
  unfold process. rewrite Hbody, Hfields, Hu, He, Ha, Hp, Hvalid.
  cbn [andb negb].
  destruct (buildPayload _ _ _ _ _) as [payload looked].
  destruct (submit _ _ _ _) as [answer events]. reflexivity.
Qed.

(** Whatever issue creation the handler performs carries the payload
    built from the body of the request. *)
Lemma handler_create w m now req url payload :
  CreateIssue url payload ∈ snd (handler w m now req) ->
  exists b f,
    body req = Some b /\ fields b = Some f /\
    payload = fst (buildPayload w
                     (removeTrailingSlash (interpolate (jiraUrl b)))
                     (interpolate (projectKey b)) f (customFields b)).
Proof.
  unfold handler.
  destruct (limit m (callerKey req) now) as [m' [|status err]];
    [| intros Hin; by apply elem_of_nil in Hin].
  destruct (setHeader (allowOrigin w req)) as [value|];
    [| intros Hin; by apply elem_of_nil in Hin].
  destruct (bool_decide (method req = js "OPTIONS"));
    [intros Hin; by apply elem_of_nil in Hin |].
  destruct (negb (bool_decide (method req = js "POST")));
    [intros Hin; by apply elem_of_nil in Hin |].
  unfold process.
  destruct (body req) as [b|] eqn:Hbody;
    [| intros Hin; by apply elem_of_nil in Hin].
  destruct (fields b) as [f|] eqn:Hfields;
    [| intros Hin; by apply elem_of_nil in Hin].
  destruct (truthy (jiraUrl b) && truthy (email b) && truthy (apiToken b)
            && truthy (projectKey b));
    [| intros Hin; by apply elem_of_nil in Hin].
  destruct (negb (valid _)); [intros Hin; by apply elem_of_nil in Hin |].
  pose proof (buildPayload_noCreate w
                (removeTrailingSlash (interpolate (jiraUrl b)))
                (interpolate (projectKey b)) f (customFields b)) as Hb.
  destruct (buildPayload _ _ _ _ _) as [built looked] eqn:Hbuilt.
  cbn [snd fst] in *.
  destruct (submit_events w (removeTrailingSlash (interpolate (jiraUrl b)))
              built (attachments b)) as (rest & Hsub & Hrest).
  destruct (submit _ _ _ _) as [answer events]. cbn [snd] in *. subst events.
  intros Hin. exists b, f. split; [reflexivity |]. split; [exact Hfields |].
  apply elem_of_app in Hin as [Hin | Hin];
    [exfalso; by apply (noCreate_not_in _ _ _ Hb) in Hin |].
  apply elem_of_cons in Hin as [Heq | Hin];
    [rewrite Hbuilt; cbn [fst]; congruence
    | exfalso; by apply (noCreate_not_in _ _ _ Hrest) in Hin].
Qed.

Lemma orDefault_nonempty x dflt : dflt <> [] -> orDefault x dflt <> [].
Proof.
  unfold orDefault, orElse. intros Hd.
  destruct x as [[|ch s]|]; cbn; done.
Qed.

Lemma orDefault_truthy s dflt : s <> [] -> orDefault (Some s) dflt = s.
Proof. destruct s; [done | reflexivity]. Qed.

Lemma priorityCode_nonempty code idv :
  FormattedTicket.priorityIdMap code = Some idv -> code <> [] /\ idv <> [].
Proof.
  unfold FormattedTicket.priorityIdMap.
  repeat case_bool_decide; intros [= <-]; subst; done.
Qed.

(** The lookup *)
Lemma findFirst_Some pred : forall options el,
  findFirst pred options = Normal (Some el) ->
  el ∈ options /\ pred el = Normal true.
Proof.
  induction options as [|o options IH]; intros el; cbn; [discriminate |].
  destruct (pred o) as [[|]|] eqn:Hp; cbn; try discriminate.
  - intros [= <-]. split; [left | exact Hp].
  - intros Hf. destruct (IH _ Hf). split; [by right | done].
Qed.

Lemma getEngineeringTeamId_none w clean pk team :
  lookupFails w (createmetaUrl clean pk)
  \/ noMatchingOption w (createmetaUrl clean pk) team ->
  fst (getEngineeringTeamId w clean pk team) = None.
Proof.
  unfold getEngineeringTeamId, lookupTeamId, lookupFails, noMatchingOption.
  destruct (metadataFetch w _) as [msg|r]; [reflexivity |].
  destruct (ok r); [| reflexivity].
  destruct (json r) as [metadata|] eqn:Hjson; [| reflexivity].
  intros [[Hf | Hf] | Hno]; try discriminate.
  destruct (allowedValuesOf metadata) as [[allowed|]|] eqn:Hallowed;
    cbn; try reflexivity.
  destruct allowed as [| | | |options|]; cbn; try reflexivity.
  destruct (findFirst (optionMatches team) options) as [[el|]|] eqn:Hfind;
    cbn; try reflexivity.
  apply findFirst_Some in Hfind as [Hel Hpred].
  by destruct (Hno r metadata options eq_refl Hjson Hallowed el Hel).
Qed.

(** The lookup does the metadata request first; what follows is logged. *)
Lemma getEngineeringTeamId_events w clean pk team :
  exists logged,
    snd (getEngineeringTeamId w clean pk team)
    = FetchMetadata (createmetaUrl clean pk) :: logged /\
    Forall (fun e => exists line, e = Log line) logged.
Proof.
  unfold getEngineeringTeamId.
  destruct (lookupTeamId team _); eexists; (split; [reflexivity |]);
    repeat constructor; by eexists.
Qed.


(** The only answer the loop returns by itself is "too large". *)
Lemma uploadFrom_early w key : forall atts i early,
  snd (uploadFrom w key i atts) = Normal (Some early) -> early = tooLarge.
Proof.
  induction atts as [|[a|] rest IH]; intros i early; cbn [uploadFrom];
    [discriminate | | discriminate].
  specialize (IH (S i) early).
  destruct (uploadFrom w key (S i) rest) as [events outcome].
  cbn [snd] in *.
  destruct (data a); [| exact IH].
  destruct (uploadFetch w key i a) as [msg|r]; [exact IH |].
  destruct (ok r); [exact IH |].
  destruct (text r); [| exact IH].
  destruct (httpStatus r =? 413); [| exact IH].
  cbn [snd]. congruence.
Qed.

(** The answer of the upload stage, when it has one, is "too large". *)
Lemma uploadAttachments_early w key atts early :
  snd (uploadAttachments w key atts) = Some early -> early = tooLarge.
Proof.
  unfold uploadAttachments. destruct atts as [[|a rest]|]; try discriminate.
  destruct (importFormData w); [| discriminate].
  pose proof (uploadFrom_early w key (a :: rest) 0) as Hu.
  destruct (uploadFrom w key 0 (a :: rest)) as [events [[e|]|]];
    cbn [snd] in *; try discriminate.
  intros [= <-]. by apply Hu.
Qed.

Lemma uploadFrom_uploads w key : forall atts i,
  Forall uploadOrLog (fst (uploadFrom w key i atts)).
Proof.
  induction atts as [|[a|] rest IH]; intros i; [constructor | | constructor].
  cbn [uploadFrom]. specialize (IH (S i)).
  destruct (uploadFrom w key (S i) rest) as [events answer].
  cbn [fst] in IH.
  destruct (data a); [| by apply Forall_app_2; [repeat constructor |]].
  destruct (uploadFetch w key i a) as [msg|r];
    [by apply Forall_app_2; [repeat constructor |] |].
  destruct (ok r); [by apply Forall_app_2; [repeat constructor |] |].
  destruct (text r); [| by apply Forall_app_2; [repeat constructor |]].
  destruct (httpStatus r =? 413); cbn [fst];
    [by repeat constructor | by apply Forall_app_2; [repeat constructor |]].
Qed.

(** The submission performs the issue creation first; what follows are
    uploads and log lines only. *)
Lemma submit_shape w clean payload atts :
  exists rest,
    snd (submit w clean payload atts)
    = CreateIssue (clean ++ js "/rest/api/2/issue") payload :: rest
    /\ Forall uploadOrLog rest.
Proof.
  unfold submit.
  destruct (createFetch w _ payload) as [msg|r];
    [eexists; split; [done | constructor] |].
  destruct (ok r); cbn [negb].
  - destruct (json r) as [issue|]; [| eexists; split; [done | constructor]].
    destruct (getProp (Some issue) (js "key")) as [k|];
      [| eexists; split; [done | constructor]].
    assert (Hu : Forall uploadOrLog (fst (uploadAttachments w k atts))).
    { unfold uploadAttachments. destruct atts as [[|a rest]|]; try constructor.
      destruct (importFormData w); [| by repeat constructor].
      pose proof (uploadFrom_uploads w k (a :: rest) 0) as Hu.
      destruct (uploadFrom w k 0 (a :: rest)) as [events [[early|]|]];
        cbn [fst] in *; [done | |];
        (apply Forall_app_2; [done | by repeat constructor]). }
    destruct (uploadAttachments w k atts) as [events [early|]];
      eexists; (split; [done | exact Hu]).
  - destruct (text r); eexists; (split; [done | constructor]).
Qed.

(** What a submission answers once Jira has created the issue. *)
Lemma submit_created w clean payload atts r issue issueKey :
  createFetch w (clean ++ js "/rest/api/2/issue") payload = Responded r ->
  ok r = true -> json r = Some issue ->
  getProp (Some issue) (js "key") = Normal issueKey ->
  fst (submit w clean payload atts)
  = match snd (uploadAttachments w issueKey atts) with
    | Some early => early
    | None => Respond 200 (CreatedBody issue (clean ++ js "/browse/"))
    end.
Proof.
  intros Hcreate Hok Hjson Hkey. unfold submit.
  rewrite Hcreate, Hok, Hjson, Hkey. cbn [negb].
  by destruct (uploadAttachments w issueKey atts) as [events [early|]].
Qed.

(** A submission answers: nothing it does is left uncaught. *)
Lemma submit_answers w clean payload atts :
  fst (submit w clean payload atts) <> Uncaught.
Proof.
  unfold submit.
  destruct (createFetch w _ payload) as [msg|r]; [discriminate |].
  destruct (negb (ok r)); [by destruct (text r) |].
  destruct (json r) as [issue|]; [| discriminate].
  destruct (getProp (Some issue) (js "key")) as [k|]; [| discriminate].
  pose proof (uploadAttachments_early w k atts) as Hu.
  destruct (uploadAttachments w k atts) as [events [early|]];
    cbn [fst snd] in *; [| discriminate].
  by rewrite (Hu early eq_refl).
Qed.

End PushFacts.

Section PushClaims.
Import PushToJira PushSpec.

(** C4. Whenever the push proxy creates an issue, the payload it sends has
  issue type "Bug" and a priority whose id and name are both present
  (non-empty strings). When the fields of the request are those of the
  client parser, id and name are the parser's and agree under the table
  P1->"1", P2->"2", P3->"3", P4->"4", which is injective: no two codes
  share an identifier. *)
Theorem payload_is_bug_with_priority
  (w : World) (rateLimitMap : gmap jsstring Entry) (now : Z)
  (req : Request) (url : jsstring) (payload : JiraPayload) :
CreateIssue url payload ∈ snd (handler w rateLimitMap now req) ->
issuetype_name payload = js "Bug" /\
id (priority payload) <> [] /\ name (priority payload) <> [] /\
(forall b ticketContent parsed,
   FormattedTicket.parseTicketForJira ticketContent = Normal parsed ->
   body req = Some b ->
   fields b = Some (ofParsed parsed) ->
   id (priority payload) = FormattedTicket.priorityId parsed /\
   name (priority payload) = FormattedTicket.priorityName parsed /\
   name (priority payload) ∈ TicketFormat.priorityCodes /\
   FormattedTicket.priorityIdMap (name (priority payload))
     = Some (id (priority payload))) /\
(FormattedTicket.priorityIdMap (js "P1") = Some (js "1") /\
 FormattedTicket.priorityIdMap (js "P2") = Some (js "2") /\
 FormattedTicket.priorityIdMap (js "P3") = Some (js "3") /\
 FormattedTicket.priorityIdMap (js "P4") = Some (js "4")) /\
(forall code code' tracker,
   FormattedTicket.priorityIdMap code = Some tracker ->
   FormattedTicket.priorityIdMap code' = Some tracker ->
   code = code').
Proof.
intros Hin.
destruct (handler_create _ _ _ _ _ _ Hin) as (b & f & Hbody & Hfields & ->).
unfold buildPayload.
destruct (match customFields b with
          | Some c => engineeringTeamField w _ _ c
          | None => (None, [])
          end) as [team events].
cbn [fst issuetype_name priority id name].
split; [reflexivity |].
split; [by apply orDefault_nonempty |].
split; [by apply orDefault_nonempty |].
split; [| split; [repeat split |]].
- intros b' ticketContent parsed Hparse Hb' Hf'.
  rewrite Hbody in Hb'. injection Hb' as <-.
  rewrite Hfields in Hf'. injection Hf' as ->.
  cbn [ofParsed f_priorityId f_priorityName].
  destruct (parse_priority ticketContent parsed Hparse) as [Hcode Hmap].
  destruct (priorityCode_nonempty _ _ Hmap) as [Hn Hi].
  rewrite !orDefault_truthy by done. done.
- intros code code' tracker.
  unfold FormattedTicket.priorityIdMap.
  repeat case_bool_decide; intros [= <-] [=]; congruence.
Qed.

Lemma sample_accepted :
accepts PushSample.world ∅ 0 PushSample.request PushSample.requestBody
  (ofParsed FormattedTicket.sampleFields).
Proof.
repeat split; try (vm_compute; reflexivity). vm_compute. discriminate.
Qed.

Lemma payload_is_bug_with_priority_witness :
exists url payload,
  CreateIssue url payload
    ∈ snd (handler PushSample.world ∅ 0 PushSample.request) /\
  issuetype_name payload = js "Bug" /\
  id (priority payload) = js "2" /\ name (priority payload) = js "P2".
Proof.
pose proof (handler_accepted _ _ _ _ _ _ sample_accepted) as Hh.
cbv zeta in Hh.
set (built := buildPayload _ _ _ _ _) in Hh.
destruct (submit_events PushSample.world
            (removeTrailingSlash (interpolate (jiraUrl PushSample.requestBody)))
            (fst built) (attachments PushSample.requestBody))
  as (rest & Hsub & _).
assert (Hin : CreateIssue
                (removeTrailingSlash
                   (interpolate (jiraUrl PushSample.requestBody))
                 ++ js "/rest/api/2/issue") (fst built)
              ∈ snd (handler PushSample.world ∅ 0 PushSample.request)).
{ rewrite Hh. cbn [snd]. rewrite Hsub. apply elem_of_app. right. left. }
eexists _, (fst built). split; [exact Hin |].
destruct (payload_is_bug_with_priority _ _ _ _ _ _ Hin)
  as (Hbug & _ & _ & Hparsed & _).
split; [exact Hbug |].
destruct (Hparsed PushSample.requestBody FormattedTicket.sampleTicket
            FormattedTicket.sampleFields parse_sampleTicket
            eq_refl eq_refl) as (Hid & Hname & _).
rewrite Hid, Hname. split; vm_compute; reflexivity.
Defined.

(** C5. For an accepted submission with an engineering-team value (not
  blank), when the metadata lookup fails or lists no matching option the
  issue is still created: after the metadata request, and the warning of
  the lookup when it threw, the handler logs the value-only warning and
  sends the one issue creation, whose payload carries the team value
  alone, without identifier. The lookup is best-effort: nothing of it
  reaches the caller, whose answer is the answer of the submission of
  this payload, never an exception left uncaught; when Jira creates the
  issue it is 200 with the issue, or 413 for an attachment. *)
Theorem engineering_team_lookup_is_best_effort
  (w : World) (rateLimitMap : gmap jsstring Entry) (now : Z)
  (req : Request) (b : Body) (f : TicketFields) (c : CustomFields)
  (team : jsstring) :
accepts w rateLimitMap now req b f ->
customFields b = Some c ->
engineeringTeam c = Some team ->
trim team <> [] ->
let clean := removeTrailingSlash (interpolate (jiraUrl b)) in
let metadataUrl := createmetaUrl clean (interpolate (projectKey b)) in
let issueUrl := clean ++ js "/rest/api/2/issue" in
lookupFails w metadataUrl \/ noMatchingOption w metadataUrl (trim team) ->
let events := snd (handler w rateLimitMap now req) in
let answer := snd (fst (handler w rateLimitMap now req)) in
exists payload logged rest,
  events = FetchMetadata metadataUrl :: logged
             ++ Log TeamValueOnly :: CreateIssue issueUrl payload :: rest /\
  (logged = [] \/ logged = [Log MetadataWarning]) /\
  noCreate rest /\
  customfield_11737 payload
    = Some {| team_id := None; team_value := trim team |} /\
  answer = fst (submit w clean payload (attachments b)) /\
  answer <> Uncaught /\
  (forall r issue issueKey,
     createFetch w issueUrl payload = Responded r -> ok r = true ->
     json r = Some issue ->
     getProp (Some issue) (js "key") = Normal issueKey ->
     answer = Respond 200 (CreatedBody issue (clean ++ js "/browse/"))
     \/ answer = tooLarge).
Proof.
intros Hacc Hcustom Hteam Htrim. cbv zeta. intros Hlookup.
rewrite (handler_accepted _ _ _ _ _ _ Hacc). cbn [fst snd].
set (clean := removeTrailingSlash (interpolate (jiraUrl b))) in *.
set (pk := interpolate (projectKey b)) in *.
assert (Hbuilt :
  exists logged,
    (logged = [] \/ logged = [Log MetadataWarning]) /\
    buildPayload w clean pk f (customFields b)
    = ({| project_key := pk;
          summary := f_title f;
          description := jiraDescription f;
          issuetype_name := js "Bug";
          priority := {| id := orDefault (f_priorityId f) (js "3");
                         name := orDefault (f_priorityName f) (js "P3") |};
          customfield_11888 := whenTruthy (instance c);
          customfield_11924 := whenTruthy (productLine c);
          components := (fun n => [n]) <$> whenTruthy (component c);
          customfield_11744 := whenTruthy (foundVersion c);
          customfield_11737 :=
            Some {| team_id := None; team_value := trim team |} |},
       FetchMetadata (createmetaUrl clean pk) :: logged
         ++ [Log TeamValueOnly])).
{ unfold buildPayload, engineeringTeamField. rewrite Hcustom, Hteam.
  assert (Htruthy : truthy (Some team) = true)
    by (destruct team; [done | reflexivity]).
  rewrite Htruthy. cbn [interpolate].
  pose proof (getEngineeringTeamId_none w clean pk (trim team) Hlookup)
    as Hnone.
  destruct (trim team) as [|ch s] eqn:Htr; [done |].
  unfold getEngineeringTeamId in *.
  destruct (lookupTeamId (ch :: s) _) as [found|]; cbn [fst] in Hnone.
  - subst found. cbn [truthyValue]. exists []. split; [by left | done].
  - cbn [truthyValue]. exists [Log MetadataWarning].
    split; [by right | done]. }
destruct Hbuilt as (logged & Hlogged & Hbuilt). rewrite Hbuilt.
cbn [fst snd].
match goal with
| |- context [submit w clean ?p (attachments b)] =>
    destruct (submit_events w clean p (attachments b))
      as (rest & Hsub & Hrest);
    set (payload := p) in *
end.
exists payload, logged, rest. rewrite Hsub.
split; [cbn [app]; by rewrite <- app_assoc |].
split; [exact Hlogged |]. split; [exact Hrest |].
split; [reflexivity |]. split; [reflexivity |].
split; [apply submit_answers |].
intros r issue issueKey Hcreate Hok Hjson Hkey.
rewrite (submit_created _ _ _ _ _ _ _ Hcreate Hok Hjson Hkey).
pose proof (uploadAttachments_early w issueKey (attachments b)) as Hearly.
destruct (uploadAttachments w issueKey (attachments b))
  as [uploaded [early|]]; cbn [snd] in *; [right | by left].
by apply Hearly.
Qed.

Lemma engineering_team_lookup_is_best_effort_witness :
exists url payload,
  CreateIssue url payload
    ∈ snd (handler PushSample.world ∅ 0 PushSample.request) /\
  customfield_11737 payload
    = Some {| team_id := None; team_value := js "Platform" |} /\
  snd (fst (handler PushSample.world ∅ 0 PushSample.request)) = tooLarge.
Proof.
destruct (engineering_team_lookup_is_best_effort PushSample.world ∅ 0
            PushSample.request PushSample.requestBody _
            {| instance := Some (js "Staging");
               productLine := Some (js "Core");
               component := Some (js "Login");
               foundVersion := Some (js "1.2.3");
               engineeringTeam := Some (js " Platform ") |}
            (js " Platform ")
            sample_accepted eq_refl eq_refl)
  as (payload & logged & rest & Hevents & _ & _ & Hteam & Hanswer & _).
- vm_compute. discriminate.
- left. exact I.
- eexists _, payload. split; [| split; [exact Hteam |]].
  + rewrite Hevents. right. apply elem_of_app. right. right. left.
  + rewrite Hanswer. vm_compute. reflexivity.
Defined.



End PushClaims.

(** ** The LLM API key *)

(** C9, as the specification states it, fails for the serverless
    generation function: loaded without the key, it is there and answers
    requests (with an error), instead of failing when it starts. *)
Lemma generation_function_starts_without_key :
  ~ (forall backend, servesRequests backend None = false).
Proof. intros Hclaim. specialize (Hclaim GenerationFunction). discriminate. Qed.

(** C9 (amended). Without the LLM API key (unset or empty) the local
    server exits with code 1 before it listens, so none of its requests is
    ever handled. The serverless generation functions have no start-up
    check: they guard every request instead, answering 500 "API key not
    set" (or, in the rate-limited Netlify function, 429) without calling
    the LLM API. *)
Theorem missing_api_key (env_ANTHROPIC_API_KEY : option jsstring) :
  truthy env_ANTHROPIC_API_KEY = false ->
  Server.start env_ANTHROPIC_API_KEY = Exited 1 /\
  servesRequests LocalServerBackend env_ANTHROPIC_API_KEY = false /\
  (forall anthropicFetch event,
     VercelGenerateTicket.handler
       {| VercelGenerateTicket.ANTHROPIC_API_KEY :=
            VercelGenerateTicket.cleanKey env_ANTHROPIC_API_KEY |}
       anthropicFetch event
     = (VercelGenerateTicket.keyNotSet, []) /\
     GenerateTicket.statusCode VercelGenerateTicket.keyNotSet = 500) /\
  forall anthropicFetch rateLimitMap now event,
    let '(_, answer, events) :=
      GenerateTicket.handler
        {| GenerateTicket.ANTHROPIC_API_KEY := env_ANTHROPIC_API_KEY |}
        anthropicFetch rateLimitMap now event in
    events = [] /\
    (answer = {| GenerateTicket.statusCode := 500;
                 GenerateTicket.body := GenerateTicket.ErrorBody
                   (js "Server configuration error: API key not set") |}
     \/ answer = {| GenerateTicket.statusCode := 429;
                    GenerateTicket.body := GenerateTicket.ErrorBody
                      (js "Too many requests. Please try again in a minute.") |}).
Proof.
  intros Hkey.
  assert (Hstart : Server.start env_ANTHROPIC_API_KEY = Exited 1)
    by (destruct env_ANTHROPIC_API_KEY as [[|ch key]|]; done).
  split; [exact Hstart |].
  split; [unfold servesRequests; by rewrite Hstart |].
  split.
  { intros anthropicFetch event. unfold VercelGenerateTicket.cleanKey.
    rewrite Hkey. split; reflexivity. }
  intros anthropicFetch rateLimitMap now event.
  unfold GenerateTicket.handler, GenerateTicket.limit, serverlessLimit.
  cbn [GenerateTicket.ANTHROPIC_API_KEY].
  destruct (rateLimitMap !! GenerateTicket.callerKey event) as [e|];
    repeat match goal with
           | |- context [if ?b then _ else _] => destruct b
           end;
    destruct env_ANTHROPIC_API_KEY as [[|ch key]|];
    try discriminate Hkey; split; try reflexivity; auto.
Qed.

Lemma missing_api_key_witness :
  Server.start None = Exited 1 /\
  servesRequests LocalServerBackend None = false.
Proof.
  destruct (missing_api_key None eq_refl) as (Hstart & Hserve & _).
  split; [exact Hstart | exact Hserve].
Defined.
(* ===================================================================== *)
(** * Further properties of the code *)
(* ===================================================================== *)

(** ** The rate limiters: callers and the cleanup timer *)

Section LimiterLocality.
Context {K : Type} `{Countable K}.
Implicit Types (m : gmap K Entry) (ip : K) (ep : Endpoint).

(** The verdict, and the entry left for the caller, depend on the
    caller's entry only. *)
Lemma limiter_local ep m m' ip now :
  m !! ip = m' !! ip ->
  snd (limiter ep m ip now) = snd (limiter ep m' ip now) /\
  fst (limiter ep m ip now) !! ip = fst (limiter ep m' ip now) !! ip.
Proof.
  intros Hm.
  destruct ep; cbn [limiter];
    unfold PushToJira.limit, GenerateTicket.limit,
      Server.rateLimit, serverlessLimit, expressLimit;
    rewrite <- Hm; destruct (m !! ip) as [e|] eqn:He;
    repeat match goal with
           | |- context [if ?b then _ else _] => destruct b
           end; cbn [fst snd]; rewrite ?lookup_insert_eq;
    split; congruence.
Qed.

(** For one caller, serving a trace is serving the caller's own
    requests. *)
Lemma serve_own ep ip : forall (reqs : list (K * Z)) m m',
  m !! ip = m' !! ip ->
  verdictsFor ip (snd (serve ep m reqs))
  = verdictsFor ip
      (snd (serve ep m' (map (pair ip) (requestsOf ip reqs)))) /\
  fst (serve ep m reqs) !! ip
  = fst (serve ep m' (map (pair ip) (requestsOf ip reqs))) !! ip.
Proof.
  induction reqs as [|[ip' now] rest IH]; intros m m' Hm; [by cbn |].
  destruct (decide (ip' = ip)) as [->|Hne].
  - rewrite requestsOf_cons_eq. cbn [map serve].
    destruct (limiter_local ep m m' ip now Hm) as [Hv Hm1].
    destruct (limiter ep m ip now) as [m1 v].
    destruct (limiter ep m' ip now) as [m1' v'].
    cbn [fst snd] in Hv, Hm1. subst v'.
    destruct (IH m1 m1' Hm1) as [IHv IHm].
    destruct (serve ep m1 rest) as [m2 vs].
    destruct (serve ep m1' _) as [m2' vs'].
    cbn [fst snd] in *. rewrite !verdictsFor_cons_eq. by rewrite IHv.
  - rewrite requestsOf_cons_ne by done. cbn [serve].
    pose proof (limiter_frame ep m ip' now ip Hne) as Hframe.
    destruct (limiter ep m ip' now) as [m1 v]. cbn [fst] in Hframe.
    destruct (IH m1 m') as [IHv IHm]; [congruence |].
    destruct (serve ep m1 rest) as [m2 vs]. cbn [fst snd] in *.
    by rewrite verdictsFor_cons_ne.
Qed.

(** One request on two maps of the local server, the first of which
    lacks only entries whose window ended more than a minute before
    [now]: the verdict is the same, and so is the relation between the
    maps afterwards. *)
Lemma rateLimit_swept (mc m : gmap K Entry) now ip t :
  (forall k, mc !! k = m !! k \/
     (mc !! k = None /\
      exists e, m !! k = Some e /\ resetTime e + 60000 < now)) ->
  now <= t ->
  snd (Server.rateLimit mc ip t) = snd (Server.rateLimit m ip t) /\
  (forall k,
     fst (Server.rateLimit mc ip t) !! k = fst (Server.rateLimit m ip t) !! k
     \/ (fst (Server.rateLimit mc ip t) !! k = None /\
         exists e, fst (Server.rateLimit m ip t) !! k = Some e /\
                   resetTime e + 60000 < now)).
Proof.
  intros Hrel Hnow.
  assert (Hip : snd (Server.rateLimit mc ip t) = snd (Server.rateLimit m ip t)
                /\ fst (Server.rateLimit mc ip t) !! ip
                   = fst (Server.rateLimit m ip t) !! ip).
  { destruct (Hrel ip) as [Heq | (Hnone & e & Hsome & Hold)].
    - exact (limiter_local LocalServer mc m ip t Heq).
    - unfold Server.rateLimit, expressLimit. rewrite Hnone, Hsome.
      destruct (Z.ltb_spec (resetTime e) t); [| lia].
      cbn [fst snd]. by rewrite !lookup_insert_eq. }
  destruct Hip as [Hv Hmip]. split; [exact Hv |].
  intros k. destruct (decide (ip = k)) as [<-|Hne]; [by left |].
  pose proof (limiter_frame LocalServer mc ip t k Hne) as H1.
  pose proof (limiter_frame LocalServer m ip t k Hne) as H2.
  cbn [limiter] in H1, H2. rewrite H1, H2. apply Hrel.
Qed.

Lemma serve_swept now : forall (reqs : list (K * Z)) (mc m : gmap K Entry),
  (forall k, mc !! k = m !! k \/
     (mc !! k = None /\
      exists e, m !! k = Some e /\ resetTime e + 60000 < now)) ->
  Forall (fun r => now <= snd r) reqs ->
  snd (serve LocalServer mc reqs) = snd (serve LocalServer m reqs).
Proof.
  induction reqs as [|[ip t] rest IH]; intros mc m Hrel Hall; [done |].
  inversion Hall as [|? ? Ht Hrest]; subst. cbn [snd] in Ht.
  cbn [serve limiter].
  destruct (rateLimit_swept mc m now ip t Hrel Ht) as [Hv Hrel'].
  destruct (Server.rateLimit mc ip t) as [mc1 v].
  destruct (Server.rateLimit m ip t) as [m1 v'].
  cbn [fst snd] in Hv, Hrel'. subst v'.
  specialize (IH mc1 m1 Hrel' Hrest).
  destruct (serve LocalServer mc1 rest) as [mc2 vs].
  destruct (serve LocalServer m1 rest) as [m2 vs'].
  cbn [snd] in *. by rewrite IH.
Qed.
End LimiterLocality.

(** The limiters keep callers apart. What a caller is answered, and the
    entry the map holds for it in the end, are determined by the entry it
    started with and the times of its own requests: the requests of other
    callers, however many and however interleaved, change neither. This
    holds for the three endpoints. *)
Theorem callers_do_not_interfere
    {K : Type} `{Countable K} (ep : Endpoint) (ip : K)
    (m m' : gmap K Entry) (reqs reqs' : list (K * Z)) :
  m !! ip = m' !! ip ->
  requestsOf ip reqs = requestsOf ip reqs' ->
  verdictsFor ip (snd (serve ep m reqs))
  = verdictsFor ip (snd (serve ep m' reqs')) /\
  fst (serve ep m reqs) !! ip = fst (serve ep m' reqs') !! ip.
Proof.
  intros Hm Hreqs.
  destruct (serve_own ep ip reqs m m Logic.eq_refl) as [Hv1 Hm1].
  destruct (serve_own ep ip reqs' m' m (eq_sym Hm)) as [Hv2 Hm2].
  rewrite Hv1, Hv2, Hm1, Hm2, Hreqs. done.
Qed.

Lemma callers_do_not_interfere_witness :
  let busy := [(7%nat, 0); (8%nat, 1); (8%nat, 2); (7%nat, 3); (9%nat, 4)] in
  let alone := [(7%nat, 0); (7%nat, 3)] in
  verdictsFor 7%nat (snd (serve JiraPushProxy (∅ : gmap nat Entry) busy))
  = verdictsFor 7%nat (snd (serve JiraPushProxy (∅ : gmap nat Entry) alone)).
Proof.
  intros busy alone.
  apply (callers_do_not_interfere JiraPushProxy 7%nat ∅ ∅ busy alone);
    reflexivity.
Defined.

(** The cleanup timer of the local server (server.js 144-151) cannot be
    observed: the requests that arrive after a cleanup at time [now] (their
    clock reads [now] or later) are answered exactly as they would have
    been without the cleanup. The entries it deletes ended their window
    more than a minute before, so the limiter would have replaced them by
    a fresh one anyway. *)
Theorem cleanup_is_unobservable
    {K : Type} `{Countable K} (m : gmap K Entry) (now : Z)
    (reqs : list (K * Z)) :
  Forall (fun r => now <= snd r) reqs ->
  snd (serve LocalServer (Server.cleanup m now) reqs)
  = snd (serve LocalServer m reqs).
Proof.
  intros Hall. apply (serve_swept now); [| exact Hall].
  intros k. unfold Server.cleanup, expressCleanup.
  destruct (m !! k) as [e|] eqn:Hk.
  - destruct (decide (resetTime e + 60000 < now)) as [Hold | Hfresh].
    + right. split; [| by exists e].
      apply map_lookup_filter_None. right. intros e' He' Hkeep.
      rewrite Hk in He'. injection He' as <-. by apply Hkeep.
    + left. by apply map_lookup_filter_Some.
  - left. apply map_lookup_filter_None. by left.
Qed.

Lemma cleanup_is_unobservable_witness :
  let full : gmap nat Entry := {[ 7%nat := {| count := 20; resetTime := 0 |} ]} in
  let later := [(7%nat, 100001); (7%nat, 100002)] in
  snd (serve LocalServer (Server.cleanup full 100000) later)
  = snd (serve LocalServer full later).
Proof.
  intros full later.
  apply (cleanup_is_unobservable full 100000 later).
  repeat constructor; cbn; lia.
Defined.

(** ** Strings: [trim] *)

Section TrimFacts.
Import RegExp RegExpDerived.

Lemma trimStart_split s :
  exists ws, s = ws ++ trimStart s /\ allWhite ws = true.
Proof.
  induction s as [|ch s (ws & Hs & Hws)]; [by exists [] |].
  cbn [trimStart]. destruct (isWhiteSpace ch) eqn:Hch.
  - exists (ch :: ws). split; [cbn; by f_equal |].
    unfold allWhite in *. cbn. by rewrite Hch.
  - by exists [].
Qed.

Lemma trimStart_head s :
  match trimStart s with
  | [] => True
  | a :: _ => isWhiteSpace a = false
  end.
Proof.
  induction s as [|ch s IH]; [done |].
  cbn [trimStart]. by destruct (isWhiteSpace ch) eqn:Hch.
Qed.

(** What [trim] removes is white space, at both ends. *)
Lemma trim_split s :
  exists ws1 ws2,
    s = ws1 ++ trim s ++ ws2 /\ allWhite ws1 = true /\ allWhite ws2 = true.
Proof.
  unfold trim.
  destruct (trimStart_split s) as (ws1 & Hs & Hws1).
  destruct (trimStart_split (rev (trimStart s))) as (ws2 & Ht & Hws2).
  exists ws1, (rev ws2). split; [| by rewrite allWhite_rev].
  rewrite <- rev_app_distr, <- Ht, rev_involutive. exact Hs.
Qed.

(** What [trim] returns is empty, or starts and ends with a code unit
    that is not white space. *)
Lemma trim_result s : trim s = [] \/ trimmed (trim s) = true.
Proof.
  destruct (trim s) as [|a t] eqn:Htrim; [by left | right].
  assert (Hrev : rev (a :: t) = trimStart (rev (trimStart s)))
    by (rewrite <- Htrim; unfold trim; by rewrite rev_involutive).
  pose proof (trimStart_head (rev (trimStart s))) as Hlast.
  destruct (trimStart_split (rev (trimStart s))) as (ws & Ht & _).
  rewrite <- Hrev in Hlast, Ht.
  apply (f_equal (@rev N)) in Ht.
  rewrite rev_involutive, rev_app_distr, rev_involutive in Ht.
  pose proof (trimStart_head s) as Hfirst. rewrite Ht in Hfirst.
  cbn [app] in Hfirst.
  unfold trimmed. destruct (rev (a :: t)) as [|z u] eqn:Hu.
  { apply (f_equal length) in Hu. rewrite length_rev in Hu. discriminate. }
  by rewrite Hfirst, Hlast.
Qed.

Lemma trim_fixed s : trimmed s = true -> trim s = s.
Proof.
  intros Hs. rewrite <- (app_nil_r s) at 1. by apply trim_trimmed.
Qed.

Lemma trim_idempotent s : trim (trim s) = trim s.
Proof.
  destruct (trim_result s) as [-> | Ht]; [reflexivity | by apply trim_fixed].
Qed.

Lemma filter_allWhite ws :
  allWhite ws = true -> filter (fun ch => isWhiteSpace ch = false) ws = [].
Proof.
  induction ws as [|w ws IH]; [done |]. intros Hall.
  unfold allWhite in Hall. cbn [forallb] in Hall.
  apply andb_true_iff in Hall as [Hw Hws].
  rewrite filter_cons_False by (by rewrite Hw). by apply IH.
Qed.

(** Removing all white space after [trim] is removing all white space. *)
Lemma filter_trim s :
  filter (fun ch => isWhiteSpace ch = false) (trim s)
  = filter (fun ch => isWhiteSpace ch = false) s.
Proof.
  destruct (trim_split s) as (ws1 & ws2 & Hs & H1 & H2).
  rewrite Hs at 2.
  rewrite !list.filter_app, (filter_allWhite ws1 H1), (filter_allWhite ws2 H2).
  by rewrite app_nil_r.
Qed.
End TrimFacts.

(** ** The push proxy: what it sends, and to whom *)

Section PushMore.
Import PushToJira PushSpec PushEvents.

Lemma buildPayload_lookups w clean pk f custom :
  lookupFirst (createmetaUrl clean pk)
    (snd (buildPayload w clean pk f custom)).
Proof.
  unfold buildPayload, lookupFirst.
  destruct custom as [c|]; [| left; constructor].
  unfold engineeringTeamField.
  destruct (truthy (engineeringTeam c)); [| left; by repeat constructor].
  destruct (trim _) as [|ch s]; [left; by repeat constructor |].
  unfold getEngineeringTeamId.
  destruct (lookupTeamId (ch :: s) _) as [found|];
    destruct (truthyValue _); cbn [snd app]; right; eexists;
    (split; [reflexivity | by repeat constructor]).
Qed.

(** The answers of a submission: none is that of the limiter. *)
Lemma submit_not_limited w clean payload atts :
  fst (submit w clean payload atts) <> tooManyAnswer.
Proof.
  unfold submit.
  destruct (createFetch w _ payload) as [msg|r]; [discriminate |].
  destruct (negb (ok r)); [by destruct (text r) |].
  destruct (json r) as [issue|]; [| discriminate].
  destruct (getProp (Some issue) (js "key")) as [k|]; [| discriminate].
  pose proof (uploadAttachments_early w k atts) as Hu.
  destruct (uploadAttachments w k atts) as [events [early|]];
    cbn [fst snd] in *; [| discriminate].
  by rewrite (Hu early eq_refl).
Qed.

(** Either the request is accepted, or nothing is done to the outside
    and the answer is one of a refusal. *)
Lemma handler_cases w m now req :
  (snd (handler w m now req) = [] /\
   (snd (fst (handler w m now req)) = tooManyAnswer
    <-> snd (limit m (callerKey req) now) <> Next) /\
   (forall issue browseBase,
      snd (fst (handler w m now req))
      <> Respond 200 (CreatedBody issue browseBase))) \/
  exists b f, accepts w m now req b f.
Proof.
  unfold handler, accepts, setsAllowOrigin.
  assert (Hverdict : snd (limit m (callerKey req) now) = Next \/
                     snd (limit m (callerKey req) now) = tooManyRequests).
  { unfold limit, serverlessLimit.
    destruct (m !! callerKey req) as [e|]; [| by left].
    destruct (now <? resetTime e); [| by left].
    destruct (MAX_REQUESTS_PER_WINDOW <=? count e); [by right | by left]. }
  destruct (limit m (callerKey req) now) as [m' v]. cbn [snd] in *.
  destruct Hverdict as [-> | ->];
    [| left; split; [reflexivity |];
       split; [split; [discriminate | reflexivity] | discriminate]].
  destruct (setHeader (allowOrigin w req)) as [value|];
    [| left; split; [reflexivity |];
       split; [split; [discriminate | done] | discriminate]].
  destruct (bool_decide (method req = js "OPTIONS")) eqn:Hopt;
    [left; split; [reflexivity |];
     split; [split; [discriminate | done] | discriminate] |].
  destruct (bool_decide (method req = js "POST")) eqn:Hpost; cbn [negb];
    [| left; split; [reflexivity |];
       split; [split; [discriminate | done] | discriminate]].
  apply bool_decide_eq_true in Hpost.
  unfold process.
  destruct (body req) as [b|] eqn:Hbody;
    [| left; split; [reflexivity |];
       split; [split; [discriminate | done] | discriminate]].
  destruct (fields b) as [f|] eqn:Hfields;
    [| left; split; [reflexivity |];
       split; [split; [discriminate | done] | discriminate]].
  destruct (truthy (jiraUrl b)) eqn:Hu; cbn [andb];
    [| left; split; [reflexivity |];
       split; [split; [discriminate | done] | discriminate]].
  destruct (truthy (email b)) eqn:He; cbn [andb];
    [| left; split; [reflexivity |];
       split; [split; [discriminate | done] | discriminate]].
  destruct (truthy (apiToken b)) eqn:Ha; cbn [andb];
    [| left; split; [reflexivity |];
       split; [split; [discriminate | done] | discriminate]].
  destruct (truthy (projectKey b)) eqn:Hp; cbn [andb];
    [| left; split; [reflexivity |];
       split; [split; [discriminate | done] | discriminate]].
  destruct (valid (validateJiraUrl (newURL w) (interpolate (jiraUrl b))))
    eqn:Hvalid; cbn [negb];
    [| left; split; [reflexivity |];
       split; [split; [discriminate | done] | discriminate]].
  right. exists b, f. done.
Qed.

Lemma findFirst_skip pred before : forall opt after,
  Forall (fun o => pred o = Normal false) before ->
  pred opt = Normal true ->
  findFirst pred (before ++ opt :: after) = Normal (Some opt).
Proof.
  induction before as [|o before IH]; intros opt after Hbefore Hopt.
  - cbn. by rewrite Hopt.
  - inversion Hbefore as [|? ? Ho Hrest]; subst.
    cbn. rewrite Ho. cbn. by apply IH.
Qed.
End PushMore.

(** What the push proxy does to the outside is decided by the checks of
    lines 27-81. A request that is not accepted (it is rate limited, the
    header of line 52 cannot be set, it is not a POST, it lacks a required
    field or names a URL the validator refuses) causes no outbound call at
    all. An accepted request causes, in this order: at most one metadata
    request, sent to the createmeta address under the validated URL;
    exactly one issue creation, sent to [/rest/api/2/issue] under the
    validated URL with the payload built from the request; then uploads
    and log lines only. *)
Theorem outbound_calls_follow_validation
    (w : PushToJira.World) (rateLimitMap : gmap jsstring Entry) (now : Z)
    (req : PushToJira.Request) :
  let events := snd (PushToJira.handler w rateLimitMap now req) in
  ((forall b f, ~ PushSpec.accepts w rateLimitMap now req b f) ->
   events = []) /\
  (forall b f,
     PushSpec.accepts w rateLimitMap now req b f ->
     let clean :=
       PushToJira.removeTrailingSlash
         (PushToJira.interpolate (PushToJira.jiraUrl b)) in
     let projectKey := PushToJira.interpolate (PushToJira.projectKey b) in
     exists looked rest,
       events
       = looked
         ++ PushToJira.CreateIssue (clean ++ js "/rest/api/2/issue")
              (fst (PushToJira.buildPayload w clean projectKey f
                      (PushToJira.customFields b)))
         :: rest /\
       PushEvents.lookupFirst (PushToJira.createmetaUrl clean projectKey)
         looked /\
       Forall PushEvents.uploadOrLog rest).
Proof.
  cbv zeta. split.
  - intros Hnot.
    destruct (handler_cases w rateLimitMap now req)
      as [[Hnil _] | (b & f & Hacc)]; [exact Hnil |].
    by destruct (Hnot b f).
  - intros b f Hacc.
    rewrite (handler_accepted _ _ _ _ _ _ Hacc). cbn [snd].
    set (clean := PushToJira.removeTrailingSlash _).
    set (pk := PushToJira.interpolate (PushToJira.projectKey b)).
    destruct (submit_shape w clean
                (fst (PushToJira.buildPayload w clean pk f
                        (PushToJira.customFields b)))
                (PushToJira.attachments b)) as (rest & Hsub & Hrest).
    exists (snd (PushToJira.buildPayload w clean pk f
                   (PushToJira.customFields b))), rest.
    rewrite Hsub. split; [reflexivity |]. split; [| exact Hrest].
    apply buildPayload_lookups.
Qed.

Lemma outbound_calls_follow_validation_witness :
  (exists looked payload rest,
     snd (PushToJira.handler PushSample.world ∅ 0 PushSample.request)
     = looked
       ++ PushToJira.CreateIssue
            (js "https://anything.atlassian.net/rest/api/2/issue") payload
       :: rest) /\
  snd (PushToJira.handler PushSample.world ∅ 0
         PushSampleTeams.anonymousRequest) = [].
Proof.
  destruct (outbound_calls_follow_validation PushSample.world ∅ 0
              PushSample.request) as [_ Haccepted].
  destruct (outbound_calls_follow_validation PushSample.world ∅ 0
              PushSampleTeams.anonymousRequest) as [Hrefused _].
  split.
  - destruct (Haccepted _ _ sample_accepted) as (looked & rest & Hevents & _).
    eexists looked, _, rest. exact Hevents.
  - apply Hrefused. intros b f (_ & Hcors & _). apply Hcors.
    vm_compute. reflexivity.
Defined.

(** The limiter of the push proxy runs before everything else (lines
    27-44): whatever the request is, a preflight OPTIONS, a GET, a POST
    without its fields or with a URL that is refused, it is counted
    against the caller, the map after the handler being the limiter's. The
    handler answers 429 "Too many requests" exactly when the limiter
    rejects the request, and then does nothing to the outside. *)
Theorem every_request_is_counted
    (w : PushToJira.World) (rateLimitMap : gmap jsstring Entry) (now : Z)
    (req : PushToJira.Request) :
  let verdict :=
    PushToJira.limit rateLimitMap (PushToJira.callerKey req) now in
  fst (fst (PushToJira.handler w rateLimitMap now req)) = fst verdict /\
  (snd (fst (PushToJira.handler w rateLimitMap now req))
     = PushEvents.tooManyAnswer
   <-> snd verdict <> Next) /\
  (snd verdict <> Next ->
   snd (PushToJira.handler w rateLimitMap now req) = [] /\
   fst (fst (PushToJira.handler w rateLimitMap now req)) = rateLimitMap).
Proof.
  cbv zeta.
  assert (Hmap : fst (fst (PushToJira.handler w rateLimitMap now req))
                 = fst (PushToJira.limit rateLimitMap
                          (PushToJira.callerKey req) now)).
  { unfold PushToJira.handler.
    destruct (PushToJira.limit _ _ _) as [m' [|status err]]; [| reflexivity].
    destruct (setHeader _); [| reflexivity].
    destruct (bool_decide _); [reflexivity |].
    destruct (negb _); [reflexivity |].
    by destruct (PushToJira.process _ _). }
  split; [exact Hmap |].
  destruct (handler_cases w rateLimitMap now req)
    as [(Hnil & Hiff & _) | (b & f & Hacc)].
  - split; [exact Hiff |]. intros Hrej. split; [exact Hnil |].
    rewrite Hmap.
    exact (limiter_denied JiraPushProxy rateLimitMap _ now Hrej).
  - pose proof Hacc as (Hnext & _).
    assert (Hanswer : snd (fst (PushToJira.handler w rateLimitMap now req))
                      <> PushEvents.tooManyAnswer).
    { rewrite (handler_accepted _ _ _ _ _ _ Hacc). cbn [fst snd].
      apply submit_not_limited. }
    split; [split; [done | by rewrite Hnext] | by rewrite Hnext].
Qed.

(** The team lookup of lines 93-126 takes the first option of the
    metadata whose value or name is the team, and answers with the
    identifier of that option: the options after it are not looked at, and
    an option without a usable identifier gives [null] even when a later
    option with the same value has one. Nothing is logged. *)
Theorem engineering_team_lookup_takes_first_match
    (w : PushToJira.World) (cleanJiraUrl projectKey team : jsstring)
    (r : HttpResponse) (metadata : JSON) (before after : list JSON)
    (opt : JSON) (optionId : option JSON) :
  let url := PushToJira.createmetaUrl cleanJiraUrl projectKey in
  PushToJira.metadataFetch w url = Responded r ->
  ok r = true ->
  json r = Some metadata ->
  PushToJira.allowedValuesOf metadata
    = Normal (Some (JArray (before ++ opt :: after))) ->
  Forall (fun o => PushToJira.optionMatches team o = Normal false) before ->
  PushToJira.optionMatches team opt = Normal true ->
  getProp (Some opt) (js "id") = Normal optionId ->
  PushToJira.getEngineeringTeamId w cleanJiraUrl projectKey team
  = (if truthyValue optionId then optionId else None,
     [PushToJira.FetchMetadata url]).
Proof.
  cbv zeta. intros Hfetch Hok Hjson Hallowed Hbefore Hopt Hid.
  unfold PushToJira.getEngineeringTeamId, PushToJira.lookupTeamId.
  rewrite Hfetch, Hok, Hjson, Hallowed. cbn [mbind completion_bind callFind].
  rewrite (findFirst_skip _ _ _ _ Hbefore Hopt).
  assert (Htruthy : truthyValue (Some opt) = true).
  { destruct opt; try reflexivity; cbn in Hopt; discriminate. }
  cbn [mbind completion_bind]. rewrite Htruthy, Hid.
  cbn [mbind completion_bind]. by destruct (truthyValue optionId).
Qed.

Lemma engineering_team_lookup_takes_first_match_witness :
  PushToJira.getEngineeringTeamId PushSampleTeams.world
    PushSample.cleanUrl (js "BUG") (js "Platform")
  = (Some (JString (js "20002")),
     [PushToJira.FetchMetadata
        (PushToJira.createmetaUrl PushSample.cleanUrl (js "BUG"))]).
Proof.
  exact (engineering_team_lookup_takes_first_match PushSampleTeams.world
           PushSample.cleanUrl (js "BUG")
           (js "Platform") _ PushSampleTeams.metadata
           [PushSampleTeams.teamOption "20001" "Billing"]
           [PushSampleTeams.teamOption "20003" "Platform"]
           (PushSampleTeams.teamOption "20002" "Platform")
           (Some (JString (js "20002")))
           Logic.eq_refl Logic.eq_refl Logic.eq_refl Logic.eq_refl
           ltac:(repeat constructor) Logic.eq_refl Logic.eq_refl).
Defined.

(** The push proxy reports success only when the tracker created the
    issue: an answer 200 with the key and the address of an issue comes
    from an accepted request whose creation call, the one the handler
    made, Jira answered with a status 2xx and that issue as its JSON
    body; the address is the validated URL followed by [/browse/]. *)
Theorem success_means_issue_created
    (w : PushToJira.World) (rateLimitMap : gmap jsstring Entry) (now : Z)
    (req : PushToJira.Request) (issue : JSON) (browseBase : jsstring) :
  snd (fst (PushToJira.handler w rateLimitMap now req))
  = PushToJira.Respond 200 (PushToJira.CreatedBody issue browseBase) ->
  exists b f r payload,
    let clean :=
      PushToJira.removeTrailingSlash
        (PushToJira.interpolate (PushToJira.jiraUrl b)) in
    PushSpec.accepts w rateLimitMap now req b f /\
    PushToJira.createFetch w (clean ++ js "/rest/api/2/issue") payload
    = Responded r /\
    ok r = true /\ json r = Some issue /\
    browseBase = clean ++ js "/browse/" /\
    PushToJira.CreateIssue (clean ++ js "/rest/api/2/issue") payload
      ∈ snd (PushToJira.handler w rateLimitMap now req).
Proof.
  intros Hanswer.
  destruct (handler_cases w rateLimitMap now req)
    as [(_ & _ & Hnot) | (b & f & Hacc)]; [by destruct (Hnot _ _ Hanswer) |].
  exists b, f.
  rewrite (handler_accepted _ _ _ _ _ _ Hacc) in Hanswer |- *.
  cbn [fst snd] in Hanswer |- *.
  set (clean := PushToJira.removeTrailingSlash _) in *.
  set (built := PushToJira.buildPayload w clean _ f _) in *.
  destruct (submit_shape w clean (fst built) (PushToJira.attachments b))
    as (rest & Hsub & _).
  unfold PushToJira.submit in Hanswer.
  destruct (PushToJira.createFetch w (clean ++ js "/rest/api/2/issue")
              (fst built)) as [msg|r] eqn:Hcreate; [discriminate |].
  exists r, (fst built). cbv zeta.
  split; [exact Hacc |]. split; [exact Hcreate |].
  destruct (ok r); cbn [negb] in Hanswer; [| by destruct (text r)].
  destruct (json r) as [created|]; [| discriminate].
  destruct (getProp (Some created) (js "key")) as [k|]; [| discriminate].
  pose proof (uploadAttachments_early w k (PushToJira.attachments b))
    as Hearly.
  destruct (PushToJira.uploadAttachments w k (PushToJira.attachments b))
    as [events [early|]]; cbn [fst snd] in *.
  - rewrite (Hearly early eq_refl) in Hanswer. discriminate.
  - injection Hanswer as <- <-.
    repeat (split; [reflexivity |]).
    rewrite Hsub. apply elem_of_app. right. left.
Qed.

Lemma success_means_issue_created_witness :
  exists b f r,
    PushSpec.accepts PushSample.world ∅ 0 PushSampleTeams.plainRequest b f /\
    ok r = true /\
    json r = Some (JObject [(js "key", JString (js "BUG-1"));
                            (js "id", JString (js "10001"))]).
Proof.
  destruct (success_means_issue_created PushSample.world ∅ 0
              PushSampleTeams.plainRequest
              (JObject [(js "key", JString (js "BUG-1"));
                        (js "id", JString (js "10001"))])
              (js "https://anything.atlassian.net/browse/"))
    as (b & f & r & payload & Hacc & Hfetch & Hok & Hjson & _).
  - vm_compute. reflexivity.
  - exists b, f, r. done.
Defined.

(** ** The Jira functions: what they do not catch *)

Section PushEdges.
Import PushToJira PushSpec.

(** The [try] of the handler answers. *)
Lemma process_answers w body : fst (process w body) <> Uncaught.
Proof.
  unfold process. destruct body as [b|]; [| discriminate].
  destruct (fields b) as [f|]; [| discriminate].
  destruct (truthy (jiraUrl b) && truthy (email b) && truthy (apiToken b)
            && truthy (projectKey b)); [| discriminate].
  destruct (negb (valid _)); [discriminate |].
  destruct (buildPayload _ _ _ _ _) as [payload looked].
  pose proof (submit_answers w
                (removeTrailingSlash (interpolate (jiraUrl b)))
                payload (attachments b)) as Hs.
  by destruct (submit _ _ _ _) as [answer events].
Qed.

End PushEdges.

(** The two Jira functions of Vercel set their headers after the limiter
    and outside the [try] (lines 46-55 of both files). When [setHeader]
    refuses the value of [Access-Control-Allow-Origin] the handler throws:
    the request has been counted, the handler answers nothing and sends
    nothing to Jira, whatever the method and the body; otherwise the
    handler answers. With the default list of origins, [*], the value is
    the origin the request names ([Origin], or else [Referer]), so the
    handler throws exactly for a request that names none, or names one
    with a character [setHeader] refuses. *)
Theorem jira_functions_throw_when_the_origin_cannot_be_set
    (rateLimitMap : gmap jsstring Entry) (now : Z) :
  (forall (w : PushToJira.World) (req : PushToJira.Request),
     let limited :=
       PushToJira.limit rateLimitMap (PushToJira.callerKey req) now in
     let named := orElse (PushToJira.origin req) (PushToJira.referer req) in
     snd limited = Next ->
     (setHeader (PushToJira.allowOrigin w req) = Throws ->
      PushToJira.handler w rateLimitMap now req
      = (fst limited, PushToJira.Uncaught, [])) /\
     (snd (fst (PushToJira.handler w rateLimitMap now req))
        = PushToJira.Uncaught
      <-> setHeader (PushToJira.allowOrigin w req) = Throws) /\
     (PushToJira.env_ALLOWED_ORIGINS w = None ->
      PushToJira.allowOrigin w req = named /\
      (setHeader named = Throws <->
       match named with
       | Some o => forallb validHeaderChar o = false
       | None => True
       end))) /\
  (forall (w : TestJira.World) (req : TestJira.Request),
     let limited :=
       TestJira.limit rateLimitMap (TestJira.callerKey req) now in
     snd limited = Next ->
     (setHeader (TestJira.allowOrigin w req) = Throws ->
      TestJira.handler w rateLimitMap now req
      = (fst limited, TestJira.Uncaught, [])) /\
     (snd (fst (TestJira.handler w rateLimitMap now req)) = TestJira.Uncaught
      <-> setHeader (TestJira.allowOrigin w req) = Throws) /\
     (TestJira.env_ALLOWED_ORIGINS w = None ->
      TestJira.allowOrigin w req
      = orElse (TestJira.origin req) (TestJira.referer req))).
Proof.
  assert (Hset : forall named,
            setHeader named = Throws <->
            match named with
            | Some o => forallb validHeaderChar o = false
            | None => True
            end).
  { intros [o|]; cbn; [| done].
    destruct (forallb validHeaderChar o); split; done. }
  split.
  - intros w req. cbv zeta. intros Hnext.
    unfold PushToJira.handler.
    destruct (PushToJira.limit rateLimitMap _ now) as [m' v].
    cbn [fst snd] in *. subst v.
    split; [by intros -> |]. split.
    + destruct (setHeader (PushToJira.allowOrigin w req)) as [value|];
        [| done].
      split; [| discriminate]. intros Hanswer. exfalso.
      destruct (bool_decide _); [discriminate |].
      destruct (negb _); [discriminate |].
      pose proof (process_answers w (PushToJira.body req)) as Hp.
      by destruct (PushToJira.process w (PushToJira.body req)).
    + intros Henv. split; [| apply Hset].
      unfold PushToJira.allowOrigin, PushToJira.ALLOWED_ORIGINS.
      by rewrite Henv.
  - intros w req. cbv zeta. intros Hnext.
    unfold TestJira.handler.
    destruct (TestJira.limit rateLimitMap _ now) as [m' v].
    cbn [fst snd] in *. subst v.
    split; [by intros -> |]. split.
    + destruct (setHeader (TestJira.allowOrigin w req)) as [value|];
        [| done].
      split; [| discriminate]. intros Hanswer. exfalso.
      destruct (bool_decide _); [discriminate |].
      destruct (negb _); [discriminate |].
      unfold TestJira.testConnection in Hanswer.
      destruct (TestJira.body req) as [b|]; [| discriminate].
      destruct (_ || _); [discriminate |].
      destruct (negb (valid _)); [discriminate |].
      destruct (TestJira.myselfFetch w _ _ _) as [msg|r]; [discriminate |].
      destruct (negb (ok r)); [by destruct (text r) |].
      destruct (json r) as [data|]; [| discriminate].
      by destruct (TestJira.connectedBody data).
    + intros Henv.
      unfold TestJira.allowOrigin, TestJira.ALLOWED_ORIGINS.
      by rewrite Henv.
Qed.

Lemma jira_functions_throw_when_the_origin_cannot_be_set_witness :
  PushToJira.handler PushSample.world ∅ 0 PushSampleTeams.anonymousRequest
  = ({[ js "203.0.113.7" := {| count := 1; resetTime := 60000 |} ]},
     PushToJira.Uncaught, []).
Proof.
  destruct (jira_functions_throw_when_the_origin_cannot_be_set ∅ 0)
    as [Hpush _].
  destruct (Hpush PushSample.world PushSampleTeams.anonymousRequest
              Logic.eq_refl) as [Hthrows _].
  rewrite (Hthrows Logic.eq_refl). reflexivity.
Defined.



(** ** The connection test *)

Section TestJiraFacts.
Import TestJira.

Lemma testJira_accepted w m now req b :
  accepts w m now req b ->
  handler w m now req
  = (fst (limit m (callerKey req) now),
     fst (testConnection w (Some b)), snd (testConnection w (Some b))).
Proof.
  intros (Hlim & Hcors & Hmeth & Hbody & Hu & He & Ha & Hvalid).
  unfold handler.
  destruct (limit m (callerKey req) now) as [m' v]. cbn [snd fst] in *.
  subst v. destruct (setHeader (allowOrigin w req)) as [value|]; [| done].
  rewrite Hmeth.
  rewrite bool_decide_eq_false_2 by discriminate.
  rewrite bool_decide_eq_true_2 by reflexivity. cbn [negb].
  rewrite Hbody. by destruct (testConnection w (Some b)).
Qed.

Lemma testJira_cases w m now req :
  snd (handler w m now req) = [] \/ exists b, accepts w m now req b.
Proof.
  unfold handler, accepts.
  destruct (limit m (callerKey req) now) as [m' [|code err]];
    [| by left].
  destruct (setHeader (allowOrigin w req)) as [value|]; [| by left].
  destruct (bool_decide (method req = js "OPTIONS")); [by left |].
  destruct (bool_decide (method req = js "POST")) eqn:Hpost; cbn [negb];
    [| by left].
  apply bool_decide_eq_true in Hpost.
  unfold testConnection.
  destruct (body req) as [b|] eqn:Hbody; [| by left].
  destruct (truthy (jiraUrl b)) eqn:Hu; cbn [negb orb]; [| by left].
  destruct (truthy (email b)) eqn:He; cbn [negb orb]; [| by left].
  destruct (truthy (apiToken b)) eqn:Ha; cbn [negb orb]; [| by left].
  destruct (valid (validateJiraUrl (newURL w)
                     (PushToJira.interpolate (jiraUrl b)))) eqn:Hvalid;
    cbn [negb]; [| by left].
  right. by exists b.
Qed.

Lemma testConnection_accepted w b :
  truthy (jiraUrl b) = true -> truthy (email b) = true ->
  truthy (apiToken b) = true ->
  valid (validateJiraUrl (newURL w) (PushToJira.interpolate (jiraUrl b)))
    = true ->
  testConnection w (Some b)
  = let myself :=
      PushToJira.removeTrailingSlash (PushToJira.interpolate (jiraUrl b))
        ++ js "/rest/api/3/myself" in
    let user := PushToJira.interpolate (email b) in
    let token := PushToJira.interpolate (apiToken b) in
    let calling := FetchMyself myself user token in
    match myselfFetch w myself user token with
    | NetworkError message =>
        (Respond 500 (ThrownBody (Some message)), [calling])
    | Responded response =>
        if negb (ok response) then
          match text response with
          | None => (Respond 500 (ThrownBody None), [calling])
          | Some _ =>
              (Respond (httpStatus response)
                 (ErrorBody (connectionError (httpStatus response))),
               [calling])
          end
        else
          match json response with
          | None => (Respond 500 (ThrownBody None), [calling])
          | Some data =>
              match connectedBody data with
              | Throws => (Respond 500 (ThrownBody None), [calling])
              | Normal connected => (Respond 200 connected, [calling])
              end
          end
    end.
Proof.
  intros Hu He Ha Hvalid. unfold testConnection.
  rewrite Hu, He, Ha, Hvalid. reflexivity.
Qed.
End TestJiraFacts.

(** The connection test sends the credentials to one place only. A
    request that is not accepted (it is rate limited, the header of line
    52 cannot be set, it is not a POST, it lacks one of the three fields
    or names a URL the validator refuses) causes no call at all. An
    accepted request causes exactly one call, to [/rest/api/3/myself]
    under the URL of the request (one trailing slash removed), a URL that
    the platform parses to the protocol https and a host name ending in
    [.atlassian.net]; it carries the email and the token of the
    request. *)
Theorem credentials_go_to_the_validated_url
    (w : TestJira.World) (rateLimitMap : gmap jsstring Entry) (now : Z)
    (req : TestJira.Request) :
  let events := snd (TestJira.handler w rateLimitMap now req) in
  ((forall b, ~ TestJira.accepts w rateLimitMap now req b) -> events = []) /\
  (forall b,
     TestJira.accepts w rateLimitMap now req b ->
     exists url parsedUrl,
       TestJira.jiraUrl b = Some url /\
       TestJira.newURL w url = Some parsedUrl /\
       protocol parsedUrl = js "https:" /\
       endsWith (hostname parsedUrl) (js ".atlassian.net") = true /\
       events
       = [TestJira.FetchMyself
            (PushToJira.removeTrailingSlash url ++ js "/rest/api/3/myself")
            (PushToJira.interpolate (TestJira.email b))
            (PushToJira.interpolate (TestJira.apiToken b))]).
Proof.
  cbv zeta. split.
  - intros Hnot.
    destruct (testJira_cases w rateLimitMap now req) as [Hnil | (b & Hacc)];
      [exact Hnil | by destruct (Hnot b)].
  - intros b Hacc.
    rewrite (testJira_accepted _ _ _ _ _ Hacc). cbn [snd].
    destruct Hacc as (_ & _ & _ & Hbody & Hu & He & Ha & Hvalid).
    rewrite (testConnection_accepted w b Hu He Ha Hvalid). cbv zeta.
    destruct (TestJira.jiraUrl b) as [url|] eqn:Hurl; [| discriminate].
    cbn [PushToJira.interpolate] in *.
    unfold validateJiraUrl in Hvalid.
    destruct (TestJira.newURL w url) as [parsedUrl|] eqn:Hparsed;
      [| discriminate].
    destruct (bool_decide (protocol parsedUrl = js "https:")) eqn:Hproto;
      cbn [negb] in Hvalid; [| discriminate].
    destruct (endsWith (hostname parsedUrl) (js ".atlassian.net")) eqn:Hhost;
      cbn [negb] in Hvalid; [| discriminate].
    apply bool_decide_eq_true in Hproto.
    exists url, parsedUrl. repeat (split; [done |]).
    destruct (TestJira.myselfFetch w _ _ _) as [msg|r]; [reflexivity |].
    destruct (negb (ok r)); [by destruct (text r) |].
    destruct (json r) as [data|]; [| reflexivity].
    by destruct (TestJira.connectedBody data).
Qed.

Lemma sample_test_accepted :
  TestJira.accepts TestJira.sampleWorld ∅ 0 TestJira.sampleRequest
    {| TestJira.jiraUrl := Some (js "https://anything.atlassian.net");
       TestJira.email := Some (js "qa@example.com");
       TestJira.apiToken := Some (js "wrong") |}.
Proof.
  repeat split; try (vm_compute; reflexivity). vm_compute. discriminate.
Qed.

Lemma credentials_go_to_the_validated_url_witness :
  snd (TestJira.handler TestJira.sampleWorld ∅ 0 TestJira.sampleRequest)
  = [TestJira.FetchMyself
       (js "https://anything.atlassian.net/rest/api/3/myself")
       (js "qa@example.com") (js "wrong")].
Proof.
  destruct (credentials_go_to_the_validated_url TestJira.sampleWorld ∅ 0
              TestJira.sampleRequest) as [_ Haccepted].
  destruct (Haccepted _ sample_test_accepted)
    as (url & parsedUrl & [= <-] & _ & _ & _ & Hevents).
  exact Hevents.
Defined.

(** The outcome of an accepted connection test: the handler always
    answers. When Jira answers with a status outside 2xx (and a body that
    can be read) the proxy passes that status on, with a message of its
    own for 401, 403 and 404 and "Connection test failed" for every other
    status. The proxy answers 200 exactly when Jira answered 2xx with a
    JSON body other than [null]. *)
Theorem connection_test_outcome
    (w : TestJira.World) (rateLimitMap : gmap jsstring Entry) (now : Z)
    (req : TestJira.Request) (b : TestJira.Body) :
  TestJira.accepts w rateLimitMap now req b ->
  let fetched :=
    TestJira.myselfFetch w
      (PushToJira.removeTrailingSlash
         (PushToJira.interpolate (TestJira.jiraUrl b))
       ++ js "/rest/api/3/myself")
      (PushToJira.interpolate (TestJira.email b))
      (PushToJira.interpolate (TestJira.apiToken b)) in
  let answer := snd (fst (TestJira.handler w rateLimitMap now req)) in
  answer <> TestJira.Uncaught /\
  (forall r,
     fetched = Responded r -> ok r = false -> text r <> None ->
     answer = TestJira.Respond (httpStatus r)
                (TestJira.ErrorBody
                   (TestJira.connectionError (httpStatus r))) /\
     (TestJira.connectionError (httpStatus r)
        <> js "Connection test failed" ->
      httpStatus r = 401 \/ httpStatus r = 403 \/ httpStatus r = 404)) /\
  ((exists resBody, answer = TestJira.Respond 200 resBody) <->
   exists r data,
     fetched = Responded r /\ ok r = true /\
     json r = Some data /\ data <> JNull).
Proof.
  intros Hacc. cbv zeta.
  rewrite (testJira_accepted _ _ _ _ _ Hacc). cbn [fst snd].
  destruct Hacc as (_ & _ & _ & Hbody & Hu & He & Ha & Hvalid).
  rewrite (testConnection_accepted w b Hu He Ha Hvalid). cbv zeta.
  set (fetched := TestJira.myselfFetch w _ _ _).
  split; [| split].
  - destruct fetched as [msg|r]; [discriminate |].
    destruct (negb (ok r)); [by destruct (text r) |].
    destruct (json r) as [data|]; [| discriminate].
    by destruct (TestJira.connectedBody data).
  - intros r Hfetch Hok Htext. rewrite Hfetch, Hok. cbn [negb].
    destruct (text r); [| done]. cbn [fst]. split; [reflexivity |].
    unfold TestJira.connectionError.
    destruct (Z.eqb_spec (httpStatus r) 401); [by left |].
    destruct (Z.eqb_spec (httpStatus r) 403); [by right; left |].
    destruct (Z.eqb_spec (httpStatus r) 404); [by right; right |].
    done.
  - destruct fetched as [msg|r].
    { cbn. split; [by intros (? & [=]) | by intros (? & ? & ? & _)]. }
    destruct (ok r) eqn:Hok; cbn [negb].
    + destruct (json r) as [data|] eqn:Hjson.
      * destruct data; cbn;
          (split; [intros (resBody & Hs); try discriminate; eexists _, _; done
                  | intros (r' & data' & [= <-] & _ & Hj & Hnull);
                    first [by eexists | congruence]]).
      * cbn. split; [by intros (? & [=]) |].
        intros (r' & data' & [= <-] & _ & Hj & _). congruence.
    + assert (Hstatus : httpStatus r <> 200).
      { unfold ok in Hok. intros Hs. rewrite Hs in Hok. discriminate. }
      destruct (text r); cbn;
        (split; [intros (resBody & [= Hs]); first [discriminate | done]
                | intros (r' & data' & [= <-] & Hok' & _); congruence]).
Qed.

Lemma connection_test_outcome_witness :
  snd (fst (TestJira.handler TestJira.sampleWorld ∅ 0 TestJira.sampleRequest))
  = TestJira.Respond 401
      (TestJira.ErrorBody
         (js "Authentication failed. Please check your email and API token.")).
Proof.
  destruct (connection_test_outcome TestJira.sampleWorld ∅ 0
              TestJira.sampleRequest _ sample_test_accepted)
    as (_ & Hrefused & _).
  destruct (Hrefused _ Logic.eq_refl Logic.eq_refl ltac:(discriminate))
    as [Hanswer _].
  exact Hanswer.
Defined.

(** ** The generation proxies *)

Section GenerateFacts.
Import GenerateTicket GenerateSpec.

(** The [try] calls the upstream API once when the body carries an array
    of messages, and not at all otherwise. *)
Lemma generate_events apiKey anthropicFetch event :
  (exists messages,
     (exists parsed,
        parsedBody event = Some parsed /\
        getProp (Some parsed) (js "messages")
        = Normal (Some (JArray messages))) /\
     snd (generate apiKey anthropicFetch event)
     = [CallAnthropic apiKey (JArray messages)]) \/
  (snd (generate apiKey anthropicFetch event) = [] /\
   forall messages parsed,
     parsedBody event = Some parsed ->
     getProp (Some parsed) (js "messages")
     <> Normal (Some (JArray messages))).
Proof.
  unfold generate.
  destruct (parsedBody event) as [parsed|]; [| by right].
  destruct (getProp (Some parsed) (js "messages")) as [messages|] eqn:Hget;
    [| right; split; [done | by intros ? ? [= <-]; rewrite Hget]].
  destruct messages as [[| | | |elements|]|];
    try (right; split; [done | by intros ? ? [= <-]; rewrite Hget]).
  left. exists elements. split; [by exists parsed |].
  destruct anthropicFetch as [msg|r]; [done |].
  destruct (json r) as [data|]; [| done]. destruct (ok r); [done |].
  by destruct (upstreamMessage data).
Qed.

(** Line 114 throws for the body [null] only. *)
Lemma upstreamMessage_null errorData :
  upstreamMessage errorData = Throws <-> errorData = JNull.
Proof.
  unfold upstreamMessage.
  destruct errorData as [| | | | |properties];
    cbn [getProp mbind completion_bind];
    try (split; intros Heq; first [discriminate Heq | reflexivity]).
  destruct (lookupProperty (js "error") properties)
    as [[| | | | |inner]|]; cbn [getProp mbind completion_bind];
    split; intros Heq; discriminate Heq.
Qed.
End GenerateFacts.

(** The generation proxies call the LLM API at most once per request, and
    only for a POST whose body carries an array under [messages] (Netlify:
    from a caller within its limit); the call carries the key the instance
    was configured with and the messages of the request, unchanged. Every
    such request causes the call; every other request is answered without
    one. *)
Theorem llm_is_called_for_valid_posts_only
    (key : jsstring) (anthropicFetch : FetchResult)
    (rateLimitMap : gmap jsstring Entry) (now : Z)
    (event : GenerateTicket.Request) :
  key <> [] ->
  let netlify :=
    snd (GenerateTicket.handler
           {| GenerateTicket.ANTHROPIC_API_KEY := Some key |}
           anthropicFetch rateLimitMap now event) in
  let vercel :=
    snd (VercelGenerateTicket.handler
           {| VercelGenerateTicket.ANTHROPIC_API_KEY := Some key |}
           anthropicFetch event) in
  let withinLimit :=
    snd (GenerateTicket.limit rateLimitMap
           (GenerateTicket.callerKey event) now) = Next in
  (forall messages,
     GenerateSpec.postsMessages event messages ->
     vercel = [GenerateTicket.CallAnthropic key (JArray messages)] /\
     (withinLimit ->
      netlify = [GenerateTicket.CallAnthropic key (JArray messages)])) /\
  (vercel = [] \/
   exists messages,
     GenerateSpec.postsMessages event messages /\
     vercel = [GenerateTicket.CallAnthropic key (JArray messages)]) /\
  (netlify = [] \/
   exists messages,
     withinLimit /\ GenerateSpec.postsMessages event messages /\
     netlify = [GenerateTicket.CallAnthropic key (JArray messages)]).
Proof.
  intros Hkey. cbv zeta.
  destruct key as [|ch key]; [done |].
  unfold GenerateTicket.handler, VercelGenerateTicket.handler,
    GenerateSpec.postsMessages.
  cbn [GenerateTicket.ANTHROPIC_API_KEY VercelGenerateTicket.ANTHROPIC_API_KEY].
  destruct (generate_events (ch :: key) anthropicFetch event)
    as [(messages & (parsed & Hbody & Hget) & Hcall) | [Hnil Hnot]].
  - (* the body carries messages *)
    assert (Hsame : forall messages',
              (exists parsed',
                 GenerateTicket.parsedBody event = Some parsed' /\
                 getProp (Some parsed') (js "messages")
                 = Normal (Some (JArray messages'))) ->
              messages' = messages).
    { intros messages' (parsed' & Hb' & Hg'). congruence. }
    destruct (GenerateTicket.limit rateLimitMap _ now) as [m' v].
    cbn [snd].
    destruct (bool_decide (GenerateTicket.httpMethod event = js "OPTIONS"))
      eqn:Hopt.
    { apply bool_decide_eq_true in Hopt.
      split; [intros ? [Hpost _]; rewrite Hopt in Hpost; discriminate |].
      split; [by left |]. destruct v; by left. }
    destruct (bool_decide (GenerateTicket.httpMethod event = js "POST"))
      eqn:Hpost; cbn [negb].
    + apply bool_decide_eq_true in Hpost.
      destruct (GenerateTicket.generate (ch :: key) anthropicFetch event)
        as [answer events]. cbn [snd] in *. subst events.
      split; [| split].
      * intros messages' [_ Hm']. rewrite (Hsame _ Hm').
        split; [reflexivity | by intros ->].
      * right. exists messages. eauto 6.
      * destruct v as [|status err]; [| by left].
        right. exists messages. eauto 8.
    + apply bool_decide_eq_false in Hpost.
      split; [by intros ? [Hp _] |].
      split; [by left |]. destruct v; by left.
  - (* it does not *)
    destruct (GenerateTicket.limit rateLimitMap _ now) as [m' v].
    cbn [snd].
    assert (Hquiet :
      snd (if bool_decide (GenerateTicket.httpMethod event = js "OPTIONS")
           then ({| GenerateTicket.statusCode := 200;
                    GenerateTicket.body := GenerateTicket.EmptyBody |}, [])
           else if negb (bool_decide
                           (GenerateTicket.httpMethod event = js "POST"))
           then ({| GenerateTicket.statusCode := 405;
                    GenerateTicket.body :=
                      GenerateTicket.ErrorBody (js "Method not allowed") |},
                 [])
           else GenerateTicket.generate (ch :: key) anthropicFetch event)
      = []).
    { destruct (bool_decide _); [done |]. by destruct (negb _). }
    split; [| split].
    + intros messages [_ (parsed & Hb & Hg)]. exfalso.
      exact (Hnot _ _ Hb Hg).
    + by left.
    + left. destruct v as [|status err]; [| done].
      destruct (bool_decide _); [done |]. destruct (negb _); [done |].
      by destruct (GenerateTicket.generate _ _ _).
Qed.

Lemma llm_is_called_for_valid_posts_only_witness :
  snd (GenerateTicket.handler
         {| GenerateTicket.ANTHROPIC_API_KEY := Some (js "sk-ant-test") |}
         GenerateSpec.sampleFetch ∅ 0 GenerateSpec.sampleEvent)
  = [GenerateTicket.CallAnthropic (js "sk-ant-test")
       (JArray [JObject [(js "role", JString (js "user"));
                         (js "content",
                          JString (js "The login button is broken"))]])].
Proof.
  destruct (llm_is_called_for_valid_posts_only (js "sk-ant-test")
              GenerateSpec.sampleFetch ∅ 0 GenerateSpec.sampleEvent
              ltac:(discriminate)) as [Hcalled _].
  refine (proj2 (Hcalled _ _) _).
  - split; [reflexivity |]. eexists. split; reflexivity.
  - reflexivity.
Defined.

(** The Vercel function strips its key of all white space when it is
    loaded (line 3): every call it makes carries the configured key with
    the white space removed, wherever in the key it was, and a key made of
    white space only counts as no key at all, every request being answered
    500 "API key not set" without a call. *)
Theorem vercel_key_is_stripped_of_white_space
    (env_ANTHROPIC_API_KEY : jsstring)
    (inst : VercelGenerateTicket.Instance) :
  VercelGenerateTicket.load (Some env_ANTHROPIC_API_KEY) = Running inst ->
  let stripped :=
    filter (fun ch => RegExp.isWhiteSpace ch = false) env_ANTHROPIC_API_KEY in
  (forall anthropicFetch event key messages,
     GenerateTicket.CallAnthropic key messages
       ∈ snd (VercelGenerateTicket.handler inst anthropicFetch event) ->
     key = stripped /\ key <> [] /\
     Forall (fun ch => RegExp.isWhiteSpace ch = false) key) /\
  (stripped = [] ->
   forall anthropicFetch event,
     VercelGenerateTicket.handler inst anthropicFetch event
     = (VercelGenerateTicket.keyNotSet, [])).
Proof.
  intros Hload. cbv zeta.
  assert (Hkey : VercelGenerateTicket.ANTHROPIC_API_KEY inst
                 = match env_ANTHROPIC_API_KEY with
                   | [] => None
                   | _ => Some (filter (fun ch => RegExp.isWhiteSpace ch = false)
                                  env_ANTHROPIC_API_KEY)
                   end).
  { unfold VercelGenerateTicket.load in Hload. injection Hload as <-.
    cbn [VercelGenerateTicket.ANTHROPIC_API_KEY].
    unfold VercelGenerateTicket.cleanKey.
    destruct env_ANTHROPIC_API_KEY as [|ch env]; [reflexivity |].
    cbn [truthy fmap option_fmap option_map]. by rewrite filter_trim. }
  split.
  - intros anthropicFetch event key messages.
    unfold VercelGenerateTicket.handler. rewrite Hkey.
    destruct env_ANTHROPIC_API_KEY as [|ch0 env];
      [intros Hin; by apply elem_of_nil in Hin |].
    destruct (filter _ (ch0 :: env)) as [|ch stripped] eqn:Hstripped;
      [intros Hin; by apply elem_of_nil in Hin |].
    destruct (bool_decide _); [intros Hin; by apply elem_of_nil in Hin |].
    destruct (negb _); [intros Hin; by apply elem_of_nil in Hin |].
    destruct (generate_events (ch :: stripped) anthropicFetch event)
      as [(msgs & _ & ->) | [-> _]];
      [| intros Hin; by apply elem_of_nil in Hin].
    intros Hin. apply list_elem_of_singleton in Hin. injection Hin as -> ->.
    split; [reflexivity |]. split; [discriminate |].
    rewrite <- Hstripped. apply Forall_forall. intros x Hx.
    apply list_elem_of_In in Hx. by apply list_elem_of_filter in Hx as [Hx _].
  - intros Hnone anthropicFetch event.
    unfold VercelGenerateTicket.handler. rewrite Hkey.
    destruct env_ANTHROPIC_API_KEY; [reflexivity |]. by rewrite Hnone.
Qed.

Lemma vercel_key_is_stripped_of_white_space_witness :
  VercelGenerateTicket.handler
    {| VercelGenerateTicket.ANTHROPIC_API_KEY :=
         VercelGenerateTicket.cleanKey (Some [32; 9; 10]%N) |}
    GenerateSpec.sampleFetch GenerateSpec.sampleEvent
  = (VercelGenerateTicket.keyNotSet, []).
Proof.
  exact (proj2 (vercel_key_is_stripped_of_white_space [32; 9; 10]%N _
                  Logic.eq_refl)
           Logic.eq_refl GenerateSpec.sampleFetch GenerateSpec.sampleEvent).
Defined.

(** What the Netlify generation proxy answers to a valid request. It
    answers 200 with the data of the LLM API exactly when that API
    answered with a status 2xx and a JSON body. A refusal of the API (a
    status outside 2xx) whose JSON body is not [null] is passed on under
    the status the API gave, with the message line 114 reads from the body
    or its default; a refusal whose body is [null], or is not JSON, gives
    500, as does a call that fails on the network, with the message of the
    failure. *)
Theorem generation_outcome
    (key : jsstring) (anthropicFetch : FetchResult)
    (rateLimitMap : gmap jsstring Entry) (now : Z)
    (event : GenerateTicket.Request) (messages : list JSON) :
  key <> [] ->
  GenerateSpec.postsMessages event messages ->
  snd (GenerateTicket.limit rateLimitMap (GenerateTicket.callerKey event) now)
  = Next ->
  let answer :=
    snd (fst (GenerateTicket.handler
                {| GenerateTicket.ANTHROPIC_API_KEY := Some key |}
                anthropicFetch rateLimitMap now event)) in
  let failed message :=
    {| GenerateTicket.statusCode := 500;
       GenerateTicket.body := GenerateTicket.ThrownBody message |} in
  (forall data,
     answer = {| GenerateTicket.statusCode := 200;
                 GenerateTicket.body := GenerateTicket.Generated data |}
     <-> exists r,
           anthropicFetch = Responded r /\ ok r = true /\ json r = Some data) /\
  (GenerateTicket.statusCode answer = 200 ->
   exists data, GenerateTicket.body answer = GenerateTicket.Generated data) /\
  (forall r errorData,
     anthropicFetch = Responded r -> ok r = false ->
     json r = Some errorData -> errorData <> JNull ->
     exists error,
       GenerateTicket.upstreamMessage errorData = Normal error /\
       answer = {| GenerateTicket.statusCode := httpStatus r;
                   GenerateTicket.body := GenerateTicket.UpstreamError error |}) /\
  (forall r,
     anthropicFetch = Responded r -> ok r = false ->
     json r = Some JNull \/ json r = None ->
     answer = failed None) /\
  (forall message,
     anthropicFetch = NetworkError message -> answer = failed (Some message)).
Proof.
  intros Hkey [Hpost (parsed & Hbody & Hget)] Hnext. cbv zeta.
  destruct key as [|ch key]; [done |].
  unfold GenerateTicket.handler.
  destruct (GenerateTicket.limit rateLimitMap _ now) as [m' v].
  cbn [snd] in Hnext. subst v.
  cbn [GenerateTicket.ANTHROPIC_API_KEY]. rewrite Hpost.
  rewrite bool_decide_eq_false_2 by discriminate.
  rewrite bool_decide_eq_true_2 by reflexivity. cbn [negb].
  unfold GenerateTicket.generate. rewrite Hbody, Hget.
  destruct anthropicFetch as [msg|r]; cbn [fst snd].
  - split; [intros data; split; [discriminate | by intros (r & ? & _)] |].
    split; [discriminate |]. split; [discriminate |].
    split; [discriminate | by intros ? [= ->]].
  - destruct (json r) as [data|] eqn:Hjson.
    + destruct (ok r) eqn:Hok; cbn [fst snd].
      * split.
        { intros data'. split.
          - intros [= <-]. by exists r.
          - intros (r' & [= <-] & _ & Hj). congruence. }
        split; [by exists data |].
        split; [intros r' ? [= <-]; congruence |].
        split; [intros r' [= <-]; congruence | discriminate].
      * assert (Hstatus : httpStatus r <> 200).
        { unfold ok in Hok. intros Hs. rewrite Hs in Hok. discriminate. }
        pose proof (upstreamMessage_null data) as Hnull.
        destruct (GenerateTicket.upstreamMessage data) as [error|] eqn:Hmsg;
          cbn [fst snd].
        -- split.
           { intros data'. split; [discriminate |].
             intros (r' & [= <-] & Hok' & _). congruence. }
           split; [done |].
           split.
           { intros r' errorData [= <-] _ Hj _.
             assert (errorData = data) as -> by congruence.
             by exists error. }
           split; [| discriminate].
           intros r' [= <-] _ [Hj | Hj]; [| congruence].
           assert (data = JNull) as -> by congruence.
           by destruct (proj2 Hnull eq_refl).
        -- split.
           { intros data'. split; [discriminate |].
             intros (r' & [= <-] & Hok' & _). congruence. }
           split; [discriminate |].
           split; [| split; [done | discriminate]].
           intros r' errorData [= <-] _ Hj Hne.
           assert (errorData = data) as -> by congruence.
           by destruct Hne, (proj1 Hnull eq_refl).
    + cbn [fst snd].
      split.
      { intros data'. split; [discriminate |].
        intros (r' & [= <-] & _ & Hj). congruence. }
      split; [discriminate |].
      split; [intros r' ? [= <-]; congruence |].
      split; [done | discriminate].
Qed.

Lemma generation_outcome_witness :
  snd (fst (GenerateTicket.handler
              {| GenerateTicket.ANTHROPIC_API_KEY := Some (js "sk-ant-test") |}
              GenerateSpec.sampleFetch ∅ 0 GenerateSpec.sampleEvent))
  = {| GenerateTicket.statusCode := 200;
       GenerateTicket.body :=
         GenerateTicket.Generated (JObject [(js "id", JString (js "msg_1"))]) |}
  /\ snd (fst (GenerateTicket.handler
                 {| GenerateTicket.ANTHROPIC_API_KEY := Some (js "sk-ant-test") |}
                 GenerateSpec.overloaded ∅ 0 GenerateSpec.sampleEvent))
     = {| GenerateTicket.statusCode := 500;
          GenerateTicket.body := GenerateTicket.ThrownBody None |}.
Proof.
  split.
  - destruct (generation_outcome (js "sk-ant-test") GenerateSpec.sampleFetch ∅ 0
                GenerateSpec.sampleEvent
                [JObject [(js "role", JString (js "user"));
                          (js "content",
                           JString (js "The login button is broken"))]])
      as (Hok & _).
    + discriminate.
    + split; [reflexivity |]. eexists. split; reflexivity.
    + reflexivity.
    + apply Hok. eexists. repeat split; reflexivity.
  - destruct (generation_outcome (js "sk-ant-test") GenerateSpec.overloaded ∅ 0
                GenerateSpec.sampleEvent
                [JObject [(js "role", JString (js "user"));
                          (js "content",
                           JString (js "The login button is broken"))]])
      as (_ & _ & _ & Hnull & _).
    + discriminate.
    + split; [reflexivity |]. eexists. split; reflexivity.
    + reflexivity.
    + apply (Hnull _ Logic.eq_refl Logic.eq_refl). by left.
Defined.

(** ** The allowed origins *)

Section CorsFacts.
Import Cors.

Lemma split_piece sep piece :
  sep ∉ piece -> split sep piece = [piece].
Proof.
  induction piece as [|ch piece IH]; [done |]. intros Hnot.
  apply not_elem_of_cons in Hnot as [Hne Hnot]. cbn.
  destruct (N.eqb_spec ch sep); [congruence |]. by rewrite IH.
Qed.

Lemma split_app sep piece s :
  sep ∉ piece -> split sep (piece ++ sep :: s) = piece :: split sep s.
Proof.
  induction piece as [|ch piece IH]; intros Hnot.
  - cbn. by rewrite N.eqb_refl.
  - apply not_elem_of_cons in Hnot as [Hne Hnot]. cbn.
    destruct (N.eqb_spec ch sep); [congruence |]. by rewrite IH.
Qed.

Lemma split_join pieces :
  pieces <> [] -> Forall (fun piece => comma ∉ piece) pieces ->
  split comma (joinComma pieces) = pieces.
Proof.
  induction pieces as [|piece rest IH]; [done |]. intros _ Hall.
  inversion Hall as [|? ? Hpiece Hrest]; subst.
  destruct rest as [|piece' rest]; [by apply split_piece |].
  cbn [joinComma]. rewrite split_app by done. f_equal. by apply IH.
Qed.

Lemma listed_elem L o : listed L (Some o) = true <-> o ∈ L.
Proof. unfold listed. by rewrite bool_decide_eq_true. Qed.

End CorsFacts.

(** The list of allowed origins is read from the environment as the
    pieces between the commas, each with the white space around it
    removed: an operator who lists origins as ["a, b ,c"] gets exactly
    [a], [b] and [c]. The list is never empty, no entry has white space at
    either end, and an unset or empty variable gives the defaults. *)
Theorem allowed_origins_are_the_trimmed_pieces
    (pieces defaults : list jsstring) :
  pieces <> [] ->
  Forall (fun piece => Cors.comma ∉ piece) pieces ->
  Cors.joinComma pieces <> [] ->
  let ALLOWED_ORIGINS :=
    Cors.allowedOrigins (Some (Cors.joinComma pieces)) defaults in
  ALLOWED_ORIGINS = map trim pieces /\
  ALLOWED_ORIGINS <> [] /\
  Forall (fun origin => trim origin = origin) ALLOWED_ORIGINS /\
  Cors.allowedOrigins None defaults = defaults /\
  Cors.allowedOrigins (Some []) defaults = defaults.
Proof.
  intros Hne Hall Htext. cbv zeta.
  assert (Hlist : Cors.allowedOrigins (Some (Cors.joinComma pieces)) defaults
                  = map trim pieces).
  { unfold Cors.allowedOrigins.
    destruct (Cors.joinComma pieces) as [|ch s] eqn:Hjoin; [done |].
    cbn [truthy]. rewrite <- Hjoin. by rewrite split_join. }
  rewrite Hlist. split; [reflexivity |].
  split; [by destruct pieces |].
  split; [| done].
  apply Forall_forall. intros origin Hin. apply in_map_iff in Hin.
  destruct Hin as (piece & <- & _). apply trim_idempotent.
Qed.

Lemma allowed_origins_are_the_trimmed_pieces_witness :
  Cors.allowedOrigins
    (Some (js "https://a.example.com, https://b.example.com ,http://localhost:5173"))
    Cors.serverDefaults
  = [js "https://a.example.com"; js "https://b.example.com";
     js "http://localhost:5173"].
Proof.
  refine (proj1 (allowed_origins_are_the_trimmed_pieces
                   [js "https://a.example.com"; js " https://b.example.com ";
                    js "http://localhost:5173"]
                   Cors.serverDefaults _ _ _)).
  - discriminate.
  - apply (bool_decide_unpack _). vm_compute. exact I.
  - discriminate.
Defined.

(** The serverless functions never name an origin outside the configured
    list in [Access-Control-Allow-Origin]. The Netlify functions answer
    with the origin of the request when it is listed and with the first
    entry of the list otherwise. The Vercel functions do the same as long
    as the list has no ["*"] and no empty entry; with ["*"] in the list,
    which is their default, they echo whatever origin (or referer) the
    request carries. *)
Theorem allow_origin_header_is_listed
    (ALLOWED_ORIGINS : list jsstring)
    (headers_origin headers_other : option jsstring) :
  ALLOWED_ORIGINS <> [] ->
  (exists origin,
     Cors.netlifyAllowOrigin ALLOWED_ORIGINS headers_origin headers_other
     = Some origin /\ origin ∈ ALLOWED_ORIGINS) /\
  (js "*" ∉ ALLOWED_ORIGINS -> [] ∉ ALLOWED_ORIGINS ->
   exists origin,
     Cors.vercelAllowOrigin ALLOWED_ORIGINS headers_origin headers_other
     = Some origin /\ origin ∈ ALLOWED_ORIGINS) /\
  (js "*" ∈ ALLOWED_ORIGINS ->
   Cors.vercelAllowOrigin ALLOWED_ORIGINS headers_origin headers_other
   = orElse headers_origin headers_other).
Proof.
  intros Hne.
  destruct ALLOWED_ORIGINS as [|first others] eqn:HL; [done |].
  rewrite <- HL in *. clear Hne.
  assert (Hfirst : first ∈ ALLOWED_ORIGINS) by (rewrite HL; left).
  assert (Hhead : head ALLOWED_ORIGINS = Some first) by by rewrite HL.
  split; [| split].
  - unfold Cors.netlifyAllowOrigin.
    destruct (orElse headers_origin headers_other) as [o|].
    + destruct (Cors.listed ALLOWED_ORIGINS (Some o)) eqn:Hlisted.
      * exists o. split; [done | by apply listed_elem].
      * by exists first.
    + cbn [Cors.listed]. by exists first.
  - intros Hstar Hempty. unfold Cors.vercelAllowOrigin.
    assert (Hno : Cors.listed ALLOWED_ORIGINS (Some (js "*")) = false).
    { apply not_true_is_false. intros Hin. by apply listed_elem in Hin. }
    rewrite Hno. cbn [orb].
    assert (Hdefault : orElse (head ALLOWED_ORIGINS) (Some (js "*"))
                       = Some first).
    { rewrite Hhead. destruct first; [done | reflexivity]. }
    destruct (orElse headers_origin headers_other) as [o|].
    + destruct (Cors.listed ALLOWED_ORIGINS (Some o)) eqn:Hlisted.
      * exists o. split; [done | by apply listed_elem].
      * exists first. by rewrite Hdefault.
    + cbn [Cors.listed]. exists first. by rewrite Hdefault.
  - intros Hstar. unfold Cors.vercelAllowOrigin.
    apply listed_elem in Hstar. by rewrite Hstar.
Qed.

Lemma allow_origin_header_is_listed_witness :
  Cors.vercelAllowOrigin Cors.vercelDefaults
    (Some (js "https://evil.example.com")) None
  = Some (js "https://evil.example.com").
Proof.
  exact (proj2 (proj2 (allow_origin_header_is_listed Cors.vercelDefaults
                         (Some (js "https://evil.example.com")) None
                         ltac:(discriminate)))
           ltac:(left)).
Defined.

(** The CORS check of the local server (server.js 49-68). A request that
    names an origin is let through exactly when the origin is in the
    list, whatever [NODE_ENV] is. A request without an origin is let
    through in development only, which is also what an unset [NODE_ENV]
    means; in production it is refused with "Origin header required", and
    that message is given in no other case. *)
Theorem server_cors_decision
    (NODE_ENV : jsstring) (ALLOWED_ORIGINS : list jsstring) :
  (forall origin,
     origin <> [] ->
     (Cors.corsOrigin NODE_ENV ALLOWED_ORIGINS (Some origin) = Cors.Allowed
      <-> origin ∈ ALLOWED_ORIGINS) /\
     (origin ∉ ALLOWED_ORIGINS ->
      Cors.corsOrigin NODE_ENV ALLOWED_ORIGINS (Some origin)
      = Cors.Refused (js "Not allowed by CORS"))) /\
  (Cors.corsOrigin NODE_ENV ALLOWED_ORIGINS None = Cors.Allowed
   <-> NODE_ENV = js "development") /\
  (forall origin,
     Cors.corsOrigin NODE_ENV ALLOWED_ORIGINS origin
     = Cors.Refused (js "Origin header required")
     <-> truthy origin = false /\ NODE_ENV = js "production") /\
  Cors.nodeEnv None = js "development".
Proof.
  split; [| split; [| split; [| reflexivity]]].
  - intros origin Hne. unfold Cors.corsOrigin.
    assert (Htruthy : truthy (Some origin) = true) by by destruct origin.
    rewrite Htruthy. cbn [negb andb].
    destruct (Cors.listed ALLOWED_ORIGINS (Some origin)) eqn:Hlisted.
    + apply listed_elem in Hlisted. done.
    + assert (Hnot : origin ∉ ALLOWED_ORIGINS).
      { intros Hin. apply listed_elem in Hin. congruence. }
      split; [split; [discriminate | done] | done].
  - unfold Cors.corsOrigin. cbn [truthy negb andb Cors.listed].
    case_bool_decide as Hdev; [done |].
    case_bool_decide; (split; [discriminate | done]).
  - intros origin. unfold Cors.corsOrigin.
    destruct (truthy origin) eqn:Htruthy; cbn [negb andb].
    + destruct (Cors.listed _ _);
        (split; [discriminate | by intros [? _]]).
    + case_bool_decide as Hdev.
      { split; [discriminate |]. intros [_ Hprod]. rewrite Hprod in Hdev.
        discriminate. }
      case_bool_decide as Hprod; [done |].
      destruct (Cors.listed _ _);
        (split; [discriminate | by intros [_ ?]]).
Qed.

(** ** Replacing and matching with a global pattern *)

Section ReplaceFacts.
Import RegExp RegExpDerived StringReplace.

Lemma includes_cons ch s pat :
  includes (ch :: s) pat = startsWith (ch :: s) pat || includes s pat.
Proof.
  unfold includes. cbn [indexOf].
  destruct (startsWith (ch :: s) pat); [reflexivity |].
  by destruct (indexOf s pat).
Qed.

(** A pattern that is one character or class: each code unit of the
    class is a match, and nothing else is. *)
Lemma pieces_chars s replacement : forall aft bef fuel,
  (length aft < fuel)%nat ->
  flat_map (fun p => match p with
                     | Kept ch => [ch]
                     | Matched _ => replacement
                     end) (pieces fuel false (Chars s) bef aft)
  = flat_map (fun ch => if member s ch then replacement else [ch]) aft.
Proof.
  induction aft as [|ch rest IH]; intros bef fuel Hfuel;
    (destruct fuel as [|fuel]; [cbn in Hfuel; lia |]); [reflexivity |].
  cbn [pieces]. unfold matchAt. cbn [run after before captures matches].
  cbn [length] in Hfuel.
  destruct (member s ch) eqn:Hch.
  - cbn [matched after captures].
    assert (Hone : (length (ch :: rest) - length rest = 1)%nat)
      by (cbn [length]; lia).
    rewrite Hone.
    cbn [take length Nat.eqb drop rev app flat_map].
    rewrite IH by lia. by rewrite Hch.
  - cbn [flat_map app]. rewrite IH by lia. by rewrite Hch.
Qed.

Lemma replaceAll_chars s replacement str :
  replaceAll false (Chars s) replacement str
  = flat_map (fun ch => if member s ch then replacement else [ch]) str.
Proof. unfold replaceAll, allPieces. apply pieces_chars. lia. Qed.

(** Runs of dots *)
Lemma leadingDots_le s : (leadingDots s <= length s)%nat.
Proof.
  induction s as [|ch s IH]; [done |]. cbn.
  destruct (ch =? 46)%N; lia.
Qed.

Lemma dots_run : forall aft bef min,
  repeatChars false (CChar 46) true Some [] min None bef aft
  = if (min <=? leadingDots aft)%nat
    then Some {| before := rev (take (leadingDots aft) aft) ++ bef;
                 after := drop (leadingDots aft) aft;
                 captures := [] |}
    else None.
Proof.
  induction aft as [|ch rest IH]; intros bef min.
  - cbn. by destruct min.
  - cbn [repeatChars leadingDots predMax]. unfold matches. cbn [member].
    destruct (ch =? 46)%N eqn:Hch.
    + rewrite IH.
      assert (Hstate :
        rev (take (leadingDots rest) rest) ++ ch :: bef
        = rev (take (S (leadingDots rest)) (ch :: rest)) ++ bef)
        by (cbn [take rev]; by rewrite <- app_assoc).
      rewrite Hstate. cbn [drop].
      destruct min as [|min]; cbn [Nat.eqb negb Nat.pred Nat.leb orTry];
        [reflexivity |].
      by destruct (min <=? leadingDots rest)%nat.
    + destruct min; reflexivity.
Qed.

Lemma matchAt_dots bef aft :
  matchAt false (Repeat (Chars (CChar 46)) 2 None true) bef aft
  = if (2 <=? leadingDots aft)%nat
    then Some {| index := length bef;
                 matched := take (leadingDots aft) aft;
                 groups := [] |}
    else None.
Proof.
  unfold matchAt. rewrite run_repeat_chars. cbn [before after captures].
  rewrite dots_run. destruct (2 <=? leadingDots aft)%nat; [| reflexivity].
  cbn [after captures]. do 2 f_equal.
  rewrite length_drop. f_equal.
  pose proof (leadingDots_le aft). lia.
Qed.

Lemma squeezeDots_true s :
  squeezeDots true s = squeezeDots false (drop (leadingDots s) s).
Proof.
  induction s as [|ch s IH]; [reflexivity |]. cbn.
  destruct (ch =? 46)%N eqn:Hch; [exact IH |]. cbn. by rewrite Hch.
Qed.

Lemma pieces_dots : forall fuel aft bef,
  (length aft < fuel)%nat ->
  flat_map (fun p => match p with
                     | Kept ch => [ch]
                     | Matched _ => [46%N]
                     end)
    (pieces fuel false (Repeat (Chars (CChar 46)) 2 None true) bef aft)
  = squeezeDots false aft.
Proof.
  induction fuel as [|fuel IH]; intros aft bef Hfuel; [lia |].
  cbn [pieces]. rewrite matchAt_dots.
  destruct (Nat.leb_spec 2 (leadingDots aft)) as [Hrun | Hrun].
  - cbn [matched].
    pose proof (leadingDots_le aft) as Hle.
    rewrite length_take, Nat.min_l by lia.
    destruct (leadingDots aft) as [|n] eqn:Hn; [lia |].
    cbn [Nat.eqb flat_map app].
    rewrite IH by (rewrite length_drop; lia).
    destruct aft as [|ch rest]; [discriminate |].
    cbn [leadingDots] in Hn. cbn [squeezeDots].
    destruct (ch =? 46)%N eqn:Hch; [| discriminate].
    injection Hn as <-. apply N.eqb_eq in Hch. subst ch.
    cbn [drop]. by rewrite squeezeDots_true.
  - destruct aft as [|ch rest]; [reflexivity |].
    cbn [flat_map app]. cbn [length] in Hfuel. rewrite IH by lia.
    cbn [squeezeDots leadingDots] in *.
    destruct (ch =? 46)%N; [| reflexivity].
    rewrite squeezeDots_true.
    destruct (leadingDots rest); [by rewrite drop_0 | lia].
Qed.

Lemma replaceAll_dots s :
  replaceAll false (Repeat (Chars (CChar 46)) 2 None true) [46%N] s
  = squeezeDots false s.
Proof. unfold replaceAll, allPieces. apply pieces_dots. lia. Qed.

(** What is left has no two dots in a row, and is made of code units of
    the string. *)
Lemma squeezeDots_no_run : forall s afterDot,
  includes (squeezeDots afterDot s) [46; 46]%N = false /\
  (afterDot = true ->
   match squeezeDots afterDot s with
   | ch :: _ => (ch =? 46)%N = false
   | [] => True
   end).
Proof.
  induction s as [|ch s IH]; intros afterDot; [done |].
  cbn [squeezeDots].
  destruct (ch =? 46)%N eqn:Hch.
  - destruct afterDot; [apply IH |].
    destruct (IH true) as [Hinc Hhead]. specialize (Hhead Logic.eq_refl).
    split; [| discriminate].
    rewrite includes_cons, Hinc.
    destruct (squeezeDots true s) as [|ch' out]; cbn [startsWith];
      [by rewrite andb_false_r | by rewrite Hhead, !andb_false_r].
  - destruct (IH false) as [Hinc _].
    split; [| by intros _].
    rewrite includes_cons, Hinc. cbn [startsWith]. by rewrite Hch.
Qed.

Lemma squeezeDots_elem s : forall afterDot ch,
  ch ∈ squeezeDots afterDot s -> ch ∈ s.
Proof.
  induction s as [|a s IH]; intros afterDot ch; [done |].
  cbn [squeezeDots].
  destruct (a =? 46)%N; [destruct afterDot |];
    rewrite ?elem_of_cons; intros Hin.
  - right. by apply (IH true).
  - destruct Hin as [-> | Hin]; [by left | right; by apply (IH true)].
  - destruct Hin as [-> | Hin]; [by left | right; by apply (IH false)].
Qed.

Lemma squeezeDots_nonempty ch s : squeezeDots false (ch :: s) <> [].
Proof. cbn. by destruct (ch =? 46)%N. Qed.

Lemma squeezeDots_fixed : forall s afterDot,
  includes s [46; 46]%N = false ->
  (afterDot = true ->
   match s with ch :: _ => (ch =? 46)%N = false | [] => True end) ->
  squeezeDots afterDot s = s.
Proof.
  induction s as [|ch s IH]; intros afterDot Hinc Hhead; [reflexivity |].
  rewrite includes_cons in Hinc. apply orb_false_iff in Hinc as [Hstart Hinc].
  cbn [squeezeDots]. destruct (ch =? 46)%N eqn:Hch.
  - destruct afterDot; [by specialize (Hhead Logic.eq_refl) |].
    f_equal. apply IH; [exact Hinc |]. intros _.
    destruct s as [|ch' s]; [done |].
    cbn [startsWith] in Hstart. rewrite Hch in Hstart.
    cbn [andb] in Hstart. by rewrite andb_true_r in Hstart.
  - f_equal. apply IH; [exact Hinc | discriminate].
Qed.

Lemma startsWith_take s pat n :
  startsWith (take n s) pat = true -> startsWith s pat = true.
Proof.
  revert s n. induction pat as [|a pat IH]; intros s n; [done |].
  destruct s as [|ch s]; [by rewrite take_nil |].
  destruct n as [|n]; [done |]. cbn.
  intros [-> H]%andb_true_iff. cbn. by apply (IH _ n).
Qed.

Lemma includes_take s pat : forall n,
  includes s pat = false -> includes (take n s) pat = false.
Proof.
  induction s as [|ch s IH]; intros n Hinc; [by rewrite take_nil |].
  destruct n as [|n].
  - cbn [take]. destruct pat; [done | reflexivity].
  - rewrite includes_cons in Hinc.
    apply orb_false_iff in Hinc as [Hstart Hinc].
    cbn [take]. rewrite includes_cons, (IH n Hinc), orb_false_r.
    apply not_true_is_false. intros Ht.
    apply (startsWith_take (ch :: s) pat (S n)) in Ht. congruence.
Qed.

(** A template without [$] is taken as it is. *)
Lemma getSubstitution_literal matched bef aft template :
  dollar ∉ template ->
  getSubstitution matched bef aft template = template.
Proof.
  induction template as [|ch rest IH]; [done |].
  intros [Hne Hnot]%not_elem_of_cons. cbn [getSubstitution].
  destruct (N.eqb_spec ch dollar); [congruence |]. by rewrite IH.
Qed.
End ReplaceFacts.

(** ** The helpers of the application *)

Section AppFacts.
Import RegExp RegExpDerived StringReplace App.

Lemma escapeChar_chain ch :
  flat_map (fun c => if member (CChar 47) c then js "&#x2F;" else [c])
    (flat_map (fun c => if member (CChar 39) c then js "&#x27;" else [c])
       (flat_map (fun c => if member (CChar 34) c then js "&quot;" else [c])
          (flat_map (fun c => if member (CChar 62) c then js "&gt;" else [c])
             (if member (CChar 60) ch then js "&lt;" else [ch]))))
  = escapeChar ch.
Proof.
  unfold escapeChar. cbn [member].
  destruct (N.eqb_spec ch 60) as [-> | H60]; [reflexivity |].
  cbn [flat_map member app].
  destruct (N.eqb_spec ch 62) as [-> | H62]; [reflexivity |].
  cbn [flat_map member app].
  destruct (N.eqb_spec ch 34) as [-> | H34]; [reflexivity |].
  cbn [flat_map member app].
  destruct (N.eqb_spec ch 39) as [-> | H39]; [reflexivity |].
  cbn [flat_map member app].
  destruct (N.eqb_spec ch 47) as [-> | H47]; reflexivity.
Qed.

(** The five replacements in a row escape each code unit on its own:
    no replacement text holds a character a later step replaces. *)
Lemma sanitizeText_flat text :
  sanitizeText (Some text) = flat_map escapeChar text.
Proof.
  unfold sanitizeText. destruct text as [|c0 text0]; [reflexivity |].
  cbn [truthy negb PushToJira.interpolate].
  rewrite !replaceAll_chars.
  induction (c0 :: text0) as [|ch rest IH]; [reflexivity |].
  cbn [flat_map]. rewrite !flat_map_app, IH. f_equal.
  apply escapeChar_chain.
Qed.

Lemma escapeChar_safe ch :
  Forall (fun x => x ∉ markupChars) (escapeChar ch).
Proof.
  unfold escapeChar.
  destruct (N.eqb_spec ch 60); [by apply (bool_decide_unpack _) |].
  destruct (N.eqb_spec ch 62); [by apply (bool_decide_unpack _) |].
  destruct (N.eqb_spec ch 34); [by apply (bool_decide_unpack _) |].
  destruct (N.eqb_spec ch 39); [by apply (bool_decide_unpack _) |].
  destruct (N.eqb_spec ch 47); [by apply (bool_decide_unpack _) |].
  constructor; [| constructor]. unfold markupChars.
  rewrite !not_elem_of_cons. repeat split; try done. apply not_elem_of_nil.
Qed.

Lemma escapeChar_fixed ch : ch ∉ markupChars -> escapeChar ch = [ch].
Proof.
  unfold markupChars. rewrite !not_elem_of_cons.
  intros (H60 & H62 & H34 & H39 & H47 & _). unfold escapeChar.
  destruct (N.eqb_spec ch 60); [done |].
  destruct (N.eqb_spec ch 62); [done |].
  destruct (N.eqb_spec ch 34); [done |].
  destruct (N.eqb_spec ch 39); [done |].
  destruct (N.eqb_spec ch 47); done.
Qed.

Lemma escape_safe text :
  Forall (fun x => x ∉ markupChars) (flat_map escapeChar text).
Proof.
  induction text as [|ch text IH]; [constructor |].
  cbn [flat_map]. apply Forall_app_2; [apply escapeChar_safe | exact IH].
Qed.

Lemma escape_fixed text :
  Forall (fun x => x ∉ markupChars) text -> flat_map escapeChar text = text.
Proof.
  induction 1 as [|ch text Hch _ IH]; [reflexivity |].
  cbn [flat_map]. by rewrite (escapeChar_fixed ch Hch), IH.
Qed.

(** File names *)
Lemma replaceOutside_class class replacement s :
  Forall (fun ch => member class ch = true) replacement ->
  Forall (fun ch => member class ch = true)
    (replaceOutside class replacement s).
Proof.
  intros Hrep. unfold replaceOutside.
  induction s as [|ch s IH]; [constructor |].
  cbn [flat_map]. apply Forall_app_2; [| exact IH].
  destruct (member class ch) eqn:Hch; [by repeat constructor | exact Hrep].
Qed.

Lemma replaceOutside_fixed class replacement s :
  Forall (fun ch => member class ch = true) s ->
  replaceOutside class replacement s = s.
Proof.
  unfold replaceOutside. induction 1 as [|ch s Hch _ IH]; [reflexivity |].
  cbn [flat_map]. by rewrite Hch, IH.
Qed.

Lemma sanitizeFileName_some ch s :
  sanitizeFileName (Some (ch :: s))
  = take 255 (squeezeDots false
                (replaceOutside fileNameChars (js "_") (ch :: s))).
Proof.
  unfold sanitizeFileName. cbn [truthy negb PushToJira.interpolate].
  f_equal. exact (replaceAll_dots _).
Qed.

(** [getApiEndpoint] *)
Lemma startsWith_self s : startsWith s s = true.
Proof.
  induction s as [|ch s IH]; [reflexivity |]. cbn.
  by rewrite N.eqb_refl, IH.
Qed.

(** A string that ends with [a ++ b] includes [b]: the tests with
    [endsWith] add nothing to those with [includes]. *)
Lemma endsWith_includes_tail s a b :
  endsWith s (a ++ b) = true -> includes s b = true.
Proof.
  unfold endsWith. destruct (_ <? 0); [discriminate |].
  intros Heq%bool_decide_eq_true.
  destruct (includes s b) eqn:Hinc; [reflexivity | exfalso].
  set (n := Z.to_nat _) in Heq.
  pose proof (includes_false_drop _ _ Hinc (n + length a)) as Hno.
  rewrite <- drop_drop, Heq, drop_app_length, startsWith_self in Hno.
  discriminate.
Qed.

Lemma isVercel_mentions hostname href :
  isVercel hostname href
  = includes hostname (js "vercel.app") || includes hostname (js "vercel.com")
    || includes href (js "vercel.app") || includes href (js "vercel.com").
Proof.
  unfold isVercel.
  pose proof (endsWith_includes_tail hostname [46%N] (js "vercel.app")) as E1.
  pose proof (endsWith_includes_tail hostname [46%N] (js "vercel.com")) as E2.
  change ([46%N] ++ js "vercel.app") with (js ".vercel.app") in E1.
  change ([46%N] ++ js "vercel.com") with (js ".vercel.com") in E2.
  destruct (endsWith hostname (js ".vercel.app")); [rewrite E1 by done |];
    (destruct (endsWith hostname (js ".vercel.com"));
       [rewrite E2 by done |]);
    repeat match goal with
           | |- context [includes ?a ?b] => destruct (includes a b)
           end; reflexivity.
Qed.

Lemma isNetlify_mentions hostname href :
  isNetlify hostname href
  = includes hostname (js "netlify.app")
    || includes hostname (js "netlify.com")
    || includes href (js "netlify.app") || includes href (js "netlify.com").
Proof.
  unfold isNetlify.
  pose proof (endsWith_includes_tail hostname [46%N] (js "netlify.app")) as E1.
  pose proof (endsWith_includes_tail hostname [46%N] (js "netlify.com")) as E2.
  change ([46%N] ++ js "netlify.app") with (js ".netlify.app") in E1.
  change ([46%N] ++ js "netlify.com") with (js ".netlify.com") in E2.
  destruct (endsWith hostname (js ".netlify.app")); [rewrite E1 by done |];
    (destruct (endsWith hostname (js ".netlify.com"));
       [rewrite E2 by done |]);
    repeat match goal with
           | |- context [includes ?a ?b] => destruct (includes a b)
           end; reflexivity.
Qed.

(** The three forms of the address are distinct. *)
Lemma endpoints_distinct functionName :
  vercelEndpoint functionName <> netlifyEndpoint functionName /\
  vercelEndpoint functionName <> localEndpoint functionName /\
  netlifyEndpoint functionName <> localEndpoint functionName.
Proof. repeat split; discriminate. Qed.
End AppFacts.

(** [sanitizeText] escapes each code unit on its own: the five characters
    of markup (the angle brackets, the two quotes and the slash) become
    their entities and everything else is copied, so the result holds none
    of the five. The ampersand is not among them, and no entity holds a
    character that is escaped: sanitising a sanitised text changes
    nothing. A text without the five characters comes back as it is, and
    a missing or empty text gives the empty string. *)
Theorem sanitizeText_escapes_markup (text : option jsstring) :
  let out := App.sanitizeText text in
  Forall (fun ch => ch ∉ App.markupChars) out /\
  App.sanitizeText (Some out) = out /\
  (forall t, text = Some t -> out = flat_map App.escapeChar t) /\
  (forall t, text = Some t ->
     Forall (fun ch => ch ∉ App.markupChars) t -> out = t) /\
  (truthy text = false -> out = []).
Proof.
  cbv zeta.
  assert (Hout : App.sanitizeText text
                 = flat_map App.escapeChar
                     (match text with Some t => t | None => [] end)).
  { destruct text as [t|]; [apply sanitizeText_flat | reflexivity]. }
  rewrite Hout. split; [apply escape_safe |].
  split; [rewrite sanitizeText_flat; apply escape_fixed, escape_safe |].
  split; [by intros t -> |].
  split; [intros t -> Hsafe; by apply escape_fixed |].
  by destruct text as [[|ch t]|].
Qed.

(** [sanitizeFileName] always returns a usable name: it is not empty, has
    at most 255 code units, is made of letters, digits, dot, underscore
    and hyphen only (so it has no slash and no backslash) and never holds
    two dots in a row. A name that already is of that kind is returned
    as it is, so that sanitising twice changes nothing; a missing or
    empty name becomes "file". *)
Theorem sanitizeFileName_is_safe (filename : option jsstring) :
  let name := App.sanitizeFileName filename in
  let wellFormed (n : jsstring) :=
    n <> [] /\ (length n <= 255)%nat /\
    Forall (fun ch => RegExp.member App.fileNameChars ch = true) n /\
    includes n (js "..") = false in
  wellFormed name /\
  (forall n, wellFormed n -> App.sanitizeFileName (Some n) = n) /\
  App.sanitizeFileName (Some name) = name /\
  (truthy filename = false -> name = js "file").
Proof.
  cbv zeta.
  assert (Hfixed : forall n,
    n <> [] /\ (length n <= 255)%nat /\
    Forall (fun ch => RegExp.member App.fileNameChars ch = true) n /\
    includes n (js "..") = false ->
    App.sanitizeFileName (Some n) = n).
  { intros n (Hne & Hlen & Hclass & Hdots).
    destruct n as [|ch n]; [done |].
    rewrite sanitizeFileName_some, replaceOutside_fixed by done.
    rewrite squeezeDots_fixed by done. by apply take_ge. }
  assert (Hwf :
    App.sanitizeFileName filename <> [] /\
    (length (App.sanitizeFileName filename) <= 255)%nat /\
    Forall (fun ch => RegExp.member App.fileNameChars ch = true)
      (App.sanitizeFileName filename) /\
    includes (App.sanitizeFileName filename) (js "..") = false).
  { assert (Hfile :
      js "file" <> [] /\ (length (js "file") <= 255)%nat /\
      Forall (fun ch => RegExp.member App.fileNameChars ch = true) (js "file")
      /\ includes (js "file") (js "..") = false).
    { split; [discriminate |]. split; [cbn; lia |].
      split; [by repeat constructor | reflexivity]. }
    destruct filename as [[|ch s]|]; [exact Hfile | | exact Hfile].
    rewrite sanitizeFileName_some.
    pose proof (replaceOutside_class App.fileNameChars (js "_") (ch :: s)
                  ltac:(by repeat constructor)) as Hclass.
    assert (Hne : StringReplace.replaceOutside App.fileNameChars (js "_")
                    (ch :: s) <> []).
    { unfold StringReplace.replaceOutside. cbn [flat_map].
      by destruct (RegExp.member App.fileNameChars ch). }
    destruct (StringReplace.replaceOutside _ _ _) as [|c0 cleaned];
      [done |].
    split; [| split; [| split]].
    - pose proof (squeezeDots_nonempty c0 cleaned) as Hsq.
      destruct (StringReplace.squeezeDots false (c0 :: cleaned)); done.
    - rewrite length_take. lia.
    - apply Forall_take.
      apply Forall_forall. intros x Hx. apply list_elem_of_In in Hx.
      apply squeezeDots_elem in Hx.
      rewrite Forall_forall in Hclass. apply Hclass.
      by apply list_elem_of_In.
    - apply includes_take.
      exact (proj1 (squeezeDots_no_run (c0 :: cleaned) false)). }
  split; [exact Hwf |]. split; [exact Hfixed |].
  split; [by apply Hfixed |].
  by destruct filename as [[|ch s]|].
Qed.

(** Without an explicit address ([VITE_API_URL] unset or empty)
    [getApiEndpoint] answers with one of three addresses, each ending in
    the function name: [/api/], [/.netlify/functions/] or the local
    server. The Netlify address is chosen exactly when the platform is
    set to netlify or, in a production build with the platform not set to
    vercel, the host name or the address of the page mentions
    netlify.app or netlify.com and neither mentions vercel.app or
    vercel.com; the local server exactly in a build that is not for
    production with no platform set. Everything else, an unreadable
    location included, gives [/api/]. *)
Theorem api_endpoint_without_override
    (env : App.Env) (window_location : option App.Location)
    (functionName : jsstring) :
  truthy (App.VITE_API_URL env) = false ->
  let endpoint := App.getApiEndpoint env window_location functionName in
  let mentions (needle : jsstring) :=
    match window_location with
    | Some l =>
        includes (toLowerCase (App.location_hostname l)) needle
        || includes (toLowerCase (App.location_href l)) needle
    | None => false
    end in
  let platform := App.VITE_PLATFORM env in
  (endpoint = App.vercelEndpoint functionName \/
   endpoint = App.netlifyEndpoint functionName \/
   endpoint = App.localEndpoint functionName) /\
  (endpoint = App.netlifyEndpoint functionName <->
   platform = Some (js "netlify") \/
   (platform <> Some (js "vercel") /\ App.PROD env = true /\
    mentions (js "netlify.app") || mentions (js "netlify.com") = true /\
    mentions (js "vercel.app") || mentions (js "vercel.com") = false)) /\
  (endpoint = App.localEndpoint functionName <->
   platform <> Some (js "vercel") /\ platform <> Some (js "netlify") /\
   App.PROD env = false).
Proof.
  intros Hno. cbv zeta. unfold App.getApiEndpoint. rewrite Hno.
  destruct (endpoints_distinct functionName) as (Hvn & Hvl & Hnl).
  case_bool_decide as Hvercel.
  { split; [by left |]. split; (split; [done |]).
    - intros [Hn | (Hv & _)]; [| done]. rewrite Hvercel in Hn. discriminate.
    - by intros (Hv & _). }
  case_bool_decide as Hnetlify.
  { split; [by right; left |]. split; [split; [by left | done] |].
    split; [done | by intros (_ & Hn & _)]. }
  destruct (App.PROD env) eqn:Hprod; cbn [negb].
  - destruct window_location as [l|].
    + rewrite isVercel_mentions, isNetlify_mentions.
      set (h := toLowerCase (App.location_hostname l)).
      set (r := toLowerCase (App.location_href l)).
      destruct (includes h (js "vercel.app")), (includes h (js "vercel.com")),
        (includes r (js "vercel.app")), (includes r (js "vercel.com"));
        cbn [orb];
        try (split; [by left |];
             split; (split; [done |]);
             [intros [Hn | (_ & _ & _ & Hv)]; done
             | intros (_ & _ & Hp); done]).
      destruct (includes h (js "netlify.app")),
        (includes h (js "netlify.com")), (includes r (js "netlify.app")),
        (includes r (js "netlify.com")); cbn [orb];
        try (split; [by right; left |];
             split; [split; [intros _; right; done | done] |];
             split; [done | intros (_ & _ & Hp); done]).
      split; [by left |].
      split; (split; [done |]);
        [intros [Hn | (_ & _ & Hn & _)]; done | intros (_ & _ & Hp); done].
    + split; [by left |].
      split; (split; [done |]);
        [intros [Hn | (_ & _ & Hn & _)]; done | intros (_ & _ & Hp); done].
  - split; [by right; right |].
    split; [split; [done |] | split; done].
    intros [Hn | (_ & Hp & _)]; done.
Qed.

Lemma api_endpoint_without_override_witness :
  App.getApiEndpoint AppSample.productionEnv (Some AppSample.netlifySite)
    (js "push-to-jira")
  = js "/.netlify/functions/push-to-jira".
Proof.
  destruct (api_endpoint_without_override AppSample.productionEnv
              (Some AppSample.netlifySite) (js "push-to-jira")
              Logic.eq_refl) as (_ & Hnetlify & _).
  apply Hnetlify. right. split; [discriminate |]. split; [reflexivity |].
  split; vm_compute; reflexivity.
Defined.

(** With an explicit address in [VITE_API_URL] the platform, the build
    and the location play no part. When the address names the generation
    function, the first [generate-ticket] in it is replaced by the name of
    the function asked for (a name without [$]), the rest of the address
    staying as it is; otherwise the name is appended after a slash. *)
Theorem api_endpoint_override
    (env : App.Env) (window_location : option App.Location)
    (functionName baseUrl : jsstring) :
  App.VITE_API_URL env = Some baseUrl ->
  baseUrl <> [] ->
  let endpoint := App.getApiEndpoint env window_location functionName in
  (forall env' window_location',
     App.VITE_API_URL env' = Some baseUrl ->
     App.getApiEndpoint env' window_location' functionName = endpoint) /\
  (includes baseUrl (js "generate-ticket") = false ->
   endpoint = baseUrl ++ js "/" ++ functionName) /\
  (forall before after,
     baseUrl = before ++ js "generate-ticket" ++ after ->
     indexOf baseUrl (js "generate-ticket") = Some (length before) ->
     StringReplace.dollar ∉ functionName ->
     endpoint = before ++ functionName ++ after).
Proof.
  intros Hurl Hne. cbv zeta.
  assert (Htruthy : truthy (Some baseUrl) = true) by by destruct baseUrl.
  unfold App.getApiEndpoint. rewrite Hurl, Htruthy.
  cbn [PushToJira.interpolate].
  split; [intros env' loc' ->; by rewrite Htruthy |].
  split; [by intros -> |].
  intros bef aft Hsplit Hindex Hdollar.
  unfold includes, StringReplace.replace. rewrite Hindex.
  rewrite getSubstitution_literal by done.
  rewrite Hsplit at 1 2.
  rewrite take_app_length.
  change (length (js "generate-ticket")) with 15%nat.
  rewrite <- drop_drop, drop_app_length.
  reflexivity.
Qed.

Lemma api_endpoint_override_witness :
  App.getApiEndpoint AppSample.overrideEnv None (js "test-jira")
  = js "https://api.example.com/fn/test-jira".
Proof.
  destruct (api_endpoint_override AppSample.overrideEnv None (js "test-jira")
              (js "https://api.example.com/fn/generate-ticket")
              Logic.eq_refl ltac:(discriminate)) as (_ & _ & Hreplaced).
  apply (Hreplaced (js "https://api.example.com/fn/") []).
  - reflexivity.
  - vm_compute. reflexivity.
  - apply (bool_decide_unpack _). vm_compute. exact I.
Defined.

(** ** The ticket format *)

Section FormatFacts.
Import App.

(** What [findIndex] finds is the first field with the identifier. *)
Lemma findIndex_Some fieldId : forall ticketFormat n,
  findIndex fieldId ticketFormat = Some n ->
  exists pre field post,
    ticketFormat = pre ++ field :: post /\ length pre = n /\
    field_id field = fieldId /\
    Forall (fun f => field_id f <> fieldId) pre.
Proof.
  induction ticketFormat as [|f rest IH]; intros n; [discriminate |].
  cbn [findIndex]. case_bool_decide as Hid.
  - intros [= <-]. by exists [], f, rest.
  - destruct (findIndex fieldId rest) as [m|]; [| discriminate].
    intros [= <-].
    destruct (IH m Logic.eq_refl) as (pre & field & post & -> & <- & Hf & Hpre).
    exists (f :: pre), field, post. repeat split; [done |].
    by constructor.
Qed.

Lemma findIndex_first fieldId pre field post :
  Forall (fun f => field_id f <> fieldId) pre ->
  field_id field = fieldId ->
  findIndex fieldId (pre ++ field :: post) = Some (length pre).
Proof.
  intros Hpre Hf. induction Hpre as [|f pre Hne _ IH].
  - cbn. by rewrite bool_decide_eq_true_2.
  - cbn. rewrite bool_decide_eq_false_2 by done. by rewrite IH.
Qed.

Lemma swap_adjacent {A} (pre : list A) a b post :
  (pre ++ a :: b :: post) !! length pre = Some a /\
  (pre ++ a :: b :: post) !! S (length pre) = Some b /\
  <[length pre := b]> (<[S (length pre) := a]> (pre ++ a :: b :: post))
  = pre ++ b :: a :: post.
Proof.
  split; [by apply list_lookup_middle |].
  split.
  - replace (pre ++ a :: b :: post) with ((pre ++ [a]) ++ b :: post)
      by by rewrite <- app_assoc.
    apply list_lookup_middle. rewrite length_app. cbn. lia.
  - rewrite !insert_app_r_alt by lia.
    replace (S (length pre) - length pre)%nat with 1%nat by lia.
    replace (length pre - length pre)%nat with 0%nat by lia.
    reflexivity.
Qed.

(** The move of the field at index [length pre + 1] up, and of the one
    at index [length pre] down. *)
Lemma moveField_up pre other field post :
  Forall (fun f => field_id f <> field_id field) (pre ++ [other]) ->
  moveField (pre ++ other :: field :: post) (field_id field) (js "up")
  = pre ++ field :: other :: post.
Proof.
  intros Hfirst. unfold moveField.
  replace (pre ++ other :: field :: post)
    with ((pre ++ [other]) ++ field :: post) at 1
    by by rewrite <- app_assoc.
  rewrite findIndex_first by done.
  rewrite length_app. cbn [length].
  rewrite bool_decide_eq_true_2 by reflexivity.
  destruct (swap_adjacent pre other field post) as (H1 & H2 & H3).
  replace (Z.to_nat (Z.of_nat (length pre + 1) - 1)) with (length pre)
    by lia.
  replace (length pre + 1)%nat with (S (length pre)) by lia.
  rewrite H1, H2, H3.
  destruct (Z.ltb_spec (Z.of_nat (S (length pre)) - 1) 0); [lia |].
  destruct (Z.leb_spec (Z.of_nat (length (pre ++ other :: field :: post)))
              (Z.of_nat (S (length pre)) - 1)) as [Hge|]; [| reflexivity].
  rewrite length_app in Hge. cbn [length] in Hge. lia.
Qed.

Lemma moveField_down pre field other post direction :
  direction <> js "up" ->
  Forall (fun f => field_id f <> field_id field) pre ->
  moveField (pre ++ field :: other :: post) (field_id field) direction
  = pre ++ other :: field :: post.
Proof.
  intros Hdown Hfirst. unfold moveField.
  rewrite findIndex_first by done.
  rewrite bool_decide_eq_false_2 by done.
  destruct (swap_adjacent pre field other post) as (H1 & H2 & H3).
  replace (Z.to_nat (Z.of_nat (length pre) + 1)) with (S (length pre))
    by lia.
  rewrite H1, H2.
  rewrite list_insert_insert_ne by lia. rewrite H3.
  destruct (Z.ltb_spec (Z.of_nat (length pre) + 1) 0); [lia |].
  destruct (Z.leb_spec (Z.of_nat (length (pre ++ field :: other :: post)))
              (Z.of_nat (length pre) + 1)) as [Hge|]; [| reflexivity].
  rewrite length_app in Hge. cbn [length] in Hge. lia.
Qed.

Lemma moveField_cases ticketFormat fieldId direction :
  moveField ticketFormat fieldId direction = ticketFormat \/
  exists pre a b post,
    ticketFormat = pre ++ a :: b :: post /\
    moveField ticketFormat fieldId direction = pre ++ b :: a :: post.
Proof.
  destruct (findIndex fieldId ticketFormat) as [n|] eqn:Hfind;
    [| left; unfold moveField; by rewrite Hfind].
  destruct (findIndex_Some _ _ _ Hfind)
    as (pre & field & post & -> & <- & <- & Hpre).
  destruct (decide (direction = js "up")) as [-> | Hdown].
  - destruct pre as [|x pre _] using rev_ind.
    + left. unfold moveField. rewrite Hfind. reflexivity.
    + right. exists pre, x, field, post.
      rewrite <- app_assoc. cbn [app]. split; [reflexivity |].
      by apply moveField_up.
  - destruct post as [|other post].
    + left. unfold moveField. rewrite Hfind.
      rewrite bool_decide_eq_false_2 by done.
      destruct (Z.ltb_spec (Z.of_nat (length pre) + 1) 0); [reflexivity |].
      destruct (Z.leb_spec (Z.of_nat (length (pre ++ [field])))
                  (Z.of_nat (length pre) + 1)) as [|Hlt]; [reflexivity |].
      rewrite length_app in Hlt. cbn [length] in Hlt. lia.
    + right. exists pre, field, other, post. split; [reflexivity |].
      by apply moveField_down.
Qed.
End FormatFacts.

(** [moveField] exchanges a field of the ticket format with its neighbour
    and does nothing else: the new format is the old one, or the old one
    with two adjacent fields exchanged, so that no field is lost or
    duplicated. Moving the first field up, the last one down, or a field
    that is not in the format leaves the format as it is. Moving a field
    (the first with its identifier) up puts it before the field that
    preceded it, and moving it down again restores the format. *)
Theorem moveField_exchanges_neighbours
    (ticketFormat : list App.TicketField) (fieldId : jsstring) :
  (forall direction,
     App.moveField ticketFormat fieldId direction ≡ₚ ticketFormat) /\
  (forall direction,
     App.findIndex fieldId ticketFormat = None ->
     App.moveField ticketFormat fieldId direction = ticketFormat) /\
  (App.findIndex fieldId ticketFormat = Some 0%nat ->
   App.moveField ticketFormat fieldId (js "up") = ticketFormat) /\
  (App.findIndex fieldId ticketFormat = Some (length ticketFormat - 1)%nat ->
   App.moveField ticketFormat fieldId (js "down") = ticketFormat) /\
  (forall pre other field post,
     ticketFormat = pre ++ other :: field :: post ->
     App.field_id field = fieldId ->
     Forall (fun f => App.field_id f <> fieldId) (pre ++ [other]) ->
     App.moveField ticketFormat fieldId (js "up")
     = pre ++ field :: other :: post /\
     App.moveField (App.moveField ticketFormat fieldId (js "up")) fieldId
       (js "down")
     = ticketFormat).
Proof.
  split; [| split; [| split; [| split]]].
  - intros direction.
    destruct (moveField_cases ticketFormat fieldId direction)
      as [-> | (pre & a & b & post & -> & ->)]; [done |].
    apply Permutation_app_head. apply perm_swap.
  - intros direction Hnone. unfold App.moveField. by rewrite Hnone.
  - intros Hfirst. unfold App.moveField. rewrite Hfirst.
    by rewrite bool_decide_eq_true_2.
  - intros Hlast. unfold App.moveField. rewrite Hlast.
    rewrite bool_decide_eq_false_2 by discriminate.
    destruct (Z.ltb_spec (Z.of_nat (length ticketFormat - 1) + 1) 0);
      [reflexivity |].
    destruct (Z.leb_spec (Z.of_nat (length ticketFormat))
                (Z.of_nat (length ticketFormat - 1) + 1)); [reflexivity | lia].
  - intros pre other field post -> <- Hfirst.
    rewrite moveField_up by done. split; [reflexivity |].
    apply moveField_down; [discriminate |].
    apply Forall_app in Hfirst as [Hpre _]. exact Hpre.
Qed.

(** [handleFormatDrop] puts the dragged field where the field it is
    dropped on was: the new format has the dragged field at the index the
    target had, and taking it out again gives the old format without it,
    so that the other fields keep their order and none is lost. *)
Theorem handleFormatDrop_moves_the_dragged_field
    (ticketFormat : list App.TicketField) (draggedField targetFieldId : jsstring)
    (draggedIndex targetIndex : nat) (dragged : App.TicketField) :
  draggedField <> [] ->
  draggedField <> targetFieldId ->
  App.findIndex draggedField ticketFormat = Some draggedIndex ->
  App.findIndex targetFieldId ticketFormat = Some targetIndex ->
  ticketFormat !! draggedIndex = Some dragged ->
  let newFormat :=
    App.handleFormatDrop ticketFormat (Some draggedField) targetFieldId in
  newFormat !! targetIndex = Some dragged /\
  delete targetIndex newFormat = delete draggedIndex ticketFormat /\
  newFormat ≡ₚ ticketFormat /\
  length newFormat = length ticketFormat.
Proof.
  intros Hne Hdiff Hdragged Htarget Hfield. cbv zeta.
  unfold App.handleFormatDrop.
  assert (Htruthy : truthy (Some draggedField) = true)
    by by destruct draggedField.
  rewrite Htruthy. cbn [negb orb PushToJira.interpolate].
  rewrite bool_decide_eq_false_2 by congruence.
  rewrite Hdragged, Htarget, Hfield.
  set (rest := delete draggedIndex ticketFormat).
  assert (Hlen : length ticketFormat = S (length rest)).
  { subst rest. pose proof (lookup_lt_Some _ _ _ Hfield).
    rewrite length_delete by eauto. lia. }
  assert (Hbound : (targetIndex <= length rest)%nat).
  { destruct (findIndex_Some _ _ _ Htarget) as (pre & f & post & Heq & <- & _).
    rewrite Heq, length_app in Hlen. cbn [length] in Hlen. lia. }
  assert (Htake : length (take targetIndex rest) = targetIndex)
    by (rewrite length_take; lia).
  split; [| split; [| split]].
  - rewrite <- Htake at 1. apply list_lookup_middle. reflexivity.
  - rewrite <- Htake at 1. rewrite delete_middle. apply take_drop.
  - rewrite <- Permutation_middle, take_drop. subst rest.
    symmetry. by apply delete_Permutation.
  - rewrite length_app. cbn [length]. rewrite length_drop, Htake. lia.
Qed.

Lemma handleFormatDrop_moves_the_dragged_field_witness :
  App.handleFormatDrop App.DEFAULT_TICKET_FIELDS (Some (js "priority"))
    (js "title") !! 0%nat
  = Some (App.defaultField "priority" "Priority").
Proof.
  exact (proj1 (handleFormatDrop_moves_the_dragged_field
                  App.DEFAULT_TICKET_FIELDS (js "priority") (js "title")
                  6 0 (App.defaultField "priority" "Priority")
                  ltac:(discriminate) ltac:(discriminate)
                  Logic.eq_refl Logic.eq_refl Logic.eq_refl)).
Defined.

(** ** The quality score *)

Section QualityFacts.
Import RegExp RegExpDerived StringReplace App.

Lemma descriptionPattern_group : definesGroup1 false descriptionPattern.
Proof.
  unfold descriptionPattern.
  apply definesGroup1_prefix. by apply definesGroup1_group.
Qed.

(** The pattern of the description finds something only below the
    bolded label. *)
Lemma description_match_label ticketText m :
  exec false descriptionPattern ticketText = Some m ->
  includes ticketText (js "**Description:**") = true.
Proof.
  intros Hexec.
  destruct (includes ticketText (js "**Description:**")) eqn:Hinc;
    [reflexivity |].
  unfold descriptionPattern in Hexec.
  by rewrite (exec_lit_none _ _ _ Hinc) in Hexec.
Qed.

Lemma points_range present n : 0 <= n -> 0 <= points present n <= n.
Proof. unfold points. destruct present; lia. Qed.
End QualityFacts.

(** [calculateQualityScore] never fails, and its score lies between 0 and
    100. The rating is "Excellent" from 90 points on and "Needs
    Improvement" below 40. A ticket with full marks draws no feedback,
    and a ticket that draws no feedback (three numbered steps or more, a
    description section of more than 100 code units) has 48 points at
    least, so that it is never rated "Needs Improvement". *)
Theorem quality_score_is_bounded (ticketText : jsstring) :
  exists quality,
    App.calculateQualityScore ticketText = Normal quality /\
    0 <= App.score quality <= 100 /\
    (App.rating quality = App.Excellent <-> 90 <= App.score quality) /\
    (App.rating quality = App.NeedsImprovement <-> App.score quality < 40) /\
    (App.score quality = 100 -> App.feedback quality = []) /\
    (App.feedback quality = [] ->
     48 <= App.score quality /\
     (3 <= length (StringReplace.matchAll false App.stepPattern ticketText))%nat
     /\ includes ticketText (js "**Description:**") = true).
Proof.
  unfold App.calculateQualityScore.
  pose proof (points_range (includes ticketText (js "**Title:**")) 8
                ltac:(lia)) as H1.
  pose proof (points_range (includes ticketText (js "**Steps to Reproduce:**"))
                8 ltac:(lia)) as H3.
  pose proof (points_range (includes ticketText (js "**Expected Behaviour:**"))
                8 ltac:(lia)) as H4.
  pose proof (points_range (includes ticketText (js "**Actual Behaviour:**"))
                8 ltac:(lia)) as H5.
  pose proof (points_range (includes ticketText (js "**Priority:**")) 10
                ltac:(lia)) as H6.
  pose proof (points_range (includes ticketText (js "**Environment:**")) 10
                ltac:(lia)) as H7.
  revert H1 H3 H4 H5 H6 H7.
  generalize (App.points (includes ticketText (js "**Title:**")) 8).
  generalize (App.points (includes ticketText (js "**Steps to Reproduce:**")) 8).
  generalize (App.points (includes ticketText (js "**Expected Behaviour:**")) 8).
  generalize (App.points (includes ticketText (js "**Actual Behaviour:**")) 8).
  generalize (App.points (includes ticketText (js "**Priority:**")) 10).
  generalize (App.points (includes ticketText (js "**Environment:**")) 10).
  intros p7 p6 p5 p4 p3 p1 H1 H3 H4 H5 H6 H7.
  assert (Hrating : forall s,
    (App.ratingOf s = App.Excellent <-> 90 <= s) /\
    (App.ratingOf s = App.NeedsImprovement <-> s < 40)).
  { intros s. unfold App.ratingOf.
    destruct (Z.leb_spec 90 s); [split; split; try done; lia |].
    destruct (Z.leb_spec 75 s); [split; split; try done; lia |].
    destruct (Z.leb_spec 60 s); [split; split; try done; lia |].
    destruct (Z.leb_spec 40 s); split; split; try done; lia. }
  destruct (RegExp.exec false App.descriptionPattern ticketText) as [m|]
    eqn:Hexec.
  - destruct (exec_group1 _ _ _ _ descriptionPattern_group Hexec) as (s & Hs).
    rewrite (description_match_label _ _ Hexec).
    unfold App.descriptionLength. rewrite Hs.
    cbn [mbind completion_bind App.points].
    set (steps := StringReplace.matchAll false App.stepPattern ticketText).
    destruct steps as [|s1 [|s2 [|s3 more]]] eqn:Hsteps;
      destruct (100 <? length s)%nat; destruct (50 <? length s)%nat;
      cbn [length Nat.leb];
      (eexists; split; [reflexivity |]);
      cbn [App.score App.rating App.feedback app];
      (split; [lia |]);
      (split; [apply Hrating |]);
      (split; [apply Hrating |]);
      (split; [intros Hfull; first [reflexivity | lia]
              | intros Hquiet; first [discriminate
                                     | split; [lia | split; [lia | done]]]]).
  - cbn [App.descriptionLength mbind completion_bind].
    set (steps := StringReplace.matchAll false App.stepPattern ticketText).
    generalize (App.points (includes ticketText (js "**Description:**")) 8)
      (points_range (includes ticketText (js "**Description:**")) 8
         ltac:(lia)).
    intros p2 H2.
    destruct steps as [|s1 [|s2 [|s3 more]]] eqn:Hsteps;
      cbn [length Nat.leb];
      (eexists; split; [reflexivity |]);
      cbn [App.score App.rating App.feedback app];
      (split; [lia |]);
      (split; [apply Hrating |]);
      (split; [apply Hrating |]);
      (split; [intros Hfull; lia | intros Hquiet; discriminate]).
Qed.

(** ** More on the parser: trimmed fields, and the bolded priority *)

Section PriorityFacts.
Import RegExp RegExpDerived FormattedTicket TicketFormat.

(** [([Pp][1-4])\b] at a code followed by the end of the text or by a
    character that is not a word character. *)
Lemma code_run bef p d tail caps :
  p ∈ [80; 112]%N -> d ∈ [49; 50; 51; 52]%N ->
  match tail with ch :: _ => isWordChar ch = false | [] => True end ->
  run false codePattern
    {| before := bef; after := p :: d :: tail; captures := caps |} Some
  = Some {| before := d :: p :: bef; after := tail;
            captures := (1%nat, [p; d])
                          :: filter (fun kv => fst kv <> 1%nat) caps |}.
Proof.
  intros Hp Hd Htail. unfold codePattern.
  rewrite run_Seq, run_Group.
  assert (Hlen : (length (p :: d :: tail) - length tail = 2)%nat)
    by (cbn [length]; lia).
  assert (Hword : isWordChar d = true).
  { repeat (apply elem_of_cons in Hd as [-> | Hd]; [reflexivity |]).
    by apply elem_of_nil in Hd. }
  assert (Hmp : matches false (CUnion (CChar 80) (CChar 112)) p = true).
  { repeat (apply elem_of_cons in Hp as [-> | Hp]; [reflexivity |]).
    by apply elem_of_nil in Hp. }
  assert (Hmd : matches false (CRange 49 52) d = true).
  { repeat (apply elem_of_cons in Hd as [-> | Hd]; [reflexivity |]).
    by apply elem_of_nil in Hd. }
  cbn [run after before captures]. rewrite Hmp. cbn [after]. rewrite Hmd.
  unfold setCapture. cbn [before after captures]. rewrite Hlen, Hword.
  destruct tail as [|ch tail]; [reflexivity |]. by rewrite Htail.
Qed.

Lemma priority1_matchAt bef ws p d tail :
  allWhite ws = true ->
  p ∈ [80; 112]%N -> d ∈ [49; 50; 51; 52]%N ->
  match tail with ch :: _ => isWordChar ch = false | [] => True end ->
  exists m,
    matchAt false priorityPattern1 bef
      (js "**Priority:**" ++ ws ++ p :: d :: tail) = Some m /\
    group 1 m = Some [p; d].
Proof.
  intros Hws Hp Hd Htail.
  unfold matchAt, priorityPattern1.
  rewrite run_Seq, run_lit. cbn [after]. rewrite litPrefix_self.
  unfold advance. cbn [before after captures].
  rewrite take_app_length, drop_app_length.
  unfold star. rewrite run_Seq, run_repeat_chars.
  cbn [before after captures].
  assert (Hnonwhite : isWhiteSpace p = false).
  { repeat (apply elem_of_cons in Hp as [-> | Hp]; [reflexivity |]).
    by apply elem_of_nil in Hp. }
  match goal with
  | |- context [repeatChars false CSpace true ?k [] 0 None ?bf ?af] =>
      assert (Hrun : repeatChars false CSpace true k [] 0 None bf af
                     = Some {| before := d :: p :: rev ws ++ bf;
                               after := tail;
                               captures := [(1%nat, [p; d])] |})
  end.
  { apply greedy_white_prefix; [exact Hws |].
    rewrite greedy_white_stop by exact Hnonwhite.
    by rewrite code_run. }
  rewrite Hrun. eexists. split; reflexivity.
Qed.

Lemma upper_code p d :
  p ∈ [80; 112]%N -> d ∈ [49; 50; 51; 52]%N ->
  toUpperCase (trim [p; d]) = [80%N; d] /\
  resolvePriorityText (Some [80%N; d]) = [80%N; d] /\
  priorityOf [80%N; d] = ([d], [80%N; d]).
Proof.
  intros Hp Hd.
  repeat (apply elem_of_cons in Hp as [-> | Hp];
          [repeat (apply elem_of_cons in Hd as [-> | Hd];
                   [repeat split; vm_compute; reflexivity |]);
           by apply elem_of_nil in Hd |]).
  by apply elem_of_nil in Hp.
Qed.
End PriorityFacts.

(** Every text field the parser returns is trimmed: it is empty, or it
    begins and ends with a code unit that is not white space, so that
    trimming it again changes nothing. That holds for the title (the
    placeholder "Bug Report" included) and for the six sections. *)
Theorem parsed_fields_are_trimmed
    (ticketContent : jsstring) (fields : FormattedTicket.Fields) :
  FormattedTicket.parseTicketForJira ticketContent = Normal fields ->
  let clean (s : jsstring) :=
    (s = [] \/ RegExpDerived.trimmed s = true) /\ trim s = s in
  clean (FormattedTicket.title fields) /\
  forall sec, clean (TicketFormat.sectionField sec fields).
Proof.
  intros Hparse. cbv zeta.
  assert (Hclean : forall m dflt s,
    (dflt = [] \/ RegExpDerived.trimmed dflt = true) ->
    FormattedTicket.trimmedGroup m dflt = Normal s ->
    (s = [] \/ RegExpDerived.trimmed s = true) /\ trim s = s).
  { intros m dflt s Hdflt Hg.
    assert (Hs : s = [] \/ RegExpDerived.trimmed s = true).
    { unfold FormattedTicket.trimmedGroup in Hg.
      destruct m as [m|]; [| by injection Hg as <-].
      destruct (RegExp.group 1 m) as [g|]; [| discriminate].
      injection Hg as <-. apply trim_result. }
    split; [exact Hs |].
    destruct Hs as [-> | Hs]; [reflexivity | by apply trim_fixed]. }
  pose proof (parse_inversion _ _ Hparse) as Hinv. cbv zeta in Hinv.
  destruct Hinv as (Ht & Hd & Hs & He & Ha & Hi & Hv & _ & _).
  split.
  - exact (Hclean _ (js "Bug Report") _ (or_intror Logic.eq_refl) Ht).
  - intros sec.
    destruct sec; cbn [TicketFormat.sectionField];
      (eapply (Hclean _ [] _); [by left | eassumption]).
Qed.

Lemma parsed_fields_are_trimmed_witness :
  trim (FormattedTicket.steps FormattedTicket.sampleFields)
  = FormattedTicket.steps FormattedTicket.sampleFields.
Proof.
  exact (proj2 (proj2 (parsed_fields_are_trimmed FormattedTicket.sampleTicket
                         FormattedTicket.sampleFields parse_sampleTicket)
                  TicketFormat.StepsToReproduce)).
Defined.

(** A priority written in the bolded convention is recovered. When the
    first [**Priority:**] of the ticket is followed by optional white
    space and a code, P or p with a digit from 1 to 4, and the code ends
    there (end of text, or a character that is not a letter, a digit or
    an underscore), the parser returns that code in upper case as the
    priority name and its digit as the identifier. *)
Theorem bold_priority_is_recovered
    (ticketContent before ws tail : jsstring) (p d : N) :
  ticketContent = before ++ js "**Priority:**" ++ ws ++ p :: d :: tail ->
  indexOf ticketContent (js "**Priority:**") = Some (length before) ->
  RegExpDerived.allWhite ws = true ->
  p ∈ [80; 112]%N -> d ∈ [49; 50; 51; 52]%N ->
  match tail with
  | ch :: _ => RegExp.isWordChar ch = false
  | [] => True
  end ->
  exists fields,
    FormattedTicket.parseTicketForJira ticketContent = Normal fields /\
    FormattedTicket.priorityName fields = [80%N; d] /\
    FormattedTicket.priorityId fields = [d].
Proof.
  intros Hcontent Hfirst Hws Hp Hd Htail.
  destruct (parse_total ticketContent) as (fields & Hparse).
  exists fields. split; [exact Hparse |].
  pose proof (parse_inversion _ _ Hparse) as Hinv. cbv zeta in Hinv.
  destruct Hinv as (_ & _ & _ & _ & _ & _ & _ & -> & ->).
  assert (Hexec : exists m,
    RegExp.exec false FormattedTicket.priorityPattern1 ticketContent = Some m
    /\ RegExp.group 1 m = Some [p; d]).
  { rewrite Hcontent in Hfirst |- *.
    unfold RegExp.exec, FormattedTicket.priorityPattern1.
    rewrite searchFrom_lit_skip.
    - destruct (priority1_matchAt (rev before ++ []) ws p d tail
                  Hws Hp Hd Htail) as (m & Hm & Hg).
      exists m. split; [| exact Hg].
      by apply searchFrom_found.
    - intros j Hj. rewrite litPrefix_false_startsWith.
      by apply (indexOf_Some_before _ _ _ Hfirst). }
  destruct Hexec as (m & Hexec & Hgroup).
  destruct (upper_code p d Hp Hd) as (Hupper & Hresolve & Hof).
  assert (Htext : FormattedTicket.extractPriorityText ticketContent
                  = Some [80%N; d]).
  { unfold FormattedTicket.extractPriorityText, FormattedTicket.codeOf.
    by rewrite Hexec, Hgroup, Hupper. }
  rewrite Htext, Hresolve, Hof. split; reflexivity.
Qed.

Lemma bold_priority_is_recovered_witness :
  exists fields,
    FormattedTicket.parseTicketForJira (js "See **Priority:** p1 (urgent)")
    = Normal fields /\
    FormattedTicket.priorityName fields = js "P1" /\
    FormattedTicket.priorityId fields = js "1".
Proof.
  refine (bold_priority_is_recovered (js "See **Priority:** p1 (urgent)")
            (js "See ") (js " ") (js " (urgent)") 112 49
            Logic.eq_refl _ Logic.eq_refl _ _ _).
  - vm_compute. reflexivity.
  - set_solver.
  - set_solver.
  - reflexivity.
Defined.

(** ** From the client to the tracker *)

Section ClientPushFacts.
Import PushToJira PushSpec.

Lemma whenTruthy_Some x v : whenTruthy x = Some v -> x = Some v /\ v <> [].
Proof.
  unfold whenTruthy. destruct x as [[|ch s]|]; cbn; try discriminate.
  intros [= <-]. done.
Qed.

Lemma whenTruthy_nonempty v : v <> [] -> whenTruthy (Some v) = Some v.
Proof. by destruct v. Qed.

(** The team field of a payload: a trimmed, non-empty value, with an
    identifier that is truthy when there is one. *)
Lemma engineeringTeamField_value w clean pk c t :
  fst (engineeringTeamField w clean pk c) = Some t ->
  team_value t <> [] /\
  (exists team, engineeringTeam c = Some team /\ team_value t = trim team) /\
  (forall i, team_id t = Some i -> truthyValue (Some i) = true).
Proof.
  unfold engineeringTeamField.
  destruct (engineeringTeam c) as [[|c0 team]|]; cbn [truthy];
    try discriminate.
  cbn [interpolate].
  destruct (trim (c0 :: team)) as [|ch s] eqn:Htrim; [discriminate |].
  destruct (getEngineeringTeamId w clean pk (ch :: s)) as [tid logged].
  destruct (truthyValue tid) eqn:Htid; cbn [fst]; intros [= <-];
    cbn [team_value team_id]; (split; [discriminate |]);
    (split; [by exists (c0 :: team) |]).
  - intros i ->. exact Htid.
  - discriminate.
Qed.
End ClientPushFacts.

(** The optional fields of an issue are sent with a value or not at all:
    in every issue creation of the push proxy, the instance, the product
    line, the component and the version, when present in the payload, are
    the non-empty strings of the custom fields of the request, and the
    engineering team, when present, is the trimmed, non-empty team of the
    request, with an identifier only if the lookup gave a usable one. *)
Theorem optional_fields_are_never_empty
    (w : PushToJira.World) (rateLimitMap : gmap jsstring Entry) (now : Z)
    (req : PushToJira.Request) (url : jsstring)
    (payload : PushToJira.JiraPayload) :
  PushToJira.CreateIssue url payload
    ∈ snd (PushToJira.handler w rateLimitMap now req) ->
  let requested (field : PushToJira.CustomFields -> option jsstring)
      (v : jsstring) :=
    v <> [] /\
    exists b c,
      PushToJira.body req = Some b /\ PushToJira.customFields b = Some c /\
      field c = Some v in
  (forall v, PushToJira.customfield_11888 payload = Some v ->
     requested PushToJira.instance v) /\
  (forall v, PushToJira.customfield_11924 payload = Some v ->
     requested PushToJira.productLine v) /\
  (forall l, PushToJira.components payload = Some l ->
     exists v, l = [v] /\ requested PushToJira.component v) /\
  (forall v, PushToJira.customfield_11744 payload = Some v ->
     requested PushToJira.foundVersion v) /\
  (forall t, PushToJira.customfield_11737 payload = Some t ->
     PushToJira.team_value t <> [] /\
     trim (PushToJira.team_value t) = PushToJira.team_value t /\
     (exists b c team,
        PushToJira.body req = Some b /\ PushToJira.customFields b = Some c /\
        PushToJira.engineeringTeam c = Some team /\
        PushToJira.team_value t = trim team) /\
     (forall i, PushToJira.team_id t = Some i ->
        truthyValue (Some i) = true)).
Proof.
  intros Hin. cbv zeta.
  destruct (handler_create _ _ _ _ _ _ Hin) as (b & f & Hbody & Hfields & ->).
  set (clean := PushToJira.removeTrailingSlash _).
  set (pk := PushToJira.interpolate (PushToJira.projectKey b)).
  unfold PushToJira.buildPayload.
  destruct (PushToJira.customFields b) as [c|] eqn:Hcustom;
    [| cbn [fst]; repeat split; discriminate].
  pose proof (engineeringTeamField_value w clean pk c) as Hteam.
  destruct (PushToJira.engineeringTeamField w clean pk c) as [team events].
  cbn [fst] in *. cbn [mbind option_bind].
  assert (Hfrom : forall field v,
            PushToJira.whenTruthy (field c) = Some v ->
            v <> [] /\
            exists b0 c0,
              PushToJira.body req = Some b0 /\
              PushToJira.customFields b0 = Some c0 /\ field c0 = Some v).
  { intros field v Hv. apply whenTruthy_Some in Hv as [Hv Hne].
    split; [exact Hne |]. by exists b, c. }
  split; [intros v; apply (Hfrom PushToJira.instance) |].
  split; [intros v; apply (Hfrom PushToJira.productLine) |].
  split.
  { intros l Hl.
    destruct (PushToJira.whenTruthy (PushToJira.component c)) as [v|] eqn:Hv;
      [| discriminate].
    injection Hl as <-. exists v. split; [reflexivity |].
    by apply (Hfrom PushToJira.component). }
  split; [intros v; apply (Hfrom PushToJira.foundVersion) |].
  intros t Ht.
  destruct (Hteam t Ht) as (Hne & (teamName & Hname & Hvalue) & Hid).
  split; [exact Hne |].
  split; [rewrite Hvalue; apply trim_idempotent |].
  split; [| exact Hid].
  by exists b, c, teamName.
Qed.

Lemma optional_fields_are_never_empty_witness :
  exists url payload,
    PushToJira.CreateIssue url payload
      ∈ snd (PushToJira.handler PushSample.world ∅ 0 PushSample.request) /\
    forall v, PushToJira.customfield_11888 payload = Some v -> v <> [].
Proof.
  assert (Hin : exists url payload,
    PushToJira.CreateIssue url payload
      ∈ snd (PushToJira.handler PushSample.world ∅ 0 PushSample.request)).
  { rewrite (handler_accepted _ _ _ _ _ _ sample_accepted). cbn [snd].
    match goal with
    | |- context [PushToJira.submit ?w ?c ?p ?a] =>
        destruct (submit_events w c p a) as (rest & Hsub & _)
    end.
    eexists _, _. rewrite Hsub. apply elem_of_app. right. left. }
  destruct Hin as (url & payload & Hin).
  destruct (optional_fields_are_never_empty _ _ _ _ _ _ Hin)
    as (Hinstance & _).
  exists url, payload. split; [exact Hin |].
  intros v Hv. exact (proj1 (Hinstance v Hv)).
Defined.

(** From the client to the tracker. With a ticket to push and every Jira
    setting filled in, [pushToJira] sends one POST to the push endpoint,
    whose body the proxy never refuses for a missing field: whenever the
    caller is within its limit, the header of line 52 can be set for the
    origin the browser names, and the configured URL passes the validator,
    the request is accepted, and the issue the proxy creates carries the
    title the parser found as its summary, the parser's priority, the
    configured project key and the configured instance, product line,
    component and version. *)
Theorem client_submission_is_accepted
    (env : App.Env) (window_location : option App.Location)
    (ticket : jsstring) (jiraConfig : ClientPush.JiraConfig)
    (files : list ClientPush.FileItem) (shouldSkipAttachments : bool) :
  ticket <> [] ->
  ClientPush.configured jiraConfig = true ->
  exists fields body,
    FormattedTicket.parseTicketForJira ticket = Normal fields /\
    ClientPush.pushToJira env window_location (Some ticket) jiraConfig files
      shouldSkipAttachments
    = Normal (ClientPush.Post
                (App.getApiEndpoint env window_location (js "push-to-jira"))
                body) /\
    forall (w : PushToJira.World) (rateLimitMap : gmap jsstring Entry)
           (now : Z) (x_forwarded_for x_real_ip origin referer : option jsstring),
      let req :=
        ClientPush.received x_forwarded_for x_real_ip origin referer body in
      snd (PushToJira.limit rateLimitMap (PushToJira.callerKey req) now)
      = Next ->
      PushSpec.setsAllowOrigin w req ->
      valid (validateJiraUrl (PushToJira.newURL w)
               (ClientPush.url jiraConfig)) = true ->
      PushSpec.accepts w rateLimitMap now req body
        (PushToJira.ofParsed fields) /\
      exists url payload rest looked,
        snd (PushToJira.handler w rateLimitMap now req)
        = looked ++ PushToJira.CreateIssue url payload :: rest /\
        PushToJira.summary payload = Some (FormattedTicket.title fields) /\
        PushToJira.priority payload
        = {| PushToJira.id := FormattedTicket.priorityId fields;
             PushToJira.name := FormattedTicket.priorityName fields |} /\
        PushToJira.project_key payload = ClientPush.projectKey jiraConfig /\
        PushToJira.customfield_11888 payload
        = Some (ClientPush.instance jiraConfig) /\
        PushToJira.customfield_11924 payload
        = Some (ClientPush.productLine jiraConfig) /\
        PushToJira.components payload
        = Some [ClientPush.component jiraConfig] /\
        PushToJira.customfield_11744 payload
        = Some (ClientPush.foundVersion jiraConfig).
Proof.
  intros Hticket Hconfigured.
  destruct (parse_total ticket) as (fields & Hparse).
  exists fields,
    (ClientPush.requestPayload jiraConfig fields files shouldSkipAttachments).
  split; [exact Hparse |].
  assert (Htruthy : truthy (Some ticket) = true) by by destruct ticket.
  split.
  { unfold ClientPush.pushToJira.
    rewrite Htruthy, Hconfigured. cbn [negb PushToJira.interpolate].
    by rewrite Hparse. }
  unfold ClientPush.configured in Hconfigured.
  repeat (apply andb_true_iff in Hconfigured as [Hconfigured ?]).
  intros w rateLimitMap now forwarded realIp origin referer req Hnext Hcors
    Hvalid.
  assert (Hacc : PushSpec.accepts w rateLimitMap now req
                   (ClientPush.requestPayload jiraConfig fields files
                      shouldSkipAttachments)
                   (PushToJira.ofParsed fields)).
  { unfold PushSpec.accepts. repeat split; done. }
  split; [exact Hacc |].
  rewrite (handler_accepted _ _ _ _ _ _ Hacc). cbn [snd].
  match goal with
  | |- context [PushToJira.submit ?w ?c ?p ?a] =>
      destruct (submit_events w c p a) as (rest & Hsub & _);
      set (payload := p) in *
  end.
  eexists _, payload, rest, _. rewrite Hsub. split; [reflexivity |].
  subst payload. unfold PushToJira.buildPayload.
  cbn [ClientPush.requestPayload PushToJira.customFields
       PushToJira.projectKey PushToJira.interpolate].
  destruct (PushToJira.engineeringTeamField w _ _ _) as [team events].
  cbn [fst PushToJira.summary PushToJira.priority PushToJira.project_key
       PushToJira.customfield_11888 PushToJira.customfield_11924
       PushToJira.components PushToJira.customfield_11744
       PushToJira.ofParsed PushToJira.f_title PushToJira.f_priorityId
       PushToJira.f_priorityName mbind option_bind
       PushToJira.instance PushToJira.productLine PushToJira.component
       PushToJira.foundVersion].
  destruct (parse_priority ticket fields Hparse) as [Hcode Hmap].
  destruct (priorityCode_nonempty _ _ Hmap) as [Hn Hi].
  rewrite !orDefault_truthy by done.
  assert (Hwhen : forall v, truthy (Some v) = true ->
                            PushToJira.whenTruthy (Some v) = Some v).
  { intros v Hv. unfold PushToJira.whenTruthy. by rewrite Hv. }
  rewrite !Hwhen by done. cbn [fmap option_fmap option_map].
  repeat split.
Qed.

Lemma client_submission_is_accepted_witness :
  exists fields body,
    FormattedTicket.parseTicketForJira FormattedTicket.sampleTicket
    = Normal fields /\
    ClientPush.pushToJira AppSample.productionEnv
      (Some AppSample.vercelSite) (Some FormattedTicket.sampleTicket)
      ClientPush.sampleConfig [] false
    = Normal (ClientPush.Post (js "/api/push-to-jira") body) /\
    exists url payload,
      PushToJira.CreateIssue url payload
        ∈ snd (PushToJira.handler PushSample.world ∅ 0
                 (ClientPush.received (Some (js "203.0.113.7")) None
                    (Some (js "https://tickets.vercel.app")) None body)) /\
      PushToJira.summary payload = Some (FormattedTicket.title fields).
Proof.
  destruct (client_submission_is_accepted AppSample.productionEnv
              (Some AppSample.vercelSite) FormattedTicket.sampleTicket
              ClientPush.sampleConfig [] false)
    as (fields & body & Hparse & Hpost & Hproxy).
  - discriminate.
  - reflexivity.
  - exists fields, body. split; [exact Hparse |].
    split; [rewrite Hpost; reflexivity |].
    destruct (Hproxy PushSample.world ∅ 0 (Some (js "203.0.113.7")) None
                (Some (js "https://tickets.vercel.app")) None)
      as (_ & url & payload & rest & looked & Hevents & Hsummary & _).
    + vm_compute. reflexivity.
    + vm_compute. discriminate.
    + vm_compute. reflexivity.
    + exists url, payload. split; [| exact Hsummary].
      rewrite Hevents. apply elem_of_app. right. left.
Defined.
